(** * Address synchronizer of the Electrum wallet (electrum/address_synchronizer.py)

    A shallow embedding of [AddressSynchronizer]: the per-address history,
    the derived indexes [txi], [txo], [spent_outpoints], [_history_local],
    the verified / unverified maps, and the operations that maintain and
    query them.

    Python dictionaries keep their insertion order, and that order is what
    the storage layer serialises; they are therefore modelled as association
    lists whose keys are distinct.  Python sets are modelled as duplicate
    free lists ([ListSet]); their iteration order is not specified by
    Python, and the statements proved below about them speak of membership
    only. *)

From Stdlib Require Import String ZArith List Bool Lia ListSet DecimalString.
From Stdlib Require Import Sorting.Sorted Sorting.Permutation.
From Stdlib Require DecimalPos DecimalZ.
Import ListNotations.
Open Scope string_scope.
Open Scope list_scope.
Open Scope Z_scope.

(** ** Keys with decidable equality *)

Class EqDec (K : Type) := eq_dec : forall x y : K, {x = y} + {x <> y}.

#[global] Instance string_EqDec : EqDec string := string_dec.
#[global] Instance Z_EqDec : EqDec Z := Z.eq_dec.
#[global] Instance bool_EqDec : EqDec bool := bool_dec.

#[global] Instance prod_EqDec {A B : Type} `{EqDec A} `{EqDec B} : EqDec (A * B).
Proof.
  intros [a b] [a' b'].
  destruct (eq_dec a a') as [->|Ha]; [|right; congruence].
  destruct (eq_dec b b') as [->|Hb]; [left; reflexivity|right; congruence].
Defined.

Definition eqb_of {K : Type} `{EqDec K} (x y : K) : bool :=
  if eq_dec x y then true else false.

Lemma eqb_of_true {K : Type} `{EqDec K} (x y : K) : eqb_of x y = true <-> x = y.
Proof. unfold eqb_of. destruct (eq_dec x y); split; congruence. Qed.

Lemma eqb_of_false {K : Type} `{EqDec K} (x y : K) : eqb_of x y = false <-> x <> y.
Proof. unfold eqb_of. destruct (eq_dec x y); split; congruence. Qed.

Lemma eqb_of_refl {K : Type} `{EqDec K} (x : K) : eqb_of x x = true.
Proof. apply eqb_of_true. reflexivity. Qed.

(** ** Python dictionaries *)

Module Dict.
Section Dict.
Context {K V : Type} `{EqDec K}.

Definition dict := list (K * V).

(** [d.get(k)] *)
Fixpoint dget (k : K) (d : dict) : option V :=
  match d with
  | [] => None
  | (k', v) :: d' => if eq_dec k k' then Some v else dget k d'
  end.

(** [k in d] *)
Definition dmem (k : K) (d : dict) : bool :=
  match dget k d with Some _ => true | None => false end.

(** [d[k] = v]: an existing key keeps its position, a new key goes last. *)
Fixpoint dset (k : K) (v : V) (d : dict) : dict :=
  match d with
  | [] => [(k, v)]
  | (k', v') :: d' =>
      if eq_dec k k' then (k', v) :: d' else (k', v') :: dset k v d'
  end.

(** [d.pop(k, None)] (the popped value is read with [dget] beforehand). *)
Definition dpop (k : K) (d : dict) : dict :=
  filter (fun kv => negb (eqb_of k (fst kv))) d.

Definition dkeys (d : dict) : list K := map fst d.

(** The association list stands for a dictionary: its keys are distinct. *)
Definition wf (d : dict) : Prop := NoDup (dkeys d).

Lemma dget_dset_same k v d : dget k (dset k v d) = Some v.
Proof.
  induction d as [|[k' v'] d IH]; simpl.
  - destruct (eq_dec k k); congruence.
  - destruct (eq_dec k k') as [->|Hne]; simpl.
    + destruct (eq_dec k' k'); congruence.
    + destruct (eq_dec k k'); congruence.
Qed.

Lemma dget_dset_other k k' v d : k' <> k -> dget k' (dset k v d) = dget k' d.
Proof.
  intros Hne. induction d as [|[k0 v0] d IH]; simpl.
  - destruct (eq_dec k' k); congruence.
  - destruct (eq_dec k k0) as [->|Hk]; simpl.
    + destruct (eq_dec k' k0); congruence.
    + destruct (eq_dec k' k0); congruence.
Qed.

Lemma dget_dset k k' v d :
  dget k' (dset k v d) = if eq_dec k' k then Some v else dget k' d.
Proof.
  destruct (eq_dec k' k) as [->|Hne].
  - apply dget_dset_same.
  - apply dget_dset_other; assumption.
Qed.

Lemma dget_dpop_same k d : dget k (dpop k d) = None.
Proof.
  induction d as [|[k' v'] d IH]; simpl; [reflexivity|].
  unfold eqb_of. destruct (eq_dec k k') as [->|Hne]; simpl; [assumption|].
  destruct (eq_dec k k'); congruence.
Qed.

Lemma dget_dpop_other k k' d : k' <> k -> dget k' (dpop k d) = dget k' d.
Proof.
  intros Hne. induction d as [|[k0 v0] d IH]; simpl; [reflexivity|].
  unfold eqb_of. destruct (eq_dec k k0) as [->|Hk]; simpl.
  - destruct (eq_dec k' k0); congruence.
  - destruct (eq_dec k' k0); congruence.
Qed.

Lemma dget_dpop k k' d :
  dget k' (dpop k d) = if eq_dec k' k then None else dget k' d.
Proof.
  destruct (eq_dec k' k) as [->|Hne].
  - apply dget_dpop_same.
  - apply dget_dpop_other; assumption.
Qed.

Lemma dget_In k v d : dget k d = Some v -> In (k, v) d.
Proof.
  induction d as [|[k' v'] d IH]; simpl; [discriminate|].
  destruct (eq_dec k k') as [->|Hne].
  - intros [= ->]. left; reflexivity.
  - intros Hg. right. apply IH; assumption.
Qed.

Lemma dget_None_notin k d : dget k d = None <-> ~ In k (dkeys d).
Proof.
  induction d as [|[k' v'] d IH]; simpl.
  - split; [intros _ []|reflexivity].
  - destruct (eq_dec k k') as [->|Hne].
    + split; [discriminate|]. intros Hn. exfalso. apply Hn. left; reflexivity.
    + rewrite IH. split.
      * intros Hn [Heq|Hin]; [congruence|auto].
      * intros Hn Hin. apply Hn. right; assumption.
Qed.

Lemma In_dget k v d : wf d -> In (k, v) d -> dget k d = Some v.
Proof.
  unfold wf. induction d as [|[k' v'] d IH]; simpl; [intros _ []|].
  intros Hnd Hin. inversion Hnd as [|? ? Hnotin Hnd']; subst.
  destruct (eq_dec k k') as [->|Hne].
  - destruct Hin as [Heq|Hin]; [congruence|].
    exfalso. apply Hnotin. apply (in_map fst) in Hin. exact Hin.
  - destruct Hin as [Heq|Hin]; [congruence|]. apply IH; assumption.
Qed.

Lemma dpop_notin k d : dget k d = None -> dpop k d = d.
Proof.
  induction d as [|[k' v'] d IH]; simpl; [reflexivity|].
  unfold eqb_of. destruct (eq_dec k k') as [->|Hne]; [discriminate|].
  simpl. intros Hg. f_equal. apply IH; assumption.
Qed.

Lemma dpop_dset k v d : dpop k (dset k v d) = dpop k d.
Proof.
  induction d as [|[k' v'] d IH]; simpl.
  - rewrite eqb_of_refl. reflexivity.
  - destruct (eq_dec k k') as [->|Hne]; simpl.
    + rewrite eqb_of_refl. reflexivity.
    + unfold eqb_of in *. destruct (eq_dec k k'); [congruence|].
      simpl. f_equal. exact IH.
Qed.

Lemma dkeys_dset k v d :
  dkeys (dset k v d) = if dmem k d then dkeys d else dkeys d ++ [k].
Proof.
  unfold dmem. induction d as [|[k' v'] d IH]; simpl; [reflexivity|].
  destruct (eq_dec k k') as [->|Hne]; simpl; [reflexivity|].
  rewrite IH. destruct (dget k d); reflexivity.
Qed.

Lemma wf_dset k v d : wf d -> wf (dset k v d).
Proof.
  unfold wf. intros Hwf. rewrite dkeys_dset. unfold dmem.
  destruct (dget k d) eqn:Hg; [assumption|].
  apply dget_None_notin in Hg.
  apply NoDup_rev in Hwf. rewrite <- (rev_involutive (dkeys d ++ [k])).
  apply NoDup_rev. rewrite rev_app_distr. simpl.
  constructor; [|assumption]. rewrite <- in_rev. assumption.
Qed.

Lemma dkeys_dpop_incl k d : incl (dkeys (dpop k d)) (dkeys d).
Proof.
  intros x. unfold dkeys, dpop. rewrite !in_map_iff.
  intros [kv [Hx Hin]]. apply filter_In in Hin. exists kv. tauto.
Qed.

Lemma wf_dpop k d : wf d -> wf (dpop k d).
Proof.
  unfold wf. induction d as [|[k' v'] d IH]; simpl; [auto|].
  intros Hnd. inversion Hnd as [|? ? Hnotin Hnd']; subst.
  destruct (negb (eqb_of k k')); simpl; [|auto].
  constructor; [|auto]. intros Hin. apply Hnotin.
  apply (dkeys_dpop_incl k d). exact Hin.
Qed.

Lemma dmem_true k d : dmem k d = true <-> exists v, dget k d = Some v.
Proof.
  unfold dmem. destruct (dget k d); split; try discriminate; eauto.
  intros [v [=]].
Qed.

Lemma dmem_false k d : dmem k d = false <-> dget k d = None.
Proof. unfold dmem. destruct (dget k d); split; congruence. Qed.
End Dict.
Arguments dict : clear implicits.
End Dict.
Import Dict.

(** ** Data model *)

Definition Txid := string.
Definition Address := string.

Definition TX_HEIGHT_LOCAL : Z := -2.
Definition TX_HEIGHT_UNCONF_PARENT : Z := -1.
Definition TX_HEIGHT_UNCONFIRMED : Z := 0.

(** [bitcoin.COINBASE_MATURITY] *)
Definition COINBASE_MATURITY : Z := 100.

(** [util.TxMinedInfo]: only [height] is mandatory. *)
Record TxMinedInfo := mkTxMinedInfo {
  height : Z;
  conf : option Z;
  timestamp : option Z;
  txpos : option Z;
  header_hash : option string
}.

(** A transaction input, the dictionary produced by the transaction parser. *)
Record TxInput := mkTxInput {
  txin_type : string;
  prevout_hash : Txid;
  prevout_n : Z;
  txin_address : option Address
}.

Inductive output_type := TYPE_ADDRESS | TYPE_PUBKEY | TYPE_SCRIPT.

(** [transaction.TxOutput], a named tuple [(type, address, value)]. *)
Record TxOutput := mkTxOutput {
  type : output_type;
  address : string;
  value : Z
}.

(** [transaction.Transaction], with the attribute [_cached_fee] that
    [get_tx_fee] attaches to the object ([None] when the attribute is absent). *)
Record Transaction := mkTransaction {
  inputs : list TxInput;
  outputs : list TxOutput;
  raw : string;
  is_complete : bool;
  txid : Txid;
  _cached_fee : option Z
}.

(** What [omni_txdata] stores for a transaction; [None] is the empty record. *)
Record OmniTxData := mkOmniTxData {
  amount : Z;
  sender : string;
  reference : string;
  name : string
}.

Definition txi_t := dict Txid (dict Address (set (string * Z))).
Definition txo_t := dict Txid (dict Address (list (Z * Z * bool))).
Definition spent_outpoints_t := dict Txid (dict Z Txid).
Definition history_t := dict Address (list (Txid * Z)).

(** The blobs [save_transactions] puts into the wallet storage. *)
Record WalletStorage := mkWalletStorage {
  st_transactions : dict Txid string;
  st_txi : txi_t;
  st_txo : txo_t;
  st_omni_tx : dict Txid (option OmniTxData);
  st_tx_fees : dict Txid Z;
  st_addr_history : history_t;
  st_spent_outpoints : spent_outpoints_t
}.

(** The engine.  [verifier] is [None] before [start_network]; otherwise it
    holds the txids whose proof the SPV verifier was told to release
    ([remove_spv_proof_for_tx]), oldest first.  [network_callbacks] logs the
    ['verified'] callbacks, [local_height] is what [get_local_height]
    answers. *)
Record AddressSynchronizer := mkAddressSynchronizer {
  history : history_t;
  verified_tx : dict Txid TxMinedInfo;
  unverified_tx : dict Txid Z;
  transactions : dict Txid Transaction;
  txi : txi_t;
  txo : txo_t;
  tx_fees : dict Txid Z;
  spent_outpoints : spent_outpoints_t;
  _history_local : dict Address (set Txid);
  omni : bool;
  omni_host : string;
  omni_tx : dict Txid (option OmniTxData);
  verifier : option (list Txid);
  network_callbacks : list (Txid * TxMinedInfo);
  local_height : Z;
  storage : WalletStorage
}.

Definition with_history (s : AddressSynchronizer) x :=
  mkAddressSynchronizer x (verified_tx s) (unverified_tx s) (transactions s) (txi s)
    (txo s) (tx_fees s) (spent_outpoints s) (_history_local s) (omni s) (omni_host s)
    (omni_tx s) (verifier s) (network_callbacks s) (local_height s) (storage s).
Definition with_verified_tx (s : AddressSynchronizer) x :=
  mkAddressSynchronizer (history s) x (unverified_tx s) (transactions s) (txi s)
    (txo s) (tx_fees s) (spent_outpoints s) (_history_local s) (omni s) (omni_host s)
    (omni_tx s) (verifier s) (network_callbacks s) (local_height s) (storage s).
Definition with_unverified_tx (s : AddressSynchronizer) x :=
  mkAddressSynchronizer (history s) (verified_tx s) x (transactions s) (txi s)
    (txo s) (tx_fees s) (spent_outpoints s) (_history_local s) (omni s) (omni_host s)
    (omni_tx s) (verifier s) (network_callbacks s) (local_height s) (storage s).
Definition with_transactions (s : AddressSynchronizer) x :=
  mkAddressSynchronizer (history s) (verified_tx s) (unverified_tx s) x (txi s)
    (txo s) (tx_fees s) (spent_outpoints s) (_history_local s) (omni s) (omni_host s)
    (omni_tx s) (verifier s) (network_callbacks s) (local_height s) (storage s).
Definition with_txi (s : AddressSynchronizer) x :=
  mkAddressSynchronizer (history s) (verified_tx s) (unverified_tx s) (transactions s) x
    (txo s) (tx_fees s) (spent_outpoints s) (_history_local s) (omni s) (omni_host s)
    (omni_tx s) (verifier s) (network_callbacks s) (local_height s) (storage s).
Definition with_txo (s : AddressSynchronizer) x :=
  mkAddressSynchronizer (history s) (verified_tx s) (unverified_tx s) (transactions s) (txi s)
    x (tx_fees s) (spent_outpoints s) (_history_local s) (omni s) (omni_host s)
    (omni_tx s) (verifier s) (network_callbacks s) (local_height s) (storage s).
Definition with_tx_fees (s : AddressSynchronizer) x :=
  mkAddressSynchronizer (history s) (verified_tx s) (unverified_tx s) (transactions s) (txi s)
    (txo s) x (spent_outpoints s) (_history_local s) (omni s) (omni_host s)
    (omni_tx s) (verifier s) (network_callbacks s) (local_height s) (storage s).
Definition with_spent_outpoints (s : AddressSynchronizer) x :=
  mkAddressSynchronizer (history s) (verified_tx s) (unverified_tx s) (transactions s) (txi s)
    (txo s) (tx_fees s) x (_history_local s) (omni s) (omni_host s)
    (omni_tx s) (verifier s) (network_callbacks s) (local_height s) (storage s).
Definition with_history_local (s : AddressSynchronizer) x :=
  mkAddressSynchronizer (history s) (verified_tx s) (unverified_tx s) (transactions s) (txi s)
    (txo s) (tx_fees s) (spent_outpoints s) x (omni s) (omni_host s)
    (omni_tx s) (verifier s) (network_callbacks s) (local_height s) (storage s).
Definition with_omni_tx (s : AddressSynchronizer) x :=
  mkAddressSynchronizer (history s) (verified_tx s) (unverified_tx s) (transactions s) (txi s)
    (txo s) (tx_fees s) (spent_outpoints s) (_history_local s) (omni s) (omni_host s)
    x (verifier s) (network_callbacks s) (local_height s) (storage s).
Definition with_verifier (s : AddressSynchronizer) x :=
  mkAddressSynchronizer (history s) (verified_tx s) (unverified_tx s) (transactions s) (txi s)
    (txo s) (tx_fees s) (spent_outpoints s) (_history_local s) (omni s) (omni_host s)
    (omni_tx s) x (network_callbacks s) (local_height s) (storage s).
Definition with_network_callbacks (s : AddressSynchronizer) x :=
  mkAddressSynchronizer (history s) (verified_tx s) (unverified_tx s) (transactions s) (txi s)
    (txo s) (tx_fees s) (spent_outpoints s) (_history_local s) (omni s) (omni_host s)
    (omni_tx s) (verifier s) x (local_height s) (storage s).
Definition with_storage (s : AddressSynchronizer) x :=
  mkAddressSynchronizer (history s) (verified_tx s) (unverified_tx s) (transactions s) (txi s)
    (txo s) (tx_fees s) (spent_outpoints s) (_history_local s) (omni s) (omni_host s)
    (omni_tx s) (verifier s) (network_callbacks s) (local_height s) x.

(** ** Exceptions and results *)

Inductive exn :=
| AssertionError
| IndexError
| RuntimeError
| UnrelatedTransactionException
| Exception (msg : string).

(** What a call that may raise leaves behind: the value and the engine after
    a normal return, or the exception and the engine as it was when the
    exception left the call.  [OutOfFuel] belongs to the model only: the
    recursion of [get_depending_transactions] is bounded by a fuel. *)
Inductive outcome (A : Type) :=
| Ret (a : A) (s : AddressSynchronizer)
| Raise (e : exn) (s : AddressSynchronizer)
| OutOfFuel.
Arguments Ret {A} a s.
Arguments Raise {A} e s.
Arguments OutOfFuel {A}.

Definition bind {A B : Type} (m : outcome A) (k : A -> AddressSynchronizer -> outcome B)
  : outcome B :=
  match m with
  | Ret a s => k a s
  | Raise e s => Raise e s
  | OutOfFuel => OutOfFuel
  end.

Notation "' x , s <- m ;; k" := (bind m (fun x s => k))
  (at level 61, x pattern, s name, m at next level, right associativity).

(** [for x in l: body(x)], stopping at the first exception. *)
Fixpoint for_each {A : Type} (body : A -> AddressSynchronizer -> outcome unit)
    (l : list A) (s : AddressSynchronizer) : outcome unit :=
  match l with
  | [] => Ret tt s
  | x :: l' => ' _, s1 <- body x s ;; for_each body l' s1
  end.

(** Truth value of a string: the empty string is false. *)
Definition truthy (a : string) : bool := negb (String.eqb a "").

(** ['%d' % n] *)
Definition fmt_d (n : Z) : string := DecimalString.NilZero.string_of_int (Z.to_int n).

(** [prevout_hash + ':%d' % prevout_n] *)
Definition outpoint_ser (h : Txid) (n : Z) : string := (h ++ ":" ++ fmt_d n)%string.

(** Python sets over a type with decidable equality. *)
Definition sadd {A : Type} `{EqDec A} (x : A) (X : set A) : set A := set_add eq_dec x X.
Definition smem {A : Type} `{EqDec A} (x : A) (X : set A) : bool := set_mem eq_dec x X.
Definition sremove {A : Type} `{EqDec A} (x : A) (X : set A) : set A := set_remove eq_dec x X.
Definition sunion {A : Type} `{EqDec A} (X Y : set A) : set A := set_union eq_dec X Y.

(** [set(l)] *)
Definition set_of_list {A : Type} `{EqDec A} (l : list A) : set A :=
  fold_left (fun X x => sadd x X) l [].

(** ** The [defaultdict(dict)] behind [spent_outpoints]

    Reading [self.spent_outpoints[h]] of a missing key stores an empty
    dictionary under [h] first. *)

Definition so_touch (h : Txid) (so : spent_outpoints_t) : spent_outpoints_t :=
  if dmem h so then so else so ++ [(h, [])].

Definition so_sub (h : Txid) (so : spent_outpoints_t) : dict Z Txid :=
  match dget h so with Some d => d | None => [] end.

(** The spender the index records for an outpoint, if any. *)
Definition so_lookup (h : Txid) (n : Z) (so : spent_outpoints_t) : option Txid :=
  dget n (so_sub h so).

(** [self.spent_outpoints[h][n] = spender] *)
Definition so_set (h : Txid) (n : Z) (spender : Txid) (so : spent_outpoints_t)
  : spent_outpoints_t :=
  let so1 := so_touch h so in
  dset h (dset n spender (so_sub h so1)) so1.

(** [self.spent_outpoints[h].pop(n, None)] followed by
    [if not self.spent_outpoints[h]: self.spent_outpoints.pop(h)] *)
Definition so_pop_outpoint (h : Txid) (n : Z) (so : spent_outpoints_t)
  : spent_outpoints_t :=
  let so1 := so_touch h so in
  let d := dpop n (so_sub h so1) in
  let so2 := dset h d so1 in
  match d with
  | [] => dpop h so2
  | _ :: _ => so2
  end.

(** [if not self.spent_outpoints[h]: self.spent_outpoints.pop(h)] *)
Definition so_drop_if_empty (h : Txid) (so : spent_outpoints_t) : spent_outpoints_t :=
  let so1 := so_touch h so in
  match so_sub h so1 with
  | [] => dpop h so1
  | _ :: _ => so1
  end.

Definition is_coinbase_input (txin : TxInput) : bool :=
  String.eqb (txin_type txin) "coinbase".

Section Engine.

(** Collaborators that live outside this module. *)

(** [bitcoin.public_key_to_p2pkh(bfh(pubkey_hex))] *)
Variable public_key_to_p2pkh : string -> string.

(** Block headers and [blockchain.hash_header]. *)
Variable header : Type.
Variable hash_header : header -> string.

(** The token daemon: [decodeTransaction] answers with
    [(txid, amount, sendingaddress, referenceaddress, propertyid)], or fails;
    [getProperty] answers with the name of a property, or fails. *)
Variable omni_decodeTransaction : string -> option (Txid * Z * string * string * Z).
Variable omni_getProperty : Z -> option string.

(** A chain object, seen through [read_header]. *)
Definition Blockchain := Z -> option header.

Implicit Types (s : AddressSynchronizer) (tx : Transaction) (tx_hash : Txid).

(** *** Basic accessors *)

Definition is_mine s (addr : option Address) : bool :=
  match addr with
  | Some a => dmem a (history s)
  | None => false
  end.

Definition get_local_height s : Z := local_height s.

Definition get_tx_height s tx_hash : TxMinedInfo :=
  match dget tx_hash (verified_tx s) with
  | Some info =>
      mkTxMinedInfo (height info)
        (Some (Z.max (get_local_height s - height info + 1) 0))
        (timestamp info) (txpos info) (header_hash info)
  | None =>
      match dget tx_hash (unverified_tx s) with
      | Some h => mkTxMinedInfo h (Some 0) None None None
      | None => mkTxMinedInfo TX_HEIGHT_LOCAL (Some 0) None None None
      end
  end.

Definition get_address_history s (addr : Address) : list (Txid * Z) :=
  let related_txns := match dget addr (_history_local s) with Some X => X | None => [] end in
  map (fun tx_hash => (tx_hash, height (get_tx_height s tx_hash))) related_txns.

(** The first output numbered [n] among the wallet outputs of a transaction,
    walking the addresses and then the outputs of each in order: its address
    and value. *)
Fixpoint find_prevout (dd : dict Address (list (Z * Z * bool))) (n : Z)
  : option (Address * Z) :=
  match dd with
  | [] => None
  | (addr, l) :: dd' =>
      match find (fun o => Z.eqb (fst (fst o)) n) l with
      | Some o => Some (addr, snd (fst o))
      | None => find_prevout dd' n
      end
  end.

Definition txo_of s (h : Txid) : dict Address (list (Z * Z * bool)) :=
  match dget h (txo s) with Some dd => dd | None => [] end.

Definition txi_of s (h : Txid) : dict Address (set (string * Z)) :=
  match dget h (txi s) with Some dd => dd | None => [] end.

Definition get_txin_address s (txin : TxInput) : option Address :=
  match txin_address txin with
  | Some addr =>
      if truthy addr && negb (String.eqb addr "(pubkey)") then Some addr
      else option_map fst (find_prevout (txo_of s (prevout_hash txin)) (prevout_n txin))
  | None => option_map fst (find_prevout (txo_of s (prevout_hash txin)) (prevout_n txin))
  end.

Definition get_txout_address (o : TxOutput) : option Address :=
  match type o with
  | TYPE_ADDRESS => Some (address o)
  | TYPE_PUBKEY => Some (public_key_to_p2pkh (address o))
  | TYPE_SCRIPT => None
  end.

(** *** Local history *)

Definition local_history_keys s (txid0 : Txid) : list Address :=
  dkeys (txi_of s txid0) ++ dkeys (txo_of s txid0).

Definition _add_tx_to_local_history (txid0 : Txid) s : AddressSynchronizer :=
  fold_left
    (fun s1 addr =>
       let cur_hist := match dget addr (_history_local s1) with Some X => X | None => [] end in
       with_history_local s1 (dset addr (sadd txid0 cur_hist) (_history_local s1)))
    (local_history_keys s txid0) s.

Definition _remove_tx_from_local_history (txid0 : Txid) s : AddressSynchronizer :=
  fold_left
    (fun s1 addr =>
       match dget addr (_history_local s1) with
       | Some cur_hist =>
           if smem txid0 cur_hist
           then with_history_local s1 (dset addr (sremove txid0 cur_hist) (_history_local s1))
           else s1
       | None => s1
       end)
    (local_history_keys s txid0) s.

(** *** Verification coordinator *)

Definition remove_spv_proof_for_tx tx_hash s : AddressSynchronizer :=
  match verifier s with
  | Some released => with_verifier s (Some (released ++ [tx_hash]))
  | None => s
  end.

Definition add_unverified_tx tx_hash (tx_height : Z) s : AddressSynchronizer :=
  if dmem tx_hash (verified_tx s) then
    if Z.eqb tx_height TX_HEIGHT_UNCONFIRMED || Z.eqb tx_height TX_HEIGHT_UNCONF_PARENT
    then remove_spv_proof_for_tx tx_hash
           (with_verified_tx s (dpop tx_hash (verified_tx s)))
    else s
  else with_unverified_tx s (dset tx_hash tx_height (unverified_tx s)).

Definition remove_unverified_tx tx_hash (tx_height : Z) s : AddressSynchronizer :=
  match dget tx_hash (unverified_tx s) with
  | Some new_height =>
      if Z.eqb new_height tx_height
      then with_unverified_tx s (dpop tx_hash (unverified_tx s))
      else s
  | None => s
  end.

Definition add_verified_tx tx_hash (info : TxMinedInfo) s : AddressSynchronizer :=
  let s1 := with_unverified_tx s (dpop tx_hash (unverified_tx s)) in
  let s2 := with_verified_tx s1 (dset tx_hash info (verified_tx s1)) in
  with_network_callbacks s2 (network_callbacks s2 ++ [(tx_hash, get_tx_height s2 tx_hash)]).

(** [not header or hash_header(header) != info.header_hash] *)
Definition header_mismatch (hd : option header) (info : TxMinedInfo) : bool :=
  match hd with
  | None => true
  | Some hdr =>
      match header_hash info with
      | Some hh => negb (String.eqb (hash_header hdr) hh)
      | None => true
      end
  end.

(** One round of the loop of [undo_verifications]. *)
Definition undo_verification_step (blockchain : Blockchain) (reorg_height : Z)
    (acc : set Txid * AddressSynchronizer) (item : Txid * TxMinedInfo)
  : set Txid * AddressSynchronizer :=
  let '(txs, s) := acc in
  let '(tx_hash, info) := item in
  let tx_height := height info in
  if Z.geb tx_height reorg_height then
    if header_mismatch (blockchain tx_height) info then
      let s1 := with_verified_tx s (dpop tx_hash (verified_tx s)) in
      let s2 := with_unverified_tx s1 (dset tx_hash tx_height (unverified_tx s1)) in
      (sadd tx_hash txs, s2)
    else (txs, s)
  else (txs, s).

Definition undo_verifications (blockchain : Blockchain) (reorg_height : Z) s
  : set Txid * AddressSynchronizer :=
  fold_left (undo_verification_step blockchain reorg_height) (verified_tx s) ([], s).

(** *** Ingest engine *)

(** The loop of [get_conflicting_transactions]. *)
Fixpoint conflicting_loop (ins : list TxInput) (conflicting_txns : set Txid) s
  : outcome (set Txid) :=
  match ins with
  | [] => Ret conflicting_txns s
  | txin :: rest =>
      if is_coinbase_input txin then conflicting_loop rest conflicting_txns s
      else
        let s1 := with_spent_outpoints s
                    (so_touch (prevout_hash txin) (spent_outpoints s)) in
        match so_lookup (prevout_hash txin) (prevout_n txin) (spent_outpoints s) with
        | None => conflicting_loop rest conflicting_txns s1
        | Some spending_tx_hash =>
            if dmem spending_tx_hash (transactions s1)
            then conflicting_loop rest (sadd spending_tx_hash conflicting_txns) s1
            else Raise AssertionError s1
        end
  end.

Definition get_conflicting_transactions tx_hash tx s : outcome (set Txid) :=
  ' conflicting_txns, s1 <- conflicting_loop (inputs tx) [] s ;;
  if smem tx_hash conflicting_txns then
    if Nat.ltb 1 (length conflicting_txns)
    then Raise (Exception "Found conflicting transactions already in wallet history.") s1
    else Ret (sremove tx_hash conflicting_txns) s1
  else Ret conflicting_txns s1.

(** [get_depending_transactions]; the recursion follows [spent_outpoints]
    and is bounded by [fuel]. *)
Definition depending_step (recurse : Txid -> AddressSynchronizer -> outcome (set Txid))
    (acc : outcome (set Txid)) (other_hash : Txid) : outcome (set Txid) :=
  ' children, s1 <- acc ;;
  ' sub, s2 <- recurse other_hash s1 ;;
  Ret (sunion (sadd other_hash children) sub) s2.

Fixpoint get_depending_transactions (fuel : nat) tx_hash s : outcome (set Txid) :=
  match fuel with
  | O => OutOfFuel
  | S fuel' =>
      fold_left (depending_step (get_depending_transactions fuel'))
        (map snd (so_sub tx_hash (spent_outpoints s)))
        (Ret [] (with_spent_outpoints s (so_touch tx_hash (spent_outpoints s))))
  end.

(** The first outpoint, in the order of the dictionaries, that
    [spent_outpoints] records as spent by [tx_hash]. *)
Fixpoint find_spend tx_hash (so : spent_outpoints_t) : option (Txid * Z) :=
  match so with
  | [] => None
  | (h, d) :: so' =>
      match find (fun e => String.eqb (snd e) tx_hash) d with
      | Some e => Some (h, fst e)
      | None => find_spend tx_hash so'
      end
  end.

(** The known-transaction branch of [remove_from_spent_outpoints]. *)
Definition unspend_inputs tx (so : spent_outpoints_t) : spent_outpoints_t :=
  fold_left
    (fun so1 txin =>
       if is_coinbase_input txin then so1
       else so_pop_outpoint (prevout_hash txin) (prevout_n txin) so1)
    (inputs tx) so.

(** [remove_transaction] after [remove_from_spent_outpoints] went through
    its loop. *)
Definition remove_transaction_finish tx_hash s : AddressSynchronizer :=
  let s2 := with_spent_outpoints s (so_drop_if_empty tx_hash (spent_outpoints s)) in
  let s3 := _remove_tx_from_local_history tx_hash s2 in
  let s4 := with_txi s3 (dpop tx_hash (txi s3)) in
  with_txo s4 (dpop tx_hash (txo s4)).

(** [remove_transaction].  When the transaction is not in [transactions],
    the fallback loop pops from the dictionary it is iterating over: the
    iteration after the first hit raises [RuntimeError]. *)
Definition remove_transaction tx_hash s : outcome unit :=
  let s1 := with_transactions s (dpop tx_hash (transactions s)) in
  match dget tx_hash (transactions s) with
  | Some tx =>
      Ret tt (remove_transaction_finish tx_hash
                (with_spent_outpoints s1 (unspend_inputs tx (spent_outpoints s1))))
  | None =>
      match find_spend tx_hash (spent_outpoints s1) with
      | Some (h, n) =>
          Raise RuntimeError
            (with_spent_outpoints s1 (so_pop_outpoint h n (spent_outpoints s1)))
      | None => Ret tt (remove_transaction_finish tx_hash s1)
      end
  end.

(** [omni_getname] *)
Definition omni_getname (property_id : Z) : string :=
  match omni_getProperty property_id with
  | Some n => n
  | None => ("token_" ++ fmt_d property_id)%string
  end.

(** [omni_txdata], for an engine whose token attributes are set. *)
Definition omni_txdata s tx_hash (rawtx : string) : option OmniTxData :=
  if String.eqb (omni_host s) "" then None
  else
    match omni_decodeTransaction rawtx with
    | Some (res_txid, res_amount, res_sender, res_reference, res_property) =>
        if String.eqb res_txid tx_hash
        then Some (mkOmniTxData res_amount res_sender res_reference
                     (omni_getname res_property))
        else None
    | None => None
    end.

(** [d[addr].add((ser, v))] on [d = self.txi[tx_hash]], creating the set. *)
Definition txi_add tx_hash (addr : Address) (e : string * Z) (m : txi_t) : txi_t :=
  let d := match dget tx_hash m with Some d => d | None => [] end in
  let cur := match dget addr d with Some X => X | None => [] end in
  dset tx_hash (dset addr (sadd e cur) d) m.

(** [d[addr].append((n, v, is_coinbase))] on [d = self.txo[tx_hash]]. *)
Definition txo_append tx_hash (addr : Address) (e : Z * Z * bool) (m : txo_t) : txo_t :=
  let d := match dget tx_hash m with Some d => d | None => [] end in
  let cur := match dget addr d with Some l => l | None => [] end in
  dset tx_hash (dset addr (cur ++ [e]) d) m.

(** One input of the "add inputs" loop, with [add_value_from_prev_output]. *)
Definition add_input tx_hash s (txin : TxInput) : AddressSynchronizer :=
  if is_coinbase_input txin then s
  else
    let ser := outpoint_ser (prevout_hash txin) (prevout_n txin) in
    let s1 := with_spent_outpoints s
                (so_set (prevout_hash txin) (prevout_n txin) tx_hash (spent_outpoints s)) in
    match find_prevout (txo_of s1 (prevout_hash txin)) (prevout_n txin) with
    | Some (addr, v) =>
        if truthy addr && is_mine s1 (Some addr)
        then with_txi s1 (txi_add tx_hash addr (ser, v) (txi s1))
        else s1
    | None => s1
    end.

(** "give v to txi that spends me" *)
Definition give_value_to_spender tx_hash (n : Z) (addr : Address) (v : Z) s
  : AddressSynchronizer :=
  let ser := outpoint_ser tx_hash n in
  let s1 := with_spent_outpoints s (so_touch tx_hash (spent_outpoints s)) in
  match so_lookup tx_hash n (spent_outpoints s) with
  | Some next_tx =>
      let s2 :=
        match dget next_tx (txi s1) with
        | Some dd =>
            let cur := match dget addr dd with Some X => X | None => [] end in
            with_txi s1 (dset next_tx (dset addr (sadd (ser, v) cur) dd) (txi s1))
        | None => s1
        end in
      _add_tx_to_local_history next_tx s2
  | None => s1
  end.

(** One output of the "add outputs" loop. *)
Definition add_output tx_hash (is_coinbase : bool) s (n : Z) (o : TxOutput)
  : AddressSynchronizer :=
  match get_txout_address o with
  | Some addr =>
      if truthy addr && is_mine s (Some addr) then
        let s1 := with_txo s (txo_append tx_hash addr (n, value o, is_coinbase) (txo s)) in
        give_value_to_spender tx_hash n addr (value o) s1
      else s
  | None => s
  end.

(** [for n, txo in enumerate(tx.outputs())], counting from [n]. *)
Fixpoint add_outputs tx_hash (is_coinbase : bool) (n : Z) (outs : list TxOutput) s
  : AddressSynchronizer :=
  match outs with
  | [] => s
  | o :: outs' => add_outputs tx_hash is_coinbase (n + 1) outs' (add_output tx_hash is_coinbase s n o)
  end.

(** [add_transaction] from "add inputs" to the end. *)
Definition index_transaction tx_hash tx (is_coinbase : bool) s : AddressSynchronizer :=
  let s1 := with_txi s (dset tx_hash [] (txi s)) in
  let s2 := fold_left (add_input tx_hash) (inputs tx) s1 in
  let s3 := with_txo s2 (dset tx_hash [] (txo s2)) in
  let s4 := add_outputs tx_hash is_coinbase 0 (outputs tx) s3 in
  let s5 := if String.eqb (omni_host s4) "" then s4
            else with_omni_tx s4 (dset tx_hash (omni_txdata s4 tx_hash (raw tx)) (omni_tx s4)) in
  let s6 := _add_tx_to_local_history tx_hash s5 in
  with_transactions s6 (dset tx_hash tx (transactions s6)).

Definition is_mempool_height (h : Z) : bool :=
  Z.eqb h TX_HEIGHT_UNCONFIRMED || Z.eqb h TX_HEIGHT_UNCONF_PARENT.

(** [to_remove]: the conflicting transactions and what depends on them. *)
Definition collect_step (fuel : nat) (acc : outcome (set Txid))
    (conflicting_tx_hash : Txid) : outcome (set Txid) :=
  ' to_remove, s1 <- acc ;;
  ' deps, s2 <- get_depending_transactions fuel conflicting_tx_hash s1 ;;
  Ret (sunion to_remove deps) s2.

Definition collect_to_remove (fuel : nat) (conflicting_txns : set Txid) s
  : outcome (set Txid) :=
  fold_left (collect_step fuel) conflicting_txns (Ret (sunion [] conflicting_txns) s).

(** [tx.inputs()[0]['type'] == 'coinbase'], for a transaction with inputs. *)
Definition first_input_is_coinbase tx : bool :=
  match inputs tx with
  | txin0 :: _ => is_coinbase_input txin0
  | [] => false
  end.

(** [add_transaction] from "Find all conflicting transactions" on. *)
Definition resolve_conflicts_and_index (fuel : nat) tx_hash tx (tx_height : Z) s
  : outcome bool :=
  let is_coinbase := first_input_is_coinbase tx in
  ' conflicting_txns, s1 <- get_conflicting_transactions tx_hash tx s ;;
  match conflicting_txns with
  | [] => Ret true (index_transaction tx_hash tx is_coinbase s1)
  | _ :: _ =>
      let existing_mempool_txn :=
        existsb (fun tx_hash2 => is_mempool_height (height (get_tx_height s1 tx_hash2)))
          conflicting_txns in
      let existing_confirmed_txn :=
        existsb (fun tx_hash2 => Z.ltb 0 (height (get_tx_height s1 tx_hash2)))
          conflicting_txns in
      if existing_confirmed_txn && Z.leb tx_height 0 then Ret false s1
      else if existing_mempool_txn && Z.eqb tx_height TX_HEIGHT_LOCAL then Ret false s1
      else
        ' to_remove, s2 <- collect_to_remove fuel conflicting_txns s1 ;;
        ' _, s3 <- for_each remove_transaction to_remove s2 ;;
        Ret true (index_transaction tx_hash tx is_coinbase s3)
  end.

Definition add_transaction (fuel : nat) tx_hash tx (allow_unrelated : bool) s
  : outcome bool :=
  if negb (truthy tx_hash) then Raise AssertionError s
  else if negb (is_complete tx) then Raise AssertionError s
  else
    match inputs tx with
    | [] => Raise IndexError s
    | _ :: _ =>
        let tx_height := height (get_tx_height s tx_hash) in
        let is_mine_ := existsb (fun txin => is_mine s (get_txin_address s txin)) (inputs tx) in
        let is_for_me := existsb (fun o => is_mine s (get_txout_address o)) (outputs tx) in
        if negb allow_unrelated && negb is_mine_ && negb is_for_me
        then Raise UnrelatedTransactionException s
        else resolve_conflicts_and_index fuel tx_hash tx tx_height s
    end.

Definition receive_tx_callback (fuel : nat) tx_hash tx (tx_height : Z) s : outcome unit :=
  ' _, s1 <- add_transaction fuel tx_hash tx true (add_unverified_tx tx_hash tx_height s) ;;
  Ret tt s1.

(** The block of [receive_history_callback] that runs under the lock. *)
Definition forget_retracted (addr : Address) (hist : list (Txid * Z)) s
  : AddressSynchronizer :=
  let old_hist := get_address_history s addr in
  let s1 :=
    fold_left
      (fun s0 (e : Txid * Z) =>
         if existsb (eqb_of e) hist then s0
         else
           let s01 := with_unverified_tx s0 (dpop (fst e) (unverified_tx s0)) in
           let s02 := with_verified_tx s01 (dpop (fst e) (verified_tx s01)) in
           remove_spv_proof_for_tx (fst e) s02)
      old_hist s in
  with_history s1 (dset addr hist (history s1)).

Definition receive_history_callback (fuel : nat) (addr : Address)
    (hist : list (Txid * Z)) (fees : dict Txid Z) s : outcome unit :=
  ' _, s2 <-
    for_each
      (fun (e : Txid * Z) s0 =>
         let s01 := add_unverified_tx (fst e) (snd e) s0 in
         match dget (fst e) (transactions s01) with
         | None => Ret tt s01
         | Some tx => ' _, s02 <- add_transaction fuel (fst e) tx true s01 ;; Ret tt s02
         end)
      hist (forget_retracted addr hist s) ;;
  Ret tt (with_tx_fees s2
            (fold_left (fun m (kv : Txid * Z) => dset (fst kv) (snd kv) m) fees (tx_fees s2))).

(** *** Persistence *)

(** What [save_transactions] would write for the engine as it stands. *)
Definition serialized s : WalletStorage :=
  mkWalletStorage
    (map (fun kv : Txid * Transaction => (fst kv, raw (snd kv))) (transactions s))
    (txi s) (txo s)
    (if String.eqb (omni_host s) "" then st_omni_tx (storage s) else omni_tx s)
    (tx_fees s) (history s) (spent_outpoints s).

Definition save_transactions s : AddressSynchronizer := with_storage s (serialized s).

Definition clear_history s : AddressSynchronizer :=
  let s1 := with_txi s [] in
  let s2 := with_txo s1 [] in
  let s3 := with_tx_fees s2 [] in
  let s4 := with_spent_outpoints s3 [] in
  let s5 := with_history s4 [] in
  let s6 := with_verified_tx s5 [] in
  let s7 := with_transactions s6 [] in
  save_transactions s7.

(** *** Query engine *)

Definition get_tx_delta s tx_hash (addr : Address) : Z :=
  let d_in := match dget addr (txi_of s tx_hash) with Some X => X | None => [] end in
  let delta := fold_left (fun delta (e : string * Z) => delta - snd e) d_in 0 in
  let d_out := match dget addr (txo_of s tx_hash) with Some l => l | None => [] end in
  fold_left (fun delta (e : Z * Z * bool) => delta + snd (fst e)) d_out delta.

(** The [for ... else] of [get_wallet_delta]: the value of the output
    numbered [prevout_n] that [addr] received in the previous transaction. *)
Definition prev_output_value s (txin : TxInput) (addr : Address) : option Z :=
  let d := match dget addr (txo_of s (prevout_hash txin)) with Some l => l | None => [] end in
  option_map (fun o : Z * Z * bool => snd (fst o))
    (find (fun o : Z * Z * bool => Z.eqb (fst (fst o)) (prevout_n txin)) d).

(** The flags and the sum that the input loop of [get_wallet_delta] carries. *)
Record delta_acc := mkDeltaAcc {
  acc_is_relevant : bool;
  acc_is_mine : bool;
  acc_is_pruned : bool;
  acc_is_partial : bool;
  acc_v_in : Z
}.

Definition wallet_delta_input s (a : delta_acc) (txin : TxInput) : delta_acc :=
  match get_txin_address s txin with
  | Some addr =>
      if is_mine s (Some addr) then
        match prev_output_value s txin addr with
        | None => mkDeltaAcc true true true (acc_is_partial a) (acc_v_in a)
        | Some v => mkDeltaAcc true true (acc_is_pruned a) (acc_is_partial a) (acc_v_in a + v)
        end
      else mkDeltaAcc (acc_is_relevant a) (acc_is_mine a) (acc_is_pruned a) true (acc_v_in a)
  | None => mkDeltaAcc (acc_is_relevant a) (acc_is_mine a) (acc_is_pruned a) true (acc_v_in a)
  end.

Definition wallet_delta_output s (a : bool * Z * Z) (o : TxOutput) : bool * Z * Z :=
  let '(is_relevant, v_out, v_out_mine) := a in
  if is_mine s (Some (address o))
  then (true, v_out + value o, v_out_mine + value o)
  else (is_relevant, v_out + value o, v_out_mine).

Definition get_wallet_delta s tx : bool * bool * Z * option Z :=
  let a := fold_left (wallet_delta_input s) (inputs tx) (mkDeltaAcc false false false false 0) in
  let is_mine_ := acc_is_mine a in
  let is_partial := if is_mine_ then acc_is_partial a else false in
  let '(is_relevant, v_out, v_out_mine) :=
    fold_left (wallet_delta_output s) (outputs tx) (acc_is_relevant a, 0, 0) in
  let '(v, fee) :=
    if acc_is_pruned a then
      (if is_mine_ then v_out_mine - v_out else v_out_mine, None)
    else
      (v_out_mine - acc_v_in a, if is_partial then None else Some (acc_v_in a - v_out)) in
  (is_relevant, is_mine_, v, if is_mine_ then fee else None).

(** [get_tx_fee]: the fee, and the transaction object as the call leaves it. *)
Definition get_tx_fee s (otx : option Transaction) : option Z * option Transaction :=
  match otx with
  | None => (None, None)
  | Some tx =>
      match _cached_fee tx with
      | Some fee => (Some fee, Some tx)
      | None =>
          let '(_, _, _, fee0) := get_wallet_delta s tx in
          let fee := match fee0 with Some f => Some f | None => dget (txid tx) (tx_fees s) end in
          match fee with
          | Some f =>
              (Some f, Some (mkTransaction (inputs tx) (outputs tx) (raw tx)
                               (is_complete tx) (txid tx) (Some f)))
          | None => (None, Some tx)
          end
      end
  end.

Definition get_addr_io s (addr : Address)
  : dict string (Z * Z * bool) * dict string Z :=
  let h := get_address_history s addr in
  let received :=
    fold_left
      (fun received (e : Txid * Z) =>
         let l := match dget addr (txo_of s (fst e)) with Some l => l | None => [] end in
         fold_left
           (fun received (o : Z * Z * bool) =>
              dset (outpoint_ser (fst e) (fst (fst o))) (snd e, snd (fst o), snd o) received)
           l received)
      h [] in
  let sent :=
    fold_left
      (fun sent (e : Txid * Z) =>
         let l := match dget addr (txi_of s (fst e)) with Some X => X | None => [] end in
         fold_left (fun sent (i : string * Z) => dset (fst i) (snd e) sent) l sent)
      h [] in
  (received, sent).

Definition get_addr_balance s (addr : Address) : Z * Z * Z :=
  let '(received, sent) := get_addr_io s addr in
  let local_height0 := get_local_height s in
  fold_left
    (fun (cux : Z * Z * Z) (r : string * (Z * Z * bool)) =>
       let '(c, u, x) := cux in
       let '(txo0, (tx_height, v, is_cb)) := r in
       let '(c, u, x) :=
         if is_cb && Z.ltb local_height0 (tx_height + COINBASE_MATURITY) then (c, u, x + v)
         else if Z.ltb 0 tx_height then (c + v, u, x)
         else (c, u + v, x) in
       match dget txo0 sent with
       | Some sent_height => if Z.ltb 0 sent_height then (c - v, u, x) else (c, u - v, x)
       | None => (c, u, x)
       end)
    received (0, 0, 0).

(** [get_balance] over [set(domain)]. *)
Definition get_balance s (domain : set Address) : Z * Z * Z :=
  fold_left
    (fun (acc : Z * Z * Z) addr =>
       let '(cc, uu, xx) := acc in
       let '(c, u, x) := get_addr_balance s addr in
       (cc + c, uu + u, xx + x))
    domain (0, 0, 0).

(** The key [get_txpos] sorts by.  The floats [1e9 - height] and [1e9 + 1]
    are whole numbers and are written as integers. *)
Definition txpos_key := (Z * option Z)%type.

Definition get_txpos s tx_hash : txpos_key :=
  match dget tx_hash (verified_tx s) with
  | Some info => (height info, txpos info)
  | None =>
      match dget tx_hash (unverified_tx s) with
      | Some h => if Z.ltb 0 h then (h, Some 0) else (1000000000 - h, Some 0)
      | None => (1000000001, Some 0)
      end
  end.

(** An exception of [history.sort]. *)
Inductive sort_error :=
| TypeError.

(** Python's [<] on the second components of two keys whose first components
    are equal: [None == None], two integers compare as integers, and
    [None < 0] or [0 < None] raises [TypeError]. *)
Definition opt_lt (a b : option Z) : option bool :=
  match a, b with
  | Some x, Some y => Some (Z.ltb x y)
  | None, None => Some false
  | _, _ => None
  end.

(** Python's [<] on the keys, which are tuples: the first components that
    differ decide. *)
Definition key_lt (a b : txpos_key) : option bool :=
  if Z.eqb (fst a) (fst b) then opt_lt (snd a) (snd b)
  else Some (Z.ltb (fst a) (fst b)).

(** [l.sort(key=key, reverse=True)]: descending, and stable.  The sort
    compares keys with [<] and raises what a comparison raises.  It is
    written as an insertion sort; a sort by comparisons has to compare two
    keys that nothing else separates, so that whether it raises, and what it
    returns, do not depend on the algorithm ([sort_desc_spec] below). *)
Fixpoint insert_desc {A : Type} (key : A -> txpos_key) (x : A) (l : list A)
  : sort_error + list A :=
  match l with
  | [] => inr [x]
  | y :: l' =>
      match key_lt (key x) (key y) with
      | None => inl TypeError
      | Some false => inr (x :: l)
      | Some true =>
          match insert_desc key x l' with
          | inl e => inl e
          | inr l1 => inr (y :: l1)
          end
      end
  end.

Definition sort_desc {A : Type} (key : A -> txpos_key) (l : list A) : sort_error + list A :=
  fold_right
    (fun x acc =>
       match acc with
       | inl e => inl e
       | inr sorted => insert_desc key x sorted
       end)
    (inr []) l.

Definition get_omni_delta s tx_hash (addr : Address) : Z :=
  match dget tx_hash (omni_tx s) with
  | Some (Some tx_data) =>
      if String.eqb (sender tx_data) addr then - amount tx_data
      else if String.eqb (reference tx_data) addr then amount tx_data
      else 0
  | Some None => 0
  | None => 0
  end.

(** [omni_addr_balance]: the daemon is asked for each address; a failed
    request counts for nothing. *)
Variable omni_getBalance : Address -> option Z.

Definition omni_addr_balance (domain : set Address) : Z :=
  fold_left
    (fun total addr => match omni_getBalance addr with Some b => total + b | None => total end)
    domain 0.

(** [tx_deltas[tx_hash]] of a [defaultdict(int)] *)
Definition deltas_get tx_hash (tx_deltas : dict Txid (option Z)) : option Z :=
  match dget tx_hash tx_deltas with Some d => d | None => Some 0 end.

(** Step 1 of [get_history]: one entry of one address history. *)
Definition accumulate_delta s (addr : Address)
    (acc : dict Txid (option Z) * dict Txid Z) (e : Txid * Z)
  : dict Txid (option Z) * dict Txid Z :=
  let '(tx_deltas, omni_deltas) := acc in
  let tx_hash := fst e in
  let delta : option Z := Some (get_tx_delta s tx_hash addr) in
  let tx_deltas1 :=
    match delta, deltas_get tx_hash tx_deltas with
    | Some d, Some cur => dset tx_hash (Some (cur + d)) tx_deltas
    | _, _ => dset tx_hash None tx_deltas
    end in
  let omni_delta := get_omni_delta s tx_hash addr in
  if Z.eqb omni_delta 0 then (tx_deltas1, omni_deltas)
  else
    let tx_deltas2 :=
      if dmem tx_hash tx_deltas1 then tx_deltas1 else dset tx_hash (Some 0) tx_deltas1 in
    let omni_deltas1 :=
      match dget tx_hash omni_deltas with
      | Some cur => dset tx_hash (cur + omni_delta) omni_deltas
      | None => dset tx_hash omni_delta omni_deltas
      end in
    (tx_deltas2, omni_deltas1).

Definition history_deltas s (domain : set Address) : dict Txid (option Z) * dict Txid Z :=
  fold_left
    (fun acc addr => fold_left (accumulate_delta s addr) (get_address_history s addr) acc)
    domain ([], []).

(** A row before the balances are attached, and a row of the result. *)
Definition history_item := (Txid * TxMinedInfo * option Z * Z)%type.
Definition history_row := (Txid * TxMinedInfo * option Z * option Z * Z * Z)%type.

Definition history_items s (deltas : dict Txid (option Z) * dict Txid Z) : list history_item :=
  map
    (fun kv : Txid * option Z =>
       let omni_delta := match dget (fst kv) (snd deltas) with Some d => d | None => 0 end in
       (fst kv, get_tx_height s (fst kv), snd kv, omni_delta))
    (fst deltas).

Definition item_txid (it : history_item) : Txid := fst (fst (fst it)).
Definition row_txid (r : history_row) : Txid := fst (fst (fst (fst (fst r)))).
Definition row_balance (r : history_row) : option Z := snd (fst (fst r)).

(** Step 3 of [get_history]: the rows, newest first, and the balance left
    when the walk ends. *)
Fixpoint add_balance (items : list history_item) (balance : option Z) (omni_balance : Z)
  : list history_row * option Z :=
  match items with
  | [] => ([], balance)
  | (tx_hash, tx_mined_status, delta, omni_delta) :: rest =>
      let balance1 :=
        match balance, delta with
        | Some b, Some d => Some (b - d)
        | _, _ => None
        end in
      let omni_balance1 :=
        if Z.eqb omni_delta 0 then omni_balance else omni_balance - omni_delta in
      let '(h2, final) := add_balance rest balance1 omni_balance1 in
      ((tx_hash, tx_mined_status, delta, balance, omni_delta, omni_balance) :: h2, final)
  end.

(** [domain = self.history.keys()] when no domain is given. *)
Definition history_domain s (domain : option (list Address)) : list Address :=
  match domain with Some l => l | None => dkeys (history s) end.

(** The walk of [get_history], up to the check of the final balance. *)
Definition history_walk s (domain : option (list Address))
  : sort_error + (list history_row * option Z) :=
  let domain := set_of_list (history_domain s domain) in
  match sort_desc (fun it => get_txpos s (item_txid it))
          (history_items s (history_deltas s domain)) with
  | inl e => inl e
  | inr items =>
      let '(c, u, x) := get_balance s domain in
      let omni_balance := if omni s then omni_addr_balance domain else 0 in
      inr (add_balance items (Some (c + u + x)) omni_balance)
  end.

(** [balance not in [None, 0]] *)
Definition balance_inconsistent (balance : option Z) : bool :=
  match balance with
  | None => false
  | Some b => negb (Z.eqb b 0)
  end.

Definition get_history s (domain : option (list Address)) : sort_error + list history_row :=
  match history_walk s domain with
  | inl e => inl e
  | inr (h2, balance) => inr (if balance_inconsistent balance then [] else rev h2)
  end.

(** ** Example engines *)

Definition empty_storage : WalletStorage := mkWalletStorage [] [] [] [] [] [] [].

(** A wallet that watches no address yet. *)
Definition empty_engine : AddressSynchronizer :=
  mkAddressSynchronizer [] [] [] [] [] [] [] [] [] false "" [] None [] 0 empty_storage.

(** A wallet that owns the address [A] and knows the transaction [P], whose
    output 0 paid 1000 to [A]. *)
Definition delta_engine : AddressSynchronizer :=
  mkAddressSynchronizer
    [("A", [])] [] [] [] [] [("P", [("A", [(0, 1000, false)])])] [] [] [("A", ["P"])]
    false "" [] None [] 0 empty_storage.

(** It spends that output, pays 800 to the foreign address [Z] and returns
    100 to [A]. *)
Definition delta_tx : Transaction :=
  mkTransaction
    [mkTxInput "p2pkh" "P" 0 (Some "A")]
    [mkTxOutput TYPE_ADDRESS "Z" 800; mkTxOutput TYPE_ADDRESS "A" 100]
    "rawT" true "T" None.

(** A wallet that has verified [T7] in the block at height 700, whose header
    hashes to [H]. *)
Definition reorg_engine : AddressSynchronizer :=
  mkAddressSynchronizer
    [("A", [("T7", 700)])]
    [("T7", mkTxMinedInfo 700 None (Some 1500000000) (Some 3) (Some "H"))]
    [] [] [] [] [] [] [] false "" [] (Some []) [] 705 empty_storage.

(** A wallet that owns [A] only, and a transaction that spends a foreign
    outpoint and pays the foreign address [Z]. *)
Definition watching_engine : AddressSynchronizer :=
  mkAddressSynchronizer [("A", [])] [] [] [] [] [] [] [] [] false "" [] None [] 0 empty_storage.

Definition foreign_tx : Transaction :=
  mkTransaction
    [mkTxInput "p2pkh" "X" 0 None]
    [mkTxOutput TYPE_ADDRESS "Z" 5000]
    "rawT1" true "T1" None.

(** Scenario 6 of the specification: on [A], [Tc] at height 500 pays 70 and
    30, [Tb] in the mempool pays 20, and the local [Ta] spends the 30. *)
Definition history_engine : AddressSynchronizer :=
  mkAddressSynchronizer
    [("A", [("Tc", 500); ("Tb", 0)])]
    [("Tc", mkTxMinedInfo 500 None (Some 1500000000) (Some 1) (Some "H500"))]
    [("Tb", 0)]
    []
    [("Tc", []); ("Tb", []); ("Ta", [("A", [("Tc:1", 30)])])]
    [("Tc", [("A", [(0, 70, false); (1, 30, false)])]); ("Tb", [("A", [(0, 20, false)])]);
     ("Ta", [])]
    [] [("Tc", [(1, "Ta")])] [("A", ["Tc"; "Tb"; "Ta"])]
    false "" [] None [] 600 empty_storage.

(** The server reported [T9] at height 5 for [A]; the transaction itself
    has not arrived, so the local history of [A] does not list it. *)
Definition awaiting_engine : AddressSynchronizer :=
  mkAddressSynchronizer
    [("A", [("T9", 5)])] [] [("T9", 5)] [] [] [] [] [] []
    false "" [] (Some []) [] 10 empty_storage.

(** The server reported [T8] at height 5 for [A], and the wallet has it. *)
Definition synced_engine : AddressSynchronizer :=
  mkAddressSynchronizer
    [("A", [("T8", 5)])] [] [("T8", 5)]
    [("T8", mkTransaction [mkTxInput "p2pkh" "X" 0 None] [mkTxOutput TYPE_ADDRESS "A" 7]
              "rawT8" true "T8" None)]
    [("T8", [])] [("T8", [("A", [(0, 7, false)])])] [] [("X", [(0, "T8")])] [("A", ["T8"])]
    false "" [] (Some []) [] 10 empty_storage.

(** Scenario 4 of the specification.  [T5] is in the mempool and spends the
    outpoint (X, 0); [T5c] spends the output of [T5]; the wallet has indexed
    both.  [T6] spends (X, 0) too and is at height 300. *)
Definition mempool_tx : Transaction :=
  mkTransaction [mkTxInput "p2pkh" "X" 0 None] [mkTxOutput TYPE_ADDRESS "A" 50]
    "rawT5" true "T5" None.

Definition mempool_child_tx : Transaction :=
  mkTransaction [mkTxInput "p2pkh" "T5" 0 (Some "A")] [mkTxOutput TYPE_ADDRESS "A" 40]
    "rawT5c" true "T5c" None.

Definition mined_tx : Transaction :=
  mkTransaction [mkTxInput "p2pkh" "X" 0 None] [mkTxOutput TYPE_ADDRESS "A" 60]
    "rawT6" true "T6" None.

Definition conflict_engine : AddressSynchronizer :=
  mkAddressSynchronizer
    [("A", [])] [] [("T5", 0); ("T5c", 0); ("T6", 300)]
    [("T5", mempool_tx); ("T5c", mempool_child_tx)]
    [("T5", []); ("T5c", [("A", [("T5:0", 50)])])]
    [("T5", [("A", [(0, 50, false)])]); ("T5c", [("A", [(0, 40, false)])])]
    []
    [("X", [(0, "T5")]); ("T5", [(0, "T5c")]); ("T5c", [])]
    [("A", ["T5"; "T5c"])]
    false "" [] None [] 300 empty_storage.

Definition conflict_rank (h : Txid) : nat :=
  if String.eqb h "X" then 3%nat
  else if String.eqb h "T5" then 2%nat
  else if String.eqb h "T5c" then 1%nat
  else 0%nat.

(** Scenario 3 of the specification.  The wallet expects [T3] at height 200
    and [T4] in the mempool; [T3] spends (X, 0), [T4] spends (X, 0) and
    (Y, 0).  [T9] spends (Y, 1). *)
Definition expecting_engine : AddressSynchronizer :=
  mkAddressSynchronizer [("A", [])] [] [("T3", 200); ("T4", 0)] [] [] [] [] [] []
    false "" [] None [] 300 empty_storage.

Definition confirmed_tx : Transaction :=
  mkTransaction [mkTxInput "p2pkh" "X" 0 None] [mkTxOutput TYPE_ADDRESS "A" 50]
    "rawT3" true "T3" None.

Definition double_spend_tx : Transaction :=
  mkTransaction [mkTxInput "p2pkh" "X" 0 None; mkTxInput "p2pkh" "Y" 0 None]
    [mkTxOutput TYPE_ADDRESS "A" 45] "rawT4" true "T4" None.

Definition lone_tx : Transaction :=
  mkTransaction [mkTxInput "p2pkh" "Y" 1 None] [mkTxOutput TYPE_ADDRESS "A" 10]
    "rawT9" true "T9" None.

(** The wallet after [T3] was added. *)
Definition receiving_engine : AddressSynchronizer :=
  mkAddressSynchronizer
    [("A", [])] [] [("T3", 200); ("T4", 0)]
    [("T3", confirmed_tx)]
    [("T3", [])]
    [("T3", [("A", [(0, 50, false)])])]
    []
    [("X", [(0, "T3")]); ("T3", [])]
    [("A", ["T3"])]
    false "" [] None [] 300 empty_storage.

(** The wallet after [T4] was refused: looking for the spender of (Y, 0) left
    an empty dictionary under [Y]. *)
Definition dusty_engine : AddressSynchronizer :=
  mkAddressSynchronizer
    [("A", [])] [] [("T3", 200); ("T4", 0)]
    [("T3", confirmed_tx)]
    [("T3", [])]
    [("T3", [("A", [(0, 50, false)])])]
    []
    [("X", [(0, "T3")]); ("T3", []); ("Y", [])]
    [("A", ["T3"])]
    false "" [] None [] 300 empty_storage.

(** * Facts *)

(** ** Sums and folds *)

Definition Zsum (l : list Z) : Z := fold_right Z.add 0 l.

Lemma fold_left_minus {A : Type} (f : A -> Z) (l : list A) (a : Z) :
  fold_left (fun acc e => acc - f e) l a = a - Zsum (map f l).
Proof.
  revert a. induction l as [|x l IH]; intros a; simpl; [lia|].
  rewrite IH. lia.
Qed.

Lemma fold_left_plus {A : Type} (f : A -> Z) (l : list A) (a : Z) :
  fold_left (fun acc e => acc + f e) l a = a + Zsum (map f l).
Proof.
  revert a. induction l as [|x l IH]; intros a; simpl; [lia|].
  rewrite IH. lia.
Qed.

(** ** The effect of a transaction on an address *)

(** The delta as the specification words it: what the address received in
    the transaction minus what it spent there, an absent entry counting for
    nothing. *)
Definition received_values s tx_hash (addr : Address) : list Z :=
  match dget tx_hash (txo s) with
  | Some dd =>
      match dget addr dd with
      | Some l => map (fun e : Z * Z * bool => snd (fst e)) l
      | None => []
      end
  | None => []
  end.

Definition spent_values s tx_hash (addr : Address) : list Z :=
  match dget tx_hash (txi s) with
  | Some dd =>
      match dget addr dd with
      | Some X => map (fun e : string * Z => snd e) X
      | None => []
      end
  | None => []
  end.

Definition tx_delta_spec s tx_hash (addr : Address) : Z :=
  Zsum (received_values s tx_hash addr) - Zsum (spent_values s tx_hash addr).

Lemma get_tx_delta_spec s tx_hash addr :
  get_tx_delta s tx_hash addr = tx_delta_spec s tx_hash addr.
Proof.
  unfold get_tx_delta, tx_delta_spec, received_values, spent_values, txi_of, txo_of.
  rewrite (fold_left_plus (fun e : Z * Z * bool => snd (fst e))).
  rewrite (fold_left_minus (fun e : string * Z => snd e)).
  destruct (dget tx_hash (txi s)) as [di|]; destruct (dget tx_hash (txo s)) as [do|];
    simpl; try destruct (dget addr di); try destruct (dget addr do); simpl; lia.
Qed.

(** In [get_history] the sum kept for a transaction is never poisoned. *)
Definition all_known (tx_deltas : dict Txid (option Z)) : Prop :=
  Forall (fun kv : Txid * option Z => snd kv <> None) tx_deltas.

Lemma all_known_dset k z tx_deltas :
  all_known tx_deltas -> all_known (dset k (Some z) tx_deltas).
Proof.
  unfold all_known. induction tx_deltas as [|[k' v'] d IH]; simpl; intros Hall.
  - constructor; [simpl; discriminate|constructor].
  - inversion Hall as [|? ? Hv Hd]; subst.
    destruct (eq_dec k k'); constructor; simpl; auto; discriminate.
Qed.

Lemma all_known_get k tx_deltas :
  all_known tx_deltas -> exists z, deltas_get k tx_deltas = Some z.
Proof.
  unfold all_known, deltas_get. intros Hall.
  destruct (dget k tx_deltas) as [v|] eqn:Hg; [|eauto].
  apply dget_In in Hg. rewrite Forall_forall in Hall. specialize (Hall _ Hg). simpl in Hall.
  destruct v; [eauto|congruence].
Qed.

Lemma accumulate_delta_known s addr acc e :
  all_known (fst acc) -> all_known (fst (accumulate_delta s addr acc e)).
Proof.
  destruct acc as [tx_deltas omni_deltas]. simpl. intros Hall.
  destruct (all_known_get (fst e) tx_deltas Hall) as [z Hz].
  unfold accumulate_delta. rewrite Hz.
  destruct (Z.eqb (get_omni_delta s (fst e) addr) 0); simpl.
  - apply all_known_dset; assumption.
  - destruct (dmem (fst e) (dset (fst e) (Some (z + get_tx_delta s (fst e) addr)) tx_deltas)).
    + apply all_known_dset; assumption.
    + apply all_known_dset. apply all_known_dset; assumption.
Qed.

Lemma history_deltas_known s domain : all_known (fst (history_deltas s domain)).
Proof.
  unfold history_deltas.
  assert (Hgen : forall l acc, all_known (fst acc) ->
            all_known (fst (fold_left
              (fun acc addr => fold_left (accumulate_delta s addr) (get_address_history s addr) acc)
              l acc))).
  { induction l as [|a l IH]; intros acc Hacc; simpl; [assumption|].
    apply IH. generalize (get_address_history s a). intros h. revert acc Hacc.
    induction h as [|e h IHh]; intros acc Hacc; simpl; [assumption|].
    apply IHh. apply accumulate_delta_known; assumption. }
  apply Hgen. constructor.
Qed.

(** C10. [get_tx_delta] always answers with an integer: the sum of what the
    address received in the transaction minus the sum of what it spent there,
    an absent [txi] or [txo] entry counting for nothing.  A transaction absent
    from both indexes has delta 0, and the sums [get_history] accumulates from
    these deltas are never the absent value. *)
Theorem get_tx_delta_total :
  forall s tx_hash addr,
    get_tx_delta s tx_hash addr = tx_delta_spec s tx_hash addr
    /\ (dget tx_hash (txi s) = None /\ dget tx_hash (txo s) = None ->
        get_tx_delta s tx_hash addr = 0)
    /\ (forall domain, exists z : Z,
          deltas_get tx_hash (fst (history_deltas s domain)) = Some z).
Proof.
  intros s tx_hash addr. split; [apply get_tx_delta_spec|]. split.
  - intros [Hi Ho]. rewrite get_tx_delta_spec.
    unfold tx_delta_spec, received_values, spent_values. rewrite Hi, Ho. reflexivity.
  - intros domain. apply all_known_get. apply history_deltas_known.
Qed.

(** ** Reorganisations *)

Lemma header_mismatch_iff (hd : option header) (info : TxMinedInfo) :
  header_mismatch hd info = true <->
  (hd = None \/ exists hdr, hd = Some hdr /\ Some (hash_header hdr) <> header_hash info).
Proof.
  unfold header_mismatch. destruct hd as [hdr|].
  - destruct (header_hash info) as [hh|] eqn:Hh.
    + rewrite negb_true_iff. split.
      * intros Hne. right. exists hdr. split; [reflexivity|].
        intros [= Heq]. rewrite Heq, String.eqb_refl in Hne. discriminate.
      * intros [Hnone|[hdr' [[= <-] Hne]]]; [discriminate|].
        destruct (String.eqb (hash_header hdr) hh) eqn:He; [|reflexivity].
        apply String.eqb_eq in He. congruence.
    + split; [|reflexivity]. intros _. right. exists hdr. split; [reflexivity|discriminate].
  - split; [intros _; left; reflexivity|reflexivity].
Qed.

Lemma undo_step_other bc rh acc item k :
  fst item <> k ->
  dget k (verified_tx (snd (undo_verification_step bc rh acc item)))
    = dget k (verified_tx (snd acc))
  /\ dget k (unverified_tx (snd (undo_verification_step bc rh acc item)))
    = dget k (unverified_tx (snd acc)).
Proof.
  destruct acc as [txs s], item as [t info]. simpl. intros Hne.
  destruct (Z.geb (height info) rh); [|split; reflexivity].
  destruct (header_mismatch (bc (height info)) info); [|split; reflexivity].
  simpl. split.
  - apply dget_dpop_other. congruence.
  - apply dget_dset_other. congruence.
Qed.

Lemma undo_fold_other bc rh l acc k :
  ~ In k (map fst l) ->
  dget k (verified_tx (snd (fold_left (undo_verification_step bc rh) l acc)))
    = dget k (verified_tx (snd acc))
  /\ dget k (unverified_tx (snd (fold_left (undo_verification_step bc rh) l acc)))
    = dget k (unverified_tx (snd acc)).
Proof.
  revert acc. induction l as [|item l IH]; intros acc Hnotin; simpl; [split; reflexivity|].
  simpl in Hnotin.
  destruct (IH (undo_verification_step bc rh acc item)) as [Hv Hu]; [tauto|].
  destruct (undo_step_other bc rh acc item k) as [Hv' Hu']; [tauto|].
  split; congruence.
Qed.

Lemma undo_fold_hit bc rh l acc k info :
  NoDup (map fst l) -> In (k, info) l ->
  Z.geb (height info) rh = true ->
  header_mismatch (bc (height info)) info = true ->
  dget k (verified_tx (snd (fold_left (undo_verification_step bc rh) l acc))) = None
  /\ dget k (unverified_tx (snd (fold_left (undo_verification_step bc rh) l acc)))
     = Some (height info).
Proof.
  revert acc. induction l as [|item l IH]; intros acc Hnd Hin Hge Hmis; simpl; [destruct Hin|].
  simpl in Hnd. inversion Hnd as [|? ? Hnotin Hnd']; subst.
  destruct Hin as [->|Hin].
  - destruct (undo_fold_other bc rh l (undo_verification_step bc rh acc (k, info)) k Hnotin)
      as [Hv Hu].
    rewrite Hv, Hu. destruct acc as [txs s0]. simpl. rewrite Hge, Hmis. simpl.
    split; [apply dget_dpop_same|apply dget_dset_same].
  - apply IH; assumption.
Qed.

(** C4. After [undo_verifications(chain, height)], a transaction that was
    verified at a block height at or above [height], and for whose height the
    chain has no header or a header whose hash is not the recorded
    [header_hash], is gone from [verified_tx] and is in [unverified_tx] at the
    height it had; [get_tx_height] then reports that height with no
    confirmation. *)
Theorem undo_verifications_demotes :
  forall (blockchain : Blockchain) (reorg_height : Z) s tx_hash info,
    wf (verified_tx s) ->
    dget tx_hash (verified_tx s) = Some info ->
    height info >= reorg_height ->
    (blockchain (height info) = None
     \/ exists hdr, blockchain (height info) = Some hdr
                    /\ Some (hash_header hdr) <> header_hash info) ->
    let s' := snd (undo_verifications blockchain reorg_height s) in
    dget tx_hash (verified_tx s') = None
    /\ dget tx_hash (unverified_tx s') = Some (height info)
    /\ height (get_tx_height s' tx_hash) = height info
    /\ conf (get_tx_height s' tx_hash) = Some 0.
Proof.
  intros blockchain reorg_height s tx_hash info Hwf Hget Hge Hchain s'.
  assert (Hfold : dget tx_hash (verified_tx s') = None
                  /\ dget tx_hash (unverified_tx s') = Some (height info)).
  { subst s'. unfold undo_verifications. apply undo_fold_hit.
    - exact Hwf.
    - apply dget_In. exact Hget.
    - apply Z.geb_le. apply Z.ge_le. exact Hge.
    - apply header_mismatch_iff. exact Hchain. }
  destruct Hfold as [Hv Hu]. repeat split; try assumption.
  - unfold get_tx_height. rewrite Hv, Hu. reflexivity.
  - unfold get_tx_height. rewrite Hv, Hu. reflexivity.
Qed.

(** ** What the index operations leave alone

    The operations on the index ([transactions], [txi], [txo],
    [spent_outpoints], [_history_local], [omni_tx]) do not touch the rest of
    the engine, and the only exceptions they raise are assertion failures,
    the invariant violation of [get_conflicting_transactions] and the
    [RuntimeError] of [remove_transaction]. *)

Definition same_primary s s' : Prop :=
  history s' = history s
  /\ verified_tx s' = verified_tx s
  /\ unverified_tx s' = unverified_tx s
  /\ tx_fees s' = tx_fees s
  /\ verifier s' = verifier s
  /\ network_callbacks s' = network_callbacks s
  /\ local_height s' = local_height s
  /\ omni s' = omni s
  /\ omni_host s' = omni_host s
  /\ storage s' = storage s.

Lemma same_primary_refl s : same_primary s s.
Proof. unfold same_primary. repeat split; reflexivity. Qed.

Lemma same_primary_trans s1 s2 s3 :
  same_primary s1 s2 -> same_primary s2 s3 -> same_primary s1 s3.
Proof.
  unfold same_primary. intros H12 H23.
  decompose [and] H12. decompose [and] H23. repeat split; congruence.
Qed.

Ltac frame_simpl := unfold same_primary; simpl; repeat split; reflexivity.

Lemma frame_with_transactions s x : same_primary s (with_transactions s x).
Proof. frame_simpl. Qed.
Lemma frame_with_txi s x : same_primary s (with_txi s x).
Proof. frame_simpl. Qed.
Lemma frame_with_txo s x : same_primary s (with_txo s x).
Proof. frame_simpl. Qed.
Lemma frame_with_spent_outpoints s x : same_primary s (with_spent_outpoints s x).
Proof. frame_simpl. Qed.
Lemma frame_with_history_local s x : same_primary s (with_history_local s x).
Proof. frame_simpl. Qed.
Lemma frame_with_omni_tx s x : same_primary s (with_omni_tx s x).
Proof. frame_simpl. Qed.

Create HintDb frame.
#[local] Hint Resolve same_primary_refl frame_with_transactions frame_with_txi frame_with_txo
  frame_with_spent_outpoints frame_with_history_local frame_with_omni_tx : frame.

Lemma fold_left_frame {A : Type} (f : AddressSynchronizer -> A -> AddressSynchronizer)
    (l : list A) s :
  (forall s1 a, same_primary s1 (f s1 a)) -> same_primary s (fold_left f l s).
Proof.
  intros Hf. revert s. induction l as [|a l IH]; intros s; simpl; [apply same_primary_refl|].
  eapply same_primary_trans; [apply Hf|apply IH].
Qed.

Lemma frame_add_tx_to_local_history t s : same_primary s (_add_tx_to_local_history t s).
Proof. unfold _add_tx_to_local_history. apply fold_left_frame. auto with frame. Qed.

Lemma frame_remove_tx_from_local_history t s :
  same_primary s (_remove_tx_from_local_history t s).
Proof.
  unfold _remove_tx_from_local_history. apply fold_left_frame. intros s1 a.
  destruct (dget a (_history_local s1)) as [cur|]; [|auto with frame].
  destruct (smem t cur); auto with frame.
Qed.

Lemma frame_add_input t s txin : same_primary s (add_input t s txin).
Proof.
  unfold add_input. destruct (is_coinbase_input txin); [auto with frame|].
  match goal with |- context [find_prevout ?a ?b] => destruct (find_prevout a b) as [[addr v]|] end;
    [|auto with frame].
  match goal with |- context [if ?c then _ else _] => destruct c end; [|auto with frame].
  eapply same_primary_trans; [apply frame_with_spent_outpoints|apply frame_with_txi].
Qed.

Lemma frame_give_value_to_spender t n addr v s :
  same_primary s (give_value_to_spender t n addr v s).
Proof.
  unfold give_value_to_spender.
  destruct (so_lookup t n (spent_outpoints s)) as [next_tx|]; [|auto with frame].
  eapply same_primary_trans; [|apply frame_add_tx_to_local_history].
  match goal with |- context [dget next_tx ?m] => destruct (dget next_tx m) end;
    [|auto with frame].
  eapply same_primary_trans; [apply frame_with_spent_outpoints|apply frame_with_txi].
Qed.

Lemma frame_add_output t cb s n o : same_primary s (add_output t cb s n o).
Proof.
  unfold add_output. destruct (get_txout_address o) as [addr|]; [|auto with frame].
  destruct (truthy addr && is_mine s (Some addr)); [|auto with frame].
  eapply same_primary_trans; [apply frame_with_txo|apply frame_give_value_to_spender].
Qed.

Lemma frame_add_outputs t cb outs : forall n s, same_primary s (add_outputs t cb n outs s).
Proof.
  induction outs as [|o outs IH]; intros n s; simpl; [auto with frame|].
  eapply same_primary_trans; [apply frame_add_output|apply IH].
Qed.

Lemma frame_index_transaction t tx cb s : same_primary s (index_transaction t tx cb s).
Proof.
  unfold index_transaction.
  eapply same_primary_trans; [apply frame_with_txi|].
  eapply same_primary_trans;
    [apply (fold_left_frame (add_input t)); intros; apply frame_add_input|].
  eapply same_primary_trans; [apply frame_with_txo|].
  eapply same_primary_trans; [apply frame_add_outputs|].
  eapply same_primary_trans; [|apply frame_with_transactions].
  eapply same_primary_trans; [|apply frame_add_tx_to_local_history].
  match goal with |- context [if ?c then _ else _] => destruct c end; auto with frame.
Qed.

Lemma frame_remove_transaction_finish t s : same_primary s (remove_transaction_finish t s).
Proof.
  unfold remove_transaction_finish.
  eapply same_primary_trans; [apply frame_with_spent_outpoints|].
  eapply same_primary_trans; [apply frame_remove_tx_from_local_history|].
  eapply same_primary_trans; [apply frame_with_txi|apply frame_with_txo].
Qed.

(** An outcome that kept the primary state of [s0] and did not raise
    [UnrelatedTransactionException]. *)
Definition framed {A : Type} s0 (o : outcome A) : Prop :=
  match o with
  | Ret _ s1 => same_primary s0 s1
  | Raise e s1 => same_primary s0 s1 /\ e <> UnrelatedTransactionException
  | OutOfFuel => True
  end.

Lemma framed_trans {A : Type} s0 s1 (o : outcome A) :
  same_primary s0 s1 -> framed s1 o -> framed s0 o.
Proof.
  intros H01. destruct o as [a s2|e s2|]; simpl; [| |trivial].
  - apply same_primary_trans; assumption.
  - intros [H12 He]. split; [eapply same_primary_trans; eassumption|assumption].
Qed.

Lemma framed_bind {A B : Type} s0 (m : outcome A) (k : A -> AddressSynchronizer -> outcome B) :
  framed s0 m -> (forall a s1, framed s1 (k a s1)) -> framed s0 (bind m k).
Proof.
  destruct m as [a s1|e s1|]; simpl; [| |trivial].
  - intros H01 Hk. eapply framed_trans; [exact H01|apply Hk].
  - tauto.
Qed.

Lemma framed_conflicting_loop ins : forall acc s, framed s (conflicting_loop ins acc s).
Proof.
  induction ins as [|txin ins IH]; intros acc s; simpl; [apply same_primary_refl|].
  destruct (is_coinbase_input txin); [apply IH|].
  destruct (so_lookup (prevout_hash txin) (prevout_n txin) (spent_outpoints s)) as [sp|].
  - destruct (dmem sp _).
    + eapply framed_trans; [apply frame_with_spent_outpoints|apply IH].
    + simpl. split; [apply frame_with_spent_outpoints|discriminate].
  - eapply framed_trans; [apply frame_with_spent_outpoints|apply IH].
Qed.

Lemma framed_get_conflicting_transactions t tx s :
  framed s (get_conflicting_transactions t tx s).
Proof.
  unfold get_conflicting_transactions. apply framed_bind; [apply framed_conflicting_loop|].
  intros c s1. destruct (smem t c); [|apply same_primary_refl].
  destruct (Nat.ltb 1 (length c)); simpl.
  - split; [apply same_primary_refl|discriminate].
  - apply same_primary_refl.
Qed.

Lemma framed_fold_left {A B : Type} (step : outcome B -> A -> outcome B) (l : list A) s0 :
  (forall acc a, framed s0 acc -> framed s0 (step acc a)) ->
  forall acc, framed s0 acc -> framed s0 (fold_left step l acc).
Proof.
  intros Hstep. induction l as [|a l IH]; intros acc Hacc; simpl; [assumption|].
  apply IH. apply Hstep. assumption.
Qed.

Lemma framed_get_depending_transactions fuel :
  forall t s, framed s (get_depending_transactions fuel t s).
Proof.
  induction fuel as [|fuel IH]; intros t s; simpl; [trivial|].
  apply framed_fold_left.
  - intros acc other Hacc. unfold depending_step. apply framed_bind; [assumption|].
    intros ch s1. apply framed_bind; [apply IH|].
    intros sub s2. apply same_primary_refl.
  - simpl. apply frame_with_spent_outpoints.
Qed.

Lemma framed_collect_to_remove fuel c s : framed s (collect_to_remove fuel c s).
Proof.
  unfold collect_to_remove. apply framed_fold_left.
  - intros acc other Hacc. unfold collect_step. apply framed_bind; [assumption|].
    intros to_remove s1. apply framed_bind; [apply framed_get_depending_transactions|].
    intros deps s2. apply same_primary_refl.
  - simpl. apply same_primary_refl.
Qed.

Lemma framed_remove_transaction t s : framed s (remove_transaction t s).
Proof.
  unfold remove_transaction. destruct (dget t (transactions s)) as [tx|].
  - simpl. eapply same_primary_trans; [|apply frame_remove_transaction_finish].
    eapply same_primary_trans; [apply frame_with_transactions|apply frame_with_spent_outpoints].
  - match goal with |- context [find_spend ?a ?b] => destruct (find_spend a b) as [[h n]|] end;
      simpl.
    + split; [|discriminate].
      eapply same_primary_trans; [apply frame_with_transactions|apply frame_with_spent_outpoints].
    + eapply same_primary_trans; [apply frame_with_transactions|apply frame_remove_transaction_finish].
Qed.

Lemma framed_for_each {A : Type} (body : A -> AddressSynchronizer -> outcome unit) (l : list A) :
  (forall a s, framed s (body a s)) -> forall s, framed s (for_each body l s).
Proof.
  intros Hbody. induction l as [|a l IH]; intros s; simpl; [apply same_primary_refl|].
  apply framed_bind; [apply Hbody|]. intros _ s1. apply IH.
Qed.

(** The part of [add_transaction] that follows the relatedness check. *)
Lemma framed_add_transaction_related fuel t tx s :
  framed s (add_transaction fuel t tx true s).
Proof.
  unfold add_transaction.
  destruct (negb (truthy t)); [simpl; split; [apply same_primary_refl|discriminate]|].
  destruct (negb (is_complete tx)); [simpl; split; [apply same_primary_refl|discriminate]|].
  destruct (inputs tx) as [|txin0 ins] eqn:Hins;
    [simpl; split; [apply same_primary_refl|discriminate]|].
  simpl negb. rewrite andb_false_l. unfold resolve_conflicts_and_index.
  apply framed_bind; [apply framed_get_conflicting_transactions|].
  intros c s1. destruct c as [|c0 c]; [apply frame_index_transaction|].
  match goal with |- context [if ?b then _ else _] => destruct b end;
    [apply same_primary_refl|].
  match goal with |- context [if ?b then _ else _] => destruct b end;
    [apply same_primary_refl|].
  apply framed_bind; [apply framed_collect_to_remove|].
  intros to_remove s2. apply framed_bind.
  - apply framed_for_each. intros a s0. apply framed_remove_transaction.
  - intros _ s3. apply frame_index_transaction.
Qed.

Lemma add_transaction_related_eq fuel t tx s :
  existsb (fun txin => is_mine s (get_txin_address s txin)) (inputs tx) = true
  \/ existsb (fun o => is_mine s (get_txout_address o)) (outputs tx) = true ->
  add_transaction fuel t tx false s = add_transaction fuel t tx true s.
Proof.
  intros Hrel. unfold add_transaction.
  destruct (negb (truthy t)); [reflexivity|].
  destruct (negb (is_complete tx)); [reflexivity|].
  destruct (inputs tx) as [|txin0 ins] eqn:Hins; [reflexivity|].
  destruct Hrel as [Hrel|Hrel]; rewrite Hrel; simpl.
  - reflexivity.
  - rewrite andb_false_r. reflexivity.
Qed.

Lemma add_transaction_unrelated_eq fuel t tx s :
  truthy t = true -> is_complete tx = true -> inputs tx <> [] ->
  existsb (fun txin => is_mine s (get_txin_address s txin)) (inputs tx) = false ->
  existsb (fun o => is_mine s (get_txout_address o)) (outputs tx) = false ->
  add_transaction fuel t tx false s = Raise UnrelatedTransactionException s.
Proof.
  intros Htruthy Hcomplete Hins Hi Ho. unfold add_transaction.
  rewrite Htruthy, Hcomplete. simpl.
  destruct (inputs tx) as [|txin0 ins] eqn:Hi0; [congruence|].
  rewrite Hi, Ho. reflexivity.
Qed.

(** ** Unrelated transactions *)

(** C9. For a complete transaction with a non-empty txid and at least one
    input, [add_transaction(txid, T, allow_unrelated=False)] raises
    [UnrelatedTransactionException] exactly when no input of [T] resolves to
    an address of the wallet and no output of [T] pays one; the engine the
    exception leaves behind is the engine as it was before the call. *)
Theorem add_transaction_unrelated :
  forall (fuel : nat) tx_hash tx s,
    truthy tx_hash = true ->
    is_complete tx = true ->
    inputs tx <> [] ->
    ((exists s', add_transaction fuel tx_hash tx false s
                 = Raise UnrelatedTransactionException s')
     <-> ((forall txin, In txin (inputs tx) -> is_mine s (get_txin_address s txin) = false)
          /\ (forall o, In o (outputs tx) -> is_mine s (get_txout_address o) = false)))
    /\ (forall s', add_transaction fuel tx_hash tx false s
                   = Raise UnrelatedTransactionException s' -> s' = s).
Proof.
  intros fuel tx_hash tx s Htruthy Hcomplete Hins.
  set (is_mine_ := existsb (fun txin => is_mine s (get_txin_address s txin)) (inputs tx)).
  set (is_for_me := existsb (fun o => is_mine s (get_txout_address o)) (outputs tx)).
  assert (Hnone : (is_mine_ = false /\ is_for_me = false) <->
                  ((forall txin, In txin (inputs tx) ->
                               is_mine s (get_txin_address s txin) = false)
                   /\ (forall o, In o (outputs tx) ->
                                 is_mine s (get_txout_address o) = false))).
  { subst is_mine_ is_for_me. split.
    - intros [Hi Ho]. split.
      + intros txin Hin. destruct (is_mine s (get_txin_address s txin)) eqn:Hm; [|reflexivity].
        assert (Hex : existsb (fun txin => is_mine s (get_txin_address s txin)) (inputs tx) = true)
          by (apply existsb_exists; eauto).
        congruence.
      + intros o Hin. destruct (is_mine s (get_txout_address o)) eqn:Hm; [|reflexivity].
        assert (Hex : existsb (fun o => is_mine s (get_txout_address o)) (outputs tx) = true)
          by (apply existsb_exists; eauto).
        congruence.
    - intros [Hi Ho]. split.
      + destruct (existsb _ (inputs tx)) eqn:Hex; [|reflexivity].
        apply existsb_exists in Hex. destruct Hex as [txin [Hin Hm]].
        rewrite (Hi txin Hin) in Hm. discriminate.
      + destruct (existsb _ (outputs tx)) eqn:Hex; [|reflexivity].
        apply existsb_exists in Hex. destruct Hex as [o [Hin Hm]].
        rewrite (Ho o Hin) in Hm. discriminate. }
  assert (Hcases : (is_mine_ = false /\ is_for_me = false
                    /\ add_transaction fuel tx_hash tx false s
                       = Raise UnrelatedTransactionException s)
                   \/ ((is_mine_ = true \/ is_for_me = true)
                       /\ add_transaction fuel tx_hash tx false s
                          = add_transaction fuel tx_hash tx true s)).
  { destruct is_mine_ eqn:Hi; [right; split; [left; reflexivity|]|].
    - apply add_transaction_related_eq. left. exact Hi.
    - destruct is_for_me eqn:Ho; [right; split; [right; reflexivity|]|].
      + apply add_transaction_related_eq. right. exact Ho.
      + left. split; [reflexivity|]. split; [reflexivity|].
        apply add_transaction_unrelated_eq; assumption. }
  pose proof (framed_add_transaction_related fuel tx_hash tx s) as Hframed.
  destruct Hcases as [[Hi [Ho Heq]]|[Hrel Heq]].
  - split.
    + split; [intros _; apply Hnone; tauto|intros _; eauto].
    + intros s' Hs'. rewrite Heq in Hs'. congruence.
  - rewrite Heq. split.
    + split.
      * intros [s' Hs']. rewrite Hs' in Hframed. simpl in Hframed. tauto.
      * intros Hall. apply Hnone in Hall. destruct Hall as [Hi Ho].
        destruct Hrel; congruence.
    + intros s' Hs'. rewrite Hs' in Hframed. simpl in Hframed. tauto.
Qed.

(** ** Verified and unverified transactions *)

(** The keys of [verified_tx] and of [unverified_tx] have nothing in common. *)
Definition verification_disjoint s : Prop :=
  forall t, In t (dkeys (verified_tx s)) -> In t (dkeys (unverified_tx s)) -> False.

(** The public operations of the engine that change its state. *)
Inductive public_op :=
| Op_add_unverified_tx (tx_hash : Txid) (tx_height : Z)
| Op_remove_unverified_tx (tx_hash : Txid) (tx_height : Z)
| Op_add_verified_tx (tx_hash : Txid) (info : TxMinedInfo)
| Op_undo_verifications (blockchain : Blockchain) (reorg_height : Z)
| Op_receive_history_callback (addr : Address) (hist : list (Txid * Z)) (fees : dict Txid Z)
| Op_receive_tx_callback (tx_hash : Txid) (tx : Transaction) (tx_height : Z)
| Op_add_transaction (tx_hash : Txid) (tx : Transaction) (allow_unrelated : bool)
| Op_remove_transaction (tx_hash : Txid)
| Op_clear_history.

Definition exec (fuel : nat) (op : public_op) s : outcome unit :=
  match op with
  | Op_add_unverified_tx t h => Ret tt (add_unverified_tx t h s)
  | Op_remove_unverified_tx t h => Ret tt (remove_unverified_tx t h s)
  | Op_add_verified_tx t info => Ret tt (add_verified_tx t info s)
  | Op_undo_verifications bc h => Ret tt (snd (undo_verifications bc h s))
  | Op_receive_history_callback addr hist fees => receive_history_callback fuel addr hist fees s
  | Op_receive_tx_callback t tx h => receive_tx_callback fuel t tx h s
  | Op_add_transaction t tx allow => ' _, s1 <- add_transaction fuel t tx allow s ;; Ret tt s1
  | Op_remove_transaction t => remove_transaction t s
  | Op_clear_history => Ret tt (clear_history s)
  end.

(** The engine a call leaves behind, whether it returned or raised. *)
Definition state_after {A : Type} (o : outcome A) : option AddressSynchronizer :=
  match o with
  | Ret _ s1 => Some s1
  | Raise _ s1 => Some s1
  | OutOfFuel => None
  end.

(** A sequence of calls; a caller that catches an exception goes on with the
    engine as the exception left it. *)
Fixpoint run (fuel : nat) (ops : list public_op) s : option AddressSynchronizer :=
  match ops with
  | [] => Some s
  | op :: ops' =>
      match state_after (exec fuel op s) with
      | Some s1 => run fuel ops' s1
      | None => None
      end
  end.

Definition disjoint_at s (t : Txid) : Prop :=
  dget t (verified_tx s) = None \/ dget t (unverified_tx s) = None.

Lemma verification_disjoint_iff s : verification_disjoint s <-> forall t, disjoint_at s t.
Proof.
  unfold verification_disjoint, disjoint_at. split.
  - intros Hd t. destruct (dget t (verified_tx s)) as [v|] eqn:Hv; [|left; reflexivity].
    destruct (dget t (unverified_tx s)) as [u|] eqn:Hu; [|right; reflexivity].
    exfalso. apply (Hd t).
    + apply dget_In in Hv. apply (in_map fst) in Hv. exact Hv.
    + apply dget_In in Hu. apply (in_map fst) in Hu. exact Hu.
  - intros Hd t Hv Hu. destruct (Hd t) as [Hn|Hn]; apply dget_None_notin in Hn; contradiction.
Qed.

Lemma disjoint_same_primary s s' :
  same_primary s s' -> verification_disjoint s -> verification_disjoint s'.
Proof.
  unfold same_primary, verification_disjoint. intros Hsame Hd t.
  decompose [and] Hsame. replace (verified_tx s') with (verified_tx s) by congruence.
  replace (unverified_tx s') with (unverified_tx s) by congruence. apply Hd.
Qed.

Lemma disjoint_remove_spv t s :
  verification_disjoint s -> verification_disjoint (remove_spv_proof_for_tx t s).
Proof. unfold remove_spv_proof_for_tx. destruct (verifier s); auto. Qed.

Lemma disjoint_add_unverified_tx t h s :
  verification_disjoint s -> verification_disjoint (add_unverified_tx t h s).
Proof.
  intros Hd. unfold add_unverified_tx. destruct (dmem t (verified_tx s)) eqn:Hmem.
  - destruct (_ || _); [|assumption].
    apply disjoint_remove_spv. apply verification_disjoint_iff. intros k.
    pose proof (proj1 (verification_disjoint_iff _) Hd k) as Hk. clear Hd. rename Hk into Hd. unfold disjoint_at in *. simpl.
    rewrite dget_dpop. destruct (eq_dec k t); tauto.
  - apply dmem_false in Hmem. apply verification_disjoint_iff. intros k.
    pose proof (proj1 (verification_disjoint_iff _) Hd k) as Hk. clear Hd. rename Hk into Hd. unfold disjoint_at in *. simpl.
    rewrite dget_dset. destruct (eq_dec k t) as [->|Hne]; tauto.
Qed.

Lemma disjoint_remove_unverified_tx t h s :
  verification_disjoint s -> verification_disjoint (remove_unverified_tx t h s).
Proof.
  intros Hd. unfold remove_unverified_tx. destruct (dget t (unverified_tx s)); [|assumption].
  destruct (Z.eqb _ _); [|assumption].
  apply verification_disjoint_iff. intros k.
  pose proof (proj1 (verification_disjoint_iff _) Hd k) as Hk. clear Hd. rename Hk into Hd. unfold disjoint_at in *. simpl.
  rewrite dget_dpop. destruct (eq_dec k t); tauto.
Qed.

Lemma disjoint_add_verified_tx t info s :
  verification_disjoint s -> verification_disjoint (add_verified_tx t info s).
Proof.
  intros Hd. unfold add_verified_tx.
  apply verification_disjoint_iff. intros k.
  pose proof (proj1 (verification_disjoint_iff _) Hd k) as Hk. clear Hd. rename Hk into Hd. unfold disjoint_at in *. simpl.
  rewrite dget_dpop, dget_dset. destruct (eq_dec k t); tauto.
Qed.

Lemma disjoint_undo_step bc rh acc item :
  verification_disjoint (snd acc) ->
  verification_disjoint (snd (undo_verification_step bc rh acc item)).
Proof.
  destruct acc as [txs s], item as [t info]. simpl. intros Hd.
  destruct (Z.geb _ _); [|assumption]. destruct (header_mismatch _ _); [|assumption]. simpl.
  apply verification_disjoint_iff. intros k.
  pose proof (proj1 (verification_disjoint_iff _) Hd k) as Hk. clear Hd. rename Hk into Hd. unfold disjoint_at in *. simpl.
  rewrite dget_dpop, dget_dset. destruct (eq_dec k t); tauto.
Qed.

Lemma disjoint_undo_verifications bc rh s :
  verification_disjoint s -> verification_disjoint (snd (undo_verifications bc rh s)).
Proof.
  assert (Hfold : forall l acc, verification_disjoint (snd acc) ->
            verification_disjoint (snd (fold_left (undo_verification_step bc rh) l acc))).
  { induction l as [|item l IH]; intros acc Hd; simpl; [assumption|].
    apply IH. apply disjoint_undo_step. assumption. }
  intros Hd. unfold undo_verifications. apply Hfold. exact Hd.
Qed.

Lemma disjoint_forget_retracted addr hist s :
  verification_disjoint s -> verification_disjoint (forget_retracted addr hist s).
Proof.
  intros Hd. unfold forget_retracted.
  assert (Hfold : forall l s0, verification_disjoint s0 ->
            verification_disjoint
              (fold_left
                 (fun s0 (e : Txid * Z) =>
                    if existsb (eqb_of e) hist then s0
                    else remove_spv_proof_for_tx (fst e)
                           (with_verified_tx (with_unverified_tx s0 (dpop (fst e) (unverified_tx s0)))
                              (dpop (fst e)
                                 (verified_tx (with_unverified_tx s0 (dpop (fst e) (unverified_tx s0)))))))
                 l s0)).
  { induction l as [|e l IH]; intros s0 Hd0; simpl; [assumption|].
    apply IH. destruct (existsb (eqb_of e) hist); [assumption|].
    apply disjoint_remove_spv. apply verification_disjoint_iff. intros k.
    pose proof (proj1 (verification_disjoint_iff _) Hd0 k) as Hk. clear Hd0. rename Hk into Hd0. unfold disjoint_at in *. simpl.
    rewrite !dget_dpop. destruct (eq_dec k (fst e)); tauto. }
  specialize (Hfold (get_address_history s addr) s Hd).
  intros t. simpl. apply Hfold.
Qed.

(** An invariant of the engine holds in whatever engine an outcome carries. *)
Definition outcome_inv {A : Type} (P : AddressSynchronizer -> Prop) (o : outcome A) : Prop :=
  match o with
  | Ret _ s1 => P s1
  | Raise _ s1 => P s1
  | OutOfFuel => True
  end.

Lemma outcome_inv_bind {A B : Type} (P : AddressSynchronizer -> Prop) (m : outcome A)
    (k : A -> AddressSynchronizer -> outcome B) :
  outcome_inv P m -> (forall a s1, P s1 -> outcome_inv P (k a s1)) -> outcome_inv P (bind m k).
Proof. destruct m; simpl; auto. Qed.

Lemma outcome_inv_for_each {A : Type} (P : AddressSynchronizer -> Prop)
    (body : A -> AddressSynchronizer -> outcome unit) (l : list A) :
  (forall a s, P s -> outcome_inv P (body a s)) ->
  forall s, P s -> outcome_inv P (for_each body l s).
Proof.
  intros Hbody. induction l as [|a l IH]; intros s Hs; simpl; [assumption|].
  apply outcome_inv_bind; [apply Hbody; assumption|]. intros _ s1 Hs1. apply IH. assumption.
Qed.

Lemma outcome_inv_framed {A : Type} (P : AddressSynchronizer -> Prop) s (o : outcome A) :
  (forall s', same_primary s s' -> P s') -> framed s o -> outcome_inv P o.
Proof. intros HP. destruct o; simpl; intros Hf; [auto|apply HP; tauto|trivial]. Qed.

Lemma framed_add_transaction_any fuel t tx allow s :
  outcome_inv (same_primary s) (add_transaction fuel t tx allow s).
Proof.
  destruct allow.
  - eapply outcome_inv_framed; [|apply framed_add_transaction_related]. auto.
  - destruct (existsb (fun txin => is_mine s (get_txin_address s txin)) (inputs tx)) eqn:Hi.
    + rewrite add_transaction_related_eq by (left; exact Hi).
      eapply outcome_inv_framed; [|apply framed_add_transaction_related]. auto.
    + destruct (existsb (fun o => is_mine s (get_txout_address o)) (outputs tx)) eqn:Ho.
      * rewrite add_transaction_related_eq by (right; exact Ho).
        eapply outcome_inv_framed; [|apply framed_add_transaction_related]. auto.
      * unfold add_transaction.
        destruct (negb (truthy t)); [apply same_primary_refl|].
        destruct (negb (is_complete tx)); [apply same_primary_refl|].
        destruct (inputs tx) as [|txin0 ins] eqn:Hins; [apply same_primary_refl|].
        rewrite Hi, Ho. simpl. apply same_primary_refl.
Qed.

Lemma disjoint_add_transaction fuel t tx allow s :
  verification_disjoint s ->
  outcome_inv verification_disjoint (add_transaction fuel t tx allow s).
Proof.
  intros Hd. pose proof (framed_add_transaction_any fuel t tx allow s) as Hf.
  destruct (add_transaction fuel t tx allow s); simpl in *; trivial;
    eapply disjoint_same_primary; eassumption.
Qed.

Lemma disjoint_receive_history_callback fuel addr hist fees s :
  verification_disjoint s ->
  outcome_inv verification_disjoint (receive_history_callback fuel addr hist fees s).
Proof.
  intros Hd. unfold receive_history_callback. apply outcome_inv_bind.
  - apply outcome_inv_for_each; [|apply disjoint_forget_retracted; assumption].
    intros e s0 Hd0.
    pose proof (disjoint_add_unverified_tx (fst e) (snd e) s0 Hd0) as Hd1.
    destruct (dget (fst e) (transactions (add_unverified_tx (fst e) (snd e) s0))) as [tx|];
      [|exact Hd1].
    apply outcome_inv_bind; [apply disjoint_add_transaction; assumption|].
    intros _ s1 Hs1. exact Hs1.
  - intros _ s2 Hd2. simpl. exact Hd2.
Qed.

Lemma disjoint_exec fuel op s :
  verification_disjoint s -> outcome_inv verification_disjoint (exec fuel op s).
Proof.
  intros Hd. destruct op; simpl.
  - apply disjoint_add_unverified_tx; assumption.
  - apply disjoint_remove_unverified_tx; assumption.
  - apply disjoint_add_verified_tx; assumption.
  - apply disjoint_undo_verifications; assumption.
  - apply disjoint_receive_history_callback; assumption.
  - unfold receive_tx_callback. apply outcome_inv_bind.
    + apply disjoint_add_transaction. apply disjoint_add_unverified_tx. assumption.
    + intros _ s1 Hs1. exact Hs1.
  - apply outcome_inv_bind; [apply disjoint_add_transaction; assumption|].
    intros _ s1 Hs1. exact Hs1.
  - eapply outcome_inv_framed; [|apply framed_remove_transaction].
    intros s' Hs'. eapply disjoint_same_primary; eassumption.
  - intros t Hv. simpl in Hv. destruct Hv.
Qed.

(** C7. When the keys of [verified_tx] and [unverified_tx] are disjoint,
    they are still disjoint after [add_unverified_tx], after
    [add_verified_tx], after [undo_verifications], after
    [receive_history_callback], and after any sequence of public operations. *)
Theorem verified_unverified_disjoint :
  forall s,
    verification_disjoint s ->
    (forall tx_hash tx_height, verification_disjoint (add_unverified_tx tx_hash tx_height s))
    /\ (forall tx_hash info, verification_disjoint (add_verified_tx tx_hash info s))
    /\ (forall blockchain reorg_height,
          verification_disjoint (snd (undo_verifications blockchain reorg_height s)))
    /\ (forall fuel addr hist fees s',
          state_after (receive_history_callback fuel addr hist fees s) = Some s' ->
          verification_disjoint s')
    /\ (forall fuel ops s', run fuel ops s = Some s' -> verification_disjoint s').
Proof.
  intros s Hd. repeat split.
  - intros. apply disjoint_add_unverified_tx; assumption.
  - intros. apply disjoint_add_verified_tx; assumption.
  - intros. apply disjoint_undo_verifications; assumption.
  - intros fuel addr hist fees s' Hafter.
    pose proof (disjoint_receive_history_callback fuel addr hist fees s Hd) as Hinv.
    destruct (receive_history_callback fuel addr hist fees s); simpl in *;
      [injection Hafter as <-; exact Hinv|injection Hafter as <-; exact Hinv|discriminate].
  - intros fuel ops. revert s Hd. induction ops as [|op ops IH]; intros s Hd s' Hrun; simpl in Hrun.
    + injection Hrun as <-. exact Hd.
    + pose proof (disjoint_exec fuel op s Hd) as Hinv.
      destruct (exec fuel op s) as [u s1|e s1|]; simpl in *; [| |discriminate];
        eapply IH; eassumption.
Qed.

(** ** Wallet delta and fee *)

Lemma wallet_delta_inputs_mine s ins : forall vs a,
  Forall2 (fun txin v => exists addr,
             get_txin_address s txin = Some addr
             /\ is_mine s (Some addr) = true
             /\ prev_output_value s txin addr = Some v) ins vs ->
  fold_left (wallet_delta_input s) ins a
  = match ins with
    | [] => a
    | _ :: _ => mkDeltaAcc true true (acc_is_pruned a) (acc_is_partial a) (acc_v_in a + Zsum vs)
    end.
Proof.
  induction ins as [|txin ins IH]; intros vs a Hall; [reflexivity|].
  inversion Hall as [|? v ? vs' [addr [Haddr [Hmine Hval]]] Hrest]; subst.
  simpl fold_left. rewrite (IH vs' _ Hrest).
  unfold wallet_delta_input at 1 2 3 4. rewrite Haddr, Hmine, Hval. simpl.
  destruct ins as [|txin' ins'].
  - inversion Hrest; subst. simpl. f_equal. lia.
  - f_equal. lia.
Qed.

Lemma wallet_delta_outputs s outs : forall r v_out v_out_mine,
  fold_left (wallet_delta_output s) outs (r, v_out, v_out_mine)
  = (r || existsb (fun o => is_mine s (Some (address o))) outs,
     v_out + Zsum (map value outs),
     v_out_mine + Zsum (map value (filter (fun o => is_mine s (Some (address o))) outs))).
Proof.
  induction outs as [|o outs IH]; intros r v_out v_out_mine.
  - simpl. rewrite orb_false_r. f_equal; [f_equal|]; lia.
  - cbn [fold_left].
    replace (wallet_delta_output s (r, v_out, v_out_mine) o)
      with (if is_mine s (Some (address o))
            then (true, v_out + value o, v_out_mine + value o)
            else (r, v_out + value o, v_out_mine)) by reflexivity.
    cbn [map filter existsb].
    destruct (is_mine s (Some (address o))) eqn:Hm; rewrite IH; cbn [map Zsum fold_right].
    all: unfold Zsum; rewrite !Z.add_assoc; destruct r; reflexivity.
Qed.

(** What [get_wallet_delta] answers when every input is a known output of the
    wallet. *)
Lemma get_wallet_delta_all_mine s tx vs :
  inputs tx <> [] ->
  Forall2 (fun txin v => exists addr,
             get_txin_address s txin = Some addr
             /\ is_mine s (Some addr) = true
             /\ prev_output_value s txin addr = Some v) (inputs tx) vs ->
  get_wallet_delta s tx
  = (true, true,
     Zsum (map value (filter (fun o => is_mine s (Some (address o))) (outputs tx))) - Zsum vs,
     Some (Zsum vs - Zsum (map value (outputs tx)))).
Proof.
  intros Hne Hall. unfold get_wallet_delta.
  rewrite (wallet_delta_inputs_mine s (inputs tx) vs _ Hall).
  destruct (inputs tx) as [|txin ins]; [congruence|]. simpl.
  rewrite wallet_delta_outputs. simpl. reflexivity.
Qed.

(** C5, as the code has it.  For a complete transaction all of whose inputs
    spend outputs of the wallet with known values totalling 1000, whose
    outputs total 900, 100 of it paid to addresses of the wallet,
    [get_wallet_delta] answers [(True, True, -900, 100)]: the value is what
    the wallet receives minus what it spends, 100 - 1000.  [get_tx_fee]
    answers 100 and stores it on the transaction, where a later call finds
    it. *)
Theorem wallet_delta_fee_scenario :
  forall s tx (vs : list Z),
    is_complete tx = true ->
    inputs tx <> [] ->
    Forall2 (fun txin v => exists addr,
               get_txin_address s txin = Some addr
               /\ is_mine s (Some addr) = true
               /\ prev_output_value s txin addr = Some v) (inputs tx) vs ->
    Zsum vs = 1000 ->
    Zsum (map value (outputs tx)) = 900 ->
    Zsum (map value (filter (fun o => is_mine s (Some (address o))) (outputs tx))) = 100 ->
    _cached_fee tx = None ->
    get_wallet_delta s tx = (true, true, -900, Some 100)
    /\ exists tx',
         get_tx_fee s (Some tx) = (Some 100, Some tx')
         /\ _cached_fee tx' = Some 100
         /\ get_tx_fee s (Some tx') = (Some 100, Some tx').
Proof.
  intros s tx vs _ Hne Hall Hin Hout Hmine Hcache.
  pose proof (get_wallet_delta_all_mine s tx vs Hne Hall) as Hdelta.
  rewrite Hin, Hout, Hmine in Hdelta. simpl in Hdelta.
  split; [exact Hdelta|].
  unfold get_tx_fee at 1. rewrite Hcache, Hdelta.
  eexists. split; [reflexivity|]. split; reflexivity.
Qed.

(** ** The ordered history *)

(** Rows in chronological order: no row's key is less than the key of a row
    before it. *)
Definition chronological s (rows : list history_row) : Prop :=
  StronglySorted
    (fun r1 r2 => key_lt (get_txpos s (row_txid r2)) (get_txpos s (row_txid r1)) = Some false)
    rows.

Lemma key_lt_refl (a : txpos_key) : key_lt a a = Some false.
Proof.
  unfold key_lt. rewrite Z.eqb_refl. destruct (snd a) as [x|]; simpl; [|reflexivity].
  rewrite Z.ltb_irrefl. reflexivity.
Qed.

Lemma key_lt_none_sym (a b : txpos_key) : key_lt a b = None -> key_lt b a = None.
Proof.
  unfold key_lt. rewrite (Z.eqb_sym (fst b) (fst a)).
  destruct (Z.eqb (fst a) (fst b)); [|discriminate].
  destruct (snd a), (snd b); simpl; congruence.
Qed.

Lemma key_lt_asym (a b : txpos_key) : key_lt a b = Some true -> key_lt b a = Some false.
Proof.
  unfold key_lt. rewrite (Z.eqb_sym (fst b) (fst a)).
  destruct (Z.eqb (fst a) (fst b)) eqn:He.
  - destruct (snd a) as [x|], (snd b) as [y|]; simpl; try discriminate.
    intros [= Hlt]. apply Z.ltb_lt in Hlt. f_equal. apply Z.ltb_ge. lia.
  - intros [= Hlt]. apply Z.ltb_lt in Hlt. f_equal. apply Z.ltb_ge. lia.
Qed.

(** [a >= b >= c] gives [a >= c], the comparisons being defined. *)
Lemma key_ge_trans (a b c : txpos_key) :
  key_lt a b = Some false -> key_lt b c = Some false -> key_lt a c = Some false.
Proof.
  destruct a as [ha pa], b as [hb pb], c as [hc pc]. unfold key_lt. cbn [fst snd].
  destruct (Z.eqb ha hb) eqn:Hab; destruct (Z.eqb hb hc) eqn:Hbc;
    destruct (Z.eqb ha hc) eqn:Hac;
    repeat match goal with
           | H : (_ =? _) = true |- _ => apply Z.eqb_eq in H
           | H : (_ =? _) = false |- _ => apply Z.eqb_neq in H
           end;
    destruct pa as [x|], pb as [y|], pc as [z|]; cbn [opt_lt];
    intros H1 H2; try discriminate; try reflexivity;
    repeat match goal with
           | H : Some _ = Some _ |- _ => injection H as H
           end;
    repeat match goal with
           | H : (_ <? _) = false |- _ => apply Z.ltb_ge in H
           end;
    try (f_equal; apply Z.ltb_ge; lia); try lia.
Qed.

Section SortDesc.
Context {A : Type} (key : A -> txpos_key).

(** [x] is not less than [y]. *)
Definition key_ge (x y : A) : Prop := key_lt (key x) (key y) = Some false.

(** Two elements of the list that [<] cannot compare. *)
Definition incomparable (l : list A) : Prop :=
  exists x y, In x l /\ In y l /\ key_lt (key x) (key y) = None.

Lemma insert_desc_inr x l : forall r,
  insert_desc key x l = inr r ->
  Permutation (x :: l) r
  /\ (StronglySorted key_ge l ->
      StronglySorted key_ge r /\ forall y, In y l -> key_lt (key x) (key y) <> None).
Proof.
  induction l as [|z l IH]; intros r; simpl.
  - intros [= <-]. split; [apply Permutation_refl|]. intros _. split; [|intros y []].
    constructor; [constructor|constructor].
  - destruct (key_lt (key x) (key z)) as [[|]|] eqn:Hxz; [| |discriminate].
    + destruct (insert_desc key x l) as [e|l1] eqn:Hins; [discriminate|].
      intros [= <-]. destruct (IH l1 eq_refl) as [Hperm Hsorted].
      split.
      * eapply Permutation_trans; [apply perm_swap|]. apply perm_skip. exact Hperm.
      * intros Hs. apply StronglySorted_inv in Hs. destruct Hs as [Hs Hall].
        destruct (Hsorted Hs) as [Hs1 Hcmp]. split.
        -- constructor; [exact Hs1|].
           rewrite Forall_forall in *. intros y Hy.
           apply (Permutation_in _ (Permutation_sym Hperm)) in Hy.
           destruct Hy as [<-|Hy]; [|apply Hall; exact Hy].
           unfold key_ge. apply key_lt_asym. exact Hxz.
        -- intros y [<-|Hy]; [congruence|apply Hcmp; exact Hy].
    + intros [= <-]. split; [apply Permutation_refl|].
      intros Hs. pose proof Hs as Hs0.
      apply StronglySorted_inv in Hs. destruct Hs as [_ Hall].
      rewrite Forall_forall in Hall.
      assert (Hge : forall y, In y (z :: l) -> key_lt (key x) (key y) = Some false).
      { intros y [<-|Hy]; [exact Hxz|].
        eapply key_ge_trans; [exact Hxz|apply (Hall y Hy)]. }
      split.
      * constructor; [exact Hs0|]. rewrite Forall_forall. exact Hge.
      * intros y Hy. rewrite (Hge y Hy). discriminate.
Qed.

Lemma insert_desc_inl x l : forall e,
  insert_desc key x l = inl e -> exists y, In y l /\ key_lt (key x) (key y) = None.
Proof.
  induction l as [|z l IH]; intros e; simpl; [discriminate|].
  destruct (key_lt (key x) (key z)) as [[|]|] eqn:Hxz.
  - destruct (insert_desc key x l) as [e'|l1]; [|discriminate].
    intros _. destruct (IH e' eq_refl) as [y [Hy Hnone]].
    exists y. split; [right; exact Hy|exact Hnone].
  - discriminate.
  - intros _. exists z. split; [left; reflexivity|exact Hxz].
Qed.

Lemma sort_desc_inr l : forall r,
  sort_desc key l = inr r ->
  Permutation l r /\ StronglySorted key_ge r /\ ~ incomparable l.
Proof.
  induction l as [|x l IH]; intros r; simpl.
  - intros [= <-]. split; [apply Permutation_refl|]. split; [constructor|].
    intros [a [b [[] _]]].
  - fold (sort_desc key l). destruct (sort_desc key l) as [e|r1]; [discriminate|].
    intros Hins. destruct (IH r1 eq_refl) as [Hperm [Hsorted Hno]].
    destruct (insert_desc_inr x r1 r Hins) as [Hperm1 Hrest].
    destruct (Hrest Hsorted) as [Hsorted1 Hcmp]. split; [|split].
    + eapply Permutation_trans; [apply perm_skip; exact Hperm|exact Hperm1].
    + exact Hsorted1.
    + intros [a [b [[<-|Ha] [[<-|Hb] Hnone]]]].
      * rewrite key_lt_refl in Hnone. discriminate.
      * apply (Hcmp b); [apply (Permutation_in _ Hperm); exact Hb|exact Hnone].
      * apply (Hcmp a); [apply (Permutation_in _ Hperm); exact Ha|].
        apply key_lt_none_sym. exact Hnone.
      * apply Hno. exists a, b. split; [exact Ha|]. split; [exact Hb|exact Hnone].
Qed.

Lemma sort_desc_inl l : forall e, sort_desc key l = inl e -> incomparable l.
Proof.
  induction l as [|x l IH]; intros e; simpl; [discriminate|].
  fold (sort_desc key l). destruct (sort_desc key l) as [e'|r1] eqn:Hsort.
  - intros _. destruct (IH e' eq_refl) as [a [b [Ha [Hb Hnone]]]].
    exists a, b. split; [right; exact Ha|]. split; [right; exact Hb|exact Hnone].
  - intros Hins. destruct (insert_desc_inl x r1 e Hins) as [y [Hy Hnone]].
    destruct (sort_desc_inr l r1 Hsort) as [Hperm _].
    exists x, y. split; [left; reflexivity|]. split; [|exact Hnone].
    right. apply (Permutation_in _ (Permutation_sym Hperm)). exact Hy.
Qed.

(** The sort raises exactly when the list holds two elements that [<]
    cannot compare; otherwise it returns the elements in descending order. *)
Lemma sort_desc_spec l :
  (sort_desc key l = inl TypeError <-> incomparable l)
  /\ (forall r, sort_desc key l = inr r -> Permutation l r /\ StronglySorted key_ge r)
  /\ (~ incomparable l -> exists r, sort_desc key l = inr r).
Proof.
  split; [|split].
  - split; [apply sort_desc_inl|]. intros Hinc.
    destruct (sort_desc key l) as [[]|r] eqn:Hsort; [reflexivity|].
    destruct (sort_desc_inr l r Hsort) as [_ [_ Hno]]. contradiction.
  - intros r Hsort. destruct (sort_desc_inr l r Hsort) as [Hperm [Hsorted _]].
    split; assumption.
  - intros Hno. destruct (sort_desc key l) as [e|r] eqn:Hsort; [|exists r; reflexivity].
    exfalso. apply Hno. apply (sort_desc_inl l e Hsort).
Qed.
End SortDesc.

Lemma StronglySorted_app {A : Type} (R : A -> A -> Prop) l1 l2 :
  StronglySorted R l1 -> StronglySorted R l2 ->
  (forall x y, In x l1 -> In y l2 -> R x y) ->
  StronglySorted R (l1 ++ l2).
Proof.
  induction l1 as [|a l1 IH]; intros H1 H2 Hcross; simpl; [exact H2|].
  apply StronglySorted_inv in H1. destruct H1 as [H1 Hall].
  constructor.
  - apply IH; [exact H1|exact H2|]. intros x y Hx Hy. apply Hcross; [right; exact Hx|exact Hy].
  - apply Forall_app. split; [exact Hall|].
    rewrite Forall_forall. intros y Hy. apply Hcross; [left; reflexivity|exact Hy].
Qed.

Lemma StronglySorted_rev {A : Type} (R : A -> A -> Prop) l :
  StronglySorted R l -> StronglySorted (fun x y => R y x) (rev l).
Proof.
  induction l as [|a l IH]; intros Hs; simpl; [constructor|].
  apply StronglySorted_inv in Hs. destruct Hs as [Hs Hall].
  apply StronglySorted_app.
  - apply IH. exact Hs.
  - constructor; [constructor|constructor].
  - intros x y Hx [<-|[]]. rewrite Forall_forall in Hall. apply Hall.
    apply in_rev. exact Hx.
Qed.

Lemma StronglySorted_map {A B : Type} (f : A -> B) (R : B -> B -> Prop) l :
  StronglySorted (fun x y => R (f x) (f y)) l <-> StronglySorted R (map f l).
Proof.
  induction l as [|a l IH]; simpl; [split; constructor|].
  split; intros Hs; apply StronglySorted_inv in Hs; destruct Hs as [Hs Hall];
    (constructor; [apply IH; exact Hs|]).
  - rewrite Forall_forall in *. intros y Hy. apply in_map_iff in Hy.
    destruct Hy as [x [<- Hx]]. apply Hall. exact Hx.
  - rewrite Forall_forall in *. intros x Hx. apply Hall. apply in_map. exact Hx.
Qed.

Lemma add_balance_txids items : forall balance omni_balance,
  map row_txid (fst (add_balance items balance omni_balance)) = map item_txid items.
Proof.
  induction items as [|[[[tx_hash st] delta] od] items IH]; intros balance omni_balance;
    [reflexivity|].
  simpl. specialize (IH (match balance with
                         | Some b => match delta with Some d => Some (b - d) | None => None end
                         | None => None
                         end)
                        (if Z.eqb od 0 then omni_balance else omni_balance - od)).
  destruct (add_balance items _ _) as [h2 final]. simpl in *. f_equal. exact IH.
Qed.


(** ** Histories reported by the server *)

Definition retract_step (hist : list (Txid * Z)) s0 (e : Txid * Z) : AddressSynchronizer :=
  if existsb (eqb_of e) hist then s0
  else
    let s01 := with_unverified_tx s0 (dpop (fst e) (unverified_tx s0)) in
    let s02 := with_verified_tx s01 (dpop (fst e) (verified_tx s01)) in
    remove_spv_proof_for_tx (fst e) s02.

Lemma forget_retracted_unfold addr hist s :
  forget_retracted addr hist s
  = with_history (fold_left (retract_step hist) (get_address_history s addr) s)
      (dset addr hist (history (fold_left (retract_step hist) (get_address_history s addr) s))).
Proof. reflexivity. Qed.

Lemma existsb_eqb_of_false {K : Type} `{EqDec K} (e : K) (l : list K) :
  existsb (eqb_of e) l = false <-> ~ In e l.
Proof.
  split.
  - intros Hf Hin. assert (Ht : existsb (eqb_of e) l = true).
    { apply existsb_exists. exists e. split; [exact Hin|apply eqb_of_refl]. }
    congruence.
  - intros Hn. destruct (existsb (eqb_of e) l) eqn:Hex; [|reflexivity].
    apply existsb_exists in Hex. destruct Hex as [x [Hin Hx]].
    apply (proj1 (eqb_of_true e x)) in Hx. subst x. contradiction.
Qed.

(** What the engine has forgotten about a transaction. *)
Definition forgotten (t : Txid) s : Prop :=
  dget t (verified_tx s) = None
  /\ dget t (unverified_tx s) = None
  /\ (verifier s = None \/ exists released, verifier s = Some released /\ In t released).

Lemma retract_step_verifier hist s0 e :
  match verifier s0 with
  | None => verifier (retract_step hist s0 e) = None
  | Some released =>
      exists more, verifier (retract_step hist s0 e) = Some (released ++ more)
  end.
Proof.
  unfold retract_step, remove_spv_proof_for_tx.
  destruct (existsb (eqb_of e) hist).
  - destruct (verifier s0) as [released|] eqn:Hver; [|reflexivity].
    exists []. rewrite app_nil_r. reflexivity.
  - simpl. destruct (verifier s0) as [released|] eqn:Hver; simpl;
      [|first [reflexivity|exact Hver]].
    exists [fst e]. reflexivity.
Qed.

Lemma retract_step_keeps_forgotten hist t s0 e :
  forgotten t s0 -> forgotten t (retract_step hist s0 e).
Proof.
  unfold forgotten. intros [Hv [Hu Hr]].
  pose proof (retract_step_verifier hist s0 e) as Hver.
  assert (Hmaps : dget t (verified_tx (retract_step hist s0 e)) = None
                  /\ dget t (unverified_tx (retract_step hist s0 e)) = None).
  { unfold retract_step, remove_spv_proof_for_tx.
    destruct (existsb (eqb_of e) hist); [tauto|].
    simpl. destruct (verifier s0); simpl; rewrite !dget_dpop;
      destruct (eq_dec t (fst e)); tauto. }
  destruct Hmaps as [Hv' Hu']. split; [exact Hv'|]. split; [exact Hu'|].
  destruct Hr as [Hnone|[released [Hsome Hin]]].
  - rewrite Hnone in Hver. left. exact Hver.
  - rewrite Hsome in Hver. destruct Hver as [more Hmore]. right.
    exists (released ++ more). split; [exact Hmore|]. apply in_or_app. left. exact Hin.
Qed.

Lemma retract_step_forgets hist s0 e :
  ~ In e hist -> forgotten (fst e) (retract_step hist s0 e).
Proof.
  intros Hn. apply existsb_eqb_of_false in Hn.
  unfold forgotten, retract_step, remove_spv_proof_for_tx. rewrite Hn. simpl.
  destruct (verifier s0) as [released|] eqn:Hver; simpl.
  - rewrite !dget_dpop_same. split; [reflexivity|]. split; [reflexivity|].
    right. exists (released ++ [fst e]). split; [reflexivity|].
    apply in_or_app. right. left. reflexivity.
  - rewrite !dget_dpop_same, Hver. split; [reflexivity|]. split; [reflexivity|].
    left. reflexivity.
Qed.

Lemma retract_fold_keeps hist t l : forall s0,
  forgotten t s0 -> forgotten t (fold_left (retract_step hist) l s0).
Proof.
  induction l as [|e l IH]; intros s0 Hf; simpl; [exact Hf|].
  apply IH. apply retract_step_keeps_forgotten. exact Hf.
Qed.

Lemma retract_fold_forgets hist e l : forall s0,
  In e l -> ~ In e hist -> forgotten (fst e) (fold_left (retract_step hist) l s0).
Proof.
  induction l as [|e' l IH]; intros s0 Hin Hn; simpl; [destruct Hin|].
  destruct Hin as [->|Hin].
  - apply retract_fold_keeps. apply retract_step_forgets. exact Hn.
  - apply IH; assumption.
Qed.

Lemma history_add_unverified_tx t h s : history (add_unverified_tx t h s) = history s.
Proof.
  unfold add_unverified_tx, remove_spv_proof_for_tx.
  destruct (dmem t (verified_tx s)); [|reflexivity].
  destruct (_ || _); [|reflexivity]. simpl. destruct (verifier s); reflexivity.
Qed.

Lemma history_after_add_transaction fuel t tx allow s :
  outcome_inv (fun s' => history s' = history s) (add_transaction fuel t tx allow s).
Proof.
  pose proof (framed_add_transaction_any fuel t tx allow s) as Hf.
  destruct (add_transaction fuel t tx allow s); simpl in *; trivial;
    unfold same_primary in Hf; tauto.
Qed.

(** The proofs the verifier was told to release between two states of the
    engine: the log only grows. *)
Definition verifier_extends s0 s' : Prop :=
  match verifier s0 with
  | None => verifier s' = None
  | Some released => exists more, verifier s' = Some (released ++ more)
  end.

(** Between the two states the verifier, when there is one, was told to
    release the proof of [t]. *)
Definition released_between s0 s' (t : Txid) : Prop :=
  match verifier s0 with
  | None => verifier s' = None
  | Some released => exists more, verifier s' = Some (released ++ more) /\ In t more
  end.

Lemma verifier_extends_refl s : verifier_extends s s.
Proof.
  unfold verifier_extends. destruct (verifier s) as [released|]; [|reflexivity].
  exists []. rewrite app_nil_r. reflexivity.
Qed.

Lemma verifier_extends_eq s0 s' : verifier s' = verifier s0 -> verifier_extends s0 s'.
Proof.
  intros Heq. pose proof (verifier_extends_refl s0) as Hrefl.
  unfold verifier_extends in *. rewrite Heq. exact Hrefl.
Qed.

Lemma released_then_extends s0 s1 s2 t :
  released_between s0 s1 t -> verifier_extends s1 s2 -> released_between s0 s2 t.
Proof.
  unfold released_between, verifier_extends.
  destruct (verifier s0) as [released|].
  - intros [more [-> Hin]] [more' ->]. exists (more ++ more').
    split; [rewrite app_assoc; reflexivity|]. apply in_or_app. left. exact Hin.
  - intros ->. trivial.
Qed.

Lemma extends_then_released s0 s1 s2 t :
  verifier_extends s0 s1 -> released_between s1 s2 t -> released_between s0 s2 t.
Proof.
  unfold released_between, verifier_extends.
  destruct (verifier s0) as [released|].
  - intros [more ->] [more' [-> Hin]]. exists (more ++ more').
    split; [rewrite app_assoc; reflexivity|]. apply in_or_app. right. exact Hin.
  - intros ->. trivial.
Qed.

Lemma retract_step_extends hist s0 e : verifier_extends s0 (retract_step hist s0 e).
Proof. exact (retract_step_verifier hist s0 e). Qed.

Lemma retract_step_releases hist s0 e :
  ~ In e hist -> released_between s0 (retract_step hist s0 e) (fst e).
Proof.
  intros Hn. apply existsb_eqb_of_false in Hn.
  unfold released_between, retract_step, remove_spv_proof_for_tx. rewrite Hn. simpl.
  destruct (verifier s0) as [released|] eqn:Hver; simpl.
  - exists [fst e]. split; [reflexivity|left; reflexivity].
  - exact Hver.
Qed.

Lemma retract_fold_extends hist l : forall s0,
  verifier_extends s0 (fold_left (retract_step hist) l s0).
Proof.
  induction l as [|e l IH]; intros s0; simpl; [apply verifier_extends_refl|].
  pose proof (retract_step_extends hist s0 e) as H1. specialize (IH (retract_step hist s0 e)).
  unfold verifier_extends in *. destruct (verifier s0) as [released|].
  - destruct H1 as [more Hmore]. rewrite Hmore in IH. destruct IH as [more' ->].
    exists (more ++ more'). rewrite app_assoc. reflexivity.
  - rewrite H1 in IH. exact IH.
Qed.

Lemma retract_fold_releases hist e l : forall s0,
  In e l -> ~ In e hist -> released_between s0 (fold_left (retract_step hist) l s0) (fst e).
Proof.
  induction l as [|e' l IH]; intros s0 Hin Hn; simpl; [destruct Hin|].
  destruct Hin as [->|Hin].
  - apply (released_then_extends s0 (retract_step hist s0 e)).
    + apply retract_step_releases. exact Hn.
    + apply retract_fold_extends.
  - apply (extends_then_released s0 (retract_step hist s0 e')).
    + apply retract_step_extends.
    + apply IH; assumption.
Qed.

Lemma add_unverified_tx_extends t h s : verifier_extends s (add_unverified_tx t h s).
Proof.
  unfold add_unverified_tx, remove_spv_proof_for_tx.
  destruct (dmem t (verified_tx s)); [|apply verifier_extends_eq; reflexivity].
  destruct (_ || _); [|apply verifier_extends_refl].
  unfold verifier_extends. simpl. destruct (verifier s) as [released|] eqn:Hver; simpl.
  - exists [t]. reflexivity.
  - exact Hver.
Qed.

Lemma add_unverified_tx_keeps_unlisted t h t' s :
  dget t' (verified_tx s) = None ->
  dget t' (verified_tx (add_unverified_tx t h s)) = None.
Proof.
  intros Hnone. unfold add_unverified_tx, remove_spv_proof_for_tx.
  destruct (dmem t (verified_tx s)); [|exact Hnone].
  destruct (_ || _); [|exact Hnone].
  simpl. destruct (verifier s); simpl; rewrite dget_dpop;
    destruct (eq_dec t' t); [reflexivity|exact Hnone|reflexivity|exact Hnone].
Qed.

Lemma add_unverified_tx_unverified t h t' s :
  dget t' (unverified_tx (add_unverified_tx t h s)) = dget t' (unverified_tx s)
  \/ (t' = t /\ dget t' (unverified_tx (add_unverified_tx t h s)) = Some h).
Proof.
  unfold add_unverified_tx, remove_spv_proof_for_tx.
  destruct (dmem t (verified_tx s)).
  - left. destruct (_ || _); [|reflexivity]. simpl. destruct (verifier s); reflexivity.
  - simpl. destruct (eq_dec t' t) as [->|Hne].
    + right. split; [reflexivity|apply dget_dset_same].
    + left. apply dget_dset_other. exact Hne.
Qed.

Lemma transactions_add_unverified_tx t h s :
  transactions (add_unverified_tx t h s) = transactions s.
Proof.
  unfold add_unverified_tx, remove_spv_proof_for_tx.
  destruct (dmem t (verified_tx s)); [|reflexivity].
  destruct (_ || _); [|reflexivity]. simpl. destruct (verifier s); reflexivity.
Qed.

Lemma transactions_retract_fold hist l : forall s0,
  transactions (fold_left (retract_step hist) l s0) = transactions s0.
Proof.
  induction l as [|e l IH]; intros s0; simpl; [reflexivity|].
  rewrite IH. unfold retract_step, remove_spv_proof_for_tx.
  destruct (existsb (eqb_of e) hist); [reflexivity|].
  simpl. destruct (verifier s0); reflexivity.
Qed.

Lemma outcome_inv_for_each_in {A : Type} (P : AddressSynchronizer -> Prop)
    (body : A -> AddressSynchronizer -> outcome unit) (l : list A) :
  (forall a s, In a l -> P s -> outcome_inv P (body a s)) ->
  forall s, P s -> outcome_inv P (for_each body l s).
Proof.
  induction l as [|a l IH]; intros Hbody s Hs; simpl; [assumption|].
  apply outcome_inv_bind; [apply Hbody; [left; reflexivity|assumption]|].
  intros _ s1 Hs1. apply IH; [|assumption].
  intros a' s' Hin. apply Hbody. right. exact Hin.
Qed.

Lemma for_each_returns {A : Type} (P : AddressSynchronizer -> Prop)
    (body : A -> AddressSynchronizer -> outcome unit) (l : list A) :
  (forall a s, In a l -> P s -> exists s', body a s = Ret tt s' /\ P s') ->
  forall s, P s -> exists s', for_each body l s = Ret tt s' /\ P s'.
Proof.
  induction l as [|a l IH]; intros Hbody s Hs; simpl.
  - exists s. split; [reflexivity|exact Hs].
  - destruct (Hbody a s (or_introl eq_refl) Hs) as [s1 [Hret Hs1]]. rewrite Hret. simpl.
    apply IH; [|exact Hs1]. intros a' s' Hin. apply Hbody. right. exact Hin.
Qed.

(** What the engine knows of a retracted transaction [t] from the end of the
    block under the lock to the end of the call. *)
Definition retracted (addr : Address) (hist : list (Txid * Z)) s0 (t : Txid) s' : Prop :=
  dget addr (history s') = Some hist
  /\ dget t (verified_tx s') = None
  /\ released_between s0 s' t
  /\ (dget t (unverified_tx s') = None
      \/ exists h', In (t, h') hist /\ dget t (unverified_tx s') = Some h').

Lemma retracted_forget_retracted addr hist s tx_hash h :
  In (tx_hash, h) (get_address_history s addr) ->
  ~ In (tx_hash, h) hist ->
  retracted addr hist s tx_hash (forget_retracted addr hist s).
Proof.
  intros Hin Hn. rewrite forget_retracted_unfold.
  destruct (retract_fold_forgets hist (tx_hash, h) (get_address_history s addr) s Hin Hn)
    as [Hv [Hu _]].
  pose proof (retract_fold_releases hist (tx_hash, h) (get_address_history s addr) s Hin Hn)
    as Hrel.
  unfold retracted. cbn [fst] in *. split; [simpl; apply dget_dset_same|].
  split; [exact Hv|]. split; [exact Hrel|]. left. exact Hu.
Qed.

Lemma retracted_same_primary addr hist s0 t s1 s2 :
  same_primary s1 s2 -> retracted addr hist s0 t s1 -> retracted addr hist s0 t s2.
Proof.
  unfold same_primary, retracted, released_between.
  intros [Hh [Hv [Hu [_ [Hver _]]]]]. rewrite Hh, Hv, Hu, Hver. tauto.
Qed.

(** C3, as the code has it.  [receive_history_callback] takes the old history
    from [get_address_history]: the transactions of the local history of the
    address, each with the height [get_tx_height] gives it.  Every such pair
    that is not in the new history is removed from [verified_tx] and from
    [unverified_tx] by the block that runs under the lock, and the verifier,
    when there is one, is told to release its proof; the block then stores the
    new history under the address.  When the call ends, by a return or by an
    exception of [add_transaction], the new history is still stored under the
    address, the retracted transaction is still out of [verified_tx], the
    verifier has been told during the call to release its proof, and the
    transaction is out of [unverified_tx] unless the new history lists it at
    another height, which the second loop has then recorded.  The call
    returns when the engine holds none of the transactions of the new
    history. *)
Theorem receive_history_callback_retracts :
  forall (fuel : nat) (addr : Address) (hist : list (Txid * Z)) (fees : dict Txid Z) s,
    (forall tx_hash h,
        In (tx_hash, h) (get_address_history s addr) ->
        ~ In (tx_hash, h) hist ->
        dget tx_hash (verified_tx (forget_retracted addr hist s)) = None
        /\ dget tx_hash (unverified_tx (forget_retracted addr hist s)) = None
        /\ (verifier (forget_retracted addr hist s) = None
            \/ exists released,
                 verifier (forget_retracted addr hist s) = Some released
                 /\ In tx_hash released))
    /\ dget addr (history (forget_retracted addr hist s)) = Some hist
    /\ (forall s2,
          state_after (receive_history_callback fuel addr hist fees s) = Some s2 ->
          dget addr (history s2) = Some hist
          /\ forall tx_hash h,
               In (tx_hash, h) (get_address_history s addr) ->
               ~ In (tx_hash, h) hist ->
               dget tx_hash (verified_tx s2) = None
               /\ (verifier s = None -> verifier s2 = None)
               /\ (forall released,
                     verifier s = Some released ->
                     exists more,
                       verifier s2 = Some (released ++ more) /\ In tx_hash more)
               /\ (dget tx_hash (unverified_tx s2) = None
                   \/ exists h',
                        In (tx_hash, h') hist
                        /\ dget tx_hash (unverified_tx s2) = Some h')
               /\ ((forall h', ~ In (tx_hash, h') hist) ->
                   dget tx_hash (unverified_tx s2) = None))
    /\ ((forall t h, In (t, h) hist -> dget t (transactions s) = None) ->
        exists s2, receive_history_callback fuel addr hist fees s = Ret tt s2).
Proof.
  intros fuel addr hist fees s. split; [|split; [|split]].
  - intros tx_hash h Hin Hn. rewrite forget_retracted_unfold.
    exact (retract_fold_forgets hist (tx_hash, h) (get_address_history s addr) s Hin Hn).
  - rewrite forget_retracted_unfold. simpl. apply dget_dset_same.
  - intros s2 Hafter.
    assert (Hinv : forall P : AddressSynchronizer -> Prop,
               (forall s1 s1', same_primary s1 s1' -> P s1 -> P s1') ->
               (forall e s1, In e hist -> P s1 ->
                             P (add_unverified_tx (fst e) (snd e) s1)) ->
               (forall s1 m, P s1 -> P (with_tx_fees s1 m)) ->
               P (forget_retracted addr hist s) -> P s2).
    { intros P Hframe Hadd Hfees Hstart.
      assert (Hout : outcome_inv P (receive_history_callback fuel addr hist fees s)).
      { unfold receive_history_callback. apply outcome_inv_bind.
        - apply outcome_inv_for_each_in; [|exact Hstart].
          intros e s1 He Hs1. cbv zeta.
          destruct (dget (fst e) (transactions _)) as [tx|]; [|apply Hadd; assumption].
          pose proof (framed_add_transaction_any fuel (fst e) tx true
                        (add_unverified_tx (fst e) (snd e) s1)) as Hfr.
          destruct (add_transaction fuel (fst e) tx true _) as [r s3|ex s3|]; simpl in *;
            [| |trivial]; apply (Hframe _ s3 Hfr); apply Hadd; assumption.
        - intros _ s3 Hs3. simpl. apply Hfees. exact Hs3. }
      destruct (receive_history_callback fuel addr hist fees s); simpl in *;
        [injection Hafter as <-; exact Hout|injection Hafter as <-; exact Hout|discriminate]. }
    split.
    + apply (Hinv (fun s' => dget addr (history s') = Some hist)).
      * intros s1 s1' [Hh _] H1. rewrite Hh. exact H1.
      * intros e s1 _ H1. rewrite history_add_unverified_tx. exact H1.
      * intros s1 m H1. exact H1.
      * rewrite forget_retracted_unfold. simpl. apply dget_dset_same.
    + intros tx_hash h Hin Hn.
      assert (Hend : retracted addr hist s tx_hash s2).
      { apply (Hinv (retracted addr hist s tx_hash)).
        - intros s1 s1' Hsame H1. exact (retracted_same_primary _ _ _ _ _ _ Hsame H1).
        - intros e s1 He [Hh [Hv [Hrel Hu]]]. unfold retracted.
          rewrite history_add_unverified_tx. split; [exact Hh|].
          split; [apply add_unverified_tx_keeps_unlisted; exact Hv|].
          split; [apply (released_then_extends s s1);
                  [exact Hrel|apply add_unverified_tx_extends]|].
          destruct (add_unverified_tx_unverified (fst e) (snd e) tx_hash s1) as [Heq|[-> Hset]].
          + rewrite Heq. exact Hu.
          + right. exists (snd e). split; [destruct e; exact He|exact Hset].
        - intros s1 m H1. exact H1.
        - exact (retracted_forget_retracted addr hist s tx_hash h Hin Hn). }
      destruct Hend as [_ [Hv [Hrel Hu]]]. unfold released_between in Hrel.
      split; [exact Hv|]. split; [|split; [|split]].
      * intros Hnone. rewrite Hnone in Hrel. exact Hrel.
      * intros released Hsome. rewrite Hsome in Hrel. exact Hrel.
      * exact Hu.
      * intros Hnot. destruct Hu as [Hu|[h' [Hin' _]]]; [exact Hu|].
        exfalso. exact (Hnot h' Hin').
  - intros Hheld. unfold receive_history_callback.
    destruct (for_each_returns (fun s' => transactions s' = transactions s)
                (fun (e : Txid * Z) s0 =>
                   let s01 := add_unverified_tx (fst e) (snd e) s0 in
                   match dget (fst e) (transactions s01) with
                   | None => Ret tt s01
                   | Some tx =>
                       ' _, s02 <- add_transaction fuel (fst e) tx true s01 ;; Ret tt s02
                   end) hist) with (s := forget_retracted addr hist s) as [s3 [Hret _]].
    + intros e s1 He Hs1. cbv zeta.
      assert (Htx : transactions (add_unverified_tx (fst e) (snd e) s1) = transactions s)
        by (rewrite transactions_add_unverified_tx; exact Hs1).
      rewrite Htx. destruct e as [t h]. cbn [fst snd] in *. rewrite (Hheld t h He).
      eexists. split; [reflexivity|exact Htx].
    + rewrite forget_retracted_unfold. simpl. apply transactions_retract_fold.
    + cbv zeta in Hret. rewrite Hret. simpl. eexists. reflexivity.
Qed.

(** ** The local history as an inverse index *)

(** Invariant P2 of the specification: the local history of an address lists
    exactly the transactions that have the address among the keys of their
    [txi] or [txo] entry. *)
Definition local_history_consistent s : Prop :=
  forall (a : Address) (t : Txid),
    In t (match dget a (_history_local s) with Some X => X | None => [] end)
    <-> (In a (dkeys (txi_of s t)) \/ In a (dkeys (txo_of s t))).

(** ** Conflicts and their dependents *)

(** Reading [spent_outpoints] through its [defaultdict] may store empty
    dictionaries; what the index records is unchanged. *)
Lemma so_sub_touch k h so : so_sub k (so_touch h so) = so_sub k so.
Proof.
  unfold so_touch, so_sub, dmem. destruct (dget h so) as [d|] eqn:Hh; [reflexivity|].
  induction so as [|[k0 d0] so IH]; simpl in *.
  - destruct (eq_dec k h); reflexivity.
  - destruct (eq_dec h k0) as [->|Hne]; [discriminate|].
    destruct (eq_dec k k0); [reflexivity|]. apply IH. exact Hh.
Qed.

(** [s'] is [s] up to such empty dictionaries. *)
Definition touched s s' : Prop :=
  s' = with_spent_outpoints s (spent_outpoints s')
  /\ forall k, so_sub k (spent_outpoints s') = so_sub k (spent_outpoints s).

Lemma touched_refl s : touched s s.
Proof. split; [destruct s; reflexivity|reflexivity]. Qed.

Lemma touched_trans s1 s2 s3 : touched s1 s2 -> touched s2 s3 -> touched s1 s3.
Proof.
  intros [H12 K12] [H23 K23]. split.
  - rewrite H23 at 1. rewrite H12. reflexivity.
  - intros k. rewrite K23. apply K12.
Qed.

Lemma touched_touch h s : touched s (with_spent_outpoints s (so_touch h (spent_outpoints s))).
Proof. split; [reflexivity|]. intros k. simpl. apply so_sub_touch. Qed.

Lemma touched_transactions s s' : touched s s' -> transactions s' = transactions s.
Proof. intros [H _]. rewrite H. reflexivity. Qed.

Lemma touched_get_tx_height s s' t : touched s s' -> get_tx_height s' t = get_tx_height s t.
Proof. intros [H _]. rewrite H. reflexivity. Qed.

(** The transactions that spend an output of [h], as the index has them. *)
Definition children (so : spent_outpoints_t) (h : Txid) : list Txid :=
  map snd (so_sub h so).

(** [x] spends an output of [h], or of a transaction that depends on [h]. *)
Inductive depends_on (so : spent_outpoints_t) : Txid -> Txid -> Prop :=
| depends_child h x : In x (children so h) -> depends_on so h x
| depends_step h c x : In c (children so h) -> depends_on so c x -> depends_on so h x.

Lemma depends_on_ext so so' h x :
  (forall k, so_sub k so' = so_sub k so) -> depends_on so h x -> depends_on so' h x.
Proof.
  intros Hext Hdep. induction Hdep as [h x Hin|h c x Hin Hdep IH].
  - apply depends_child. unfold children in *. rewrite Hext. exact Hin.
  - eapply depends_step; [|exact IH]. unfold children in *. rewrite Hext. exact Hin.
Qed.

Lemma depends_on_is_child so h x : depends_on so h x -> exists h', In x (children so h').
Proof. intros Hdep. induction Hdep as [h x Hin|h c x Hin Hdep IH]; eauto. Qed.

Lemma so_lookup_child so h n x : so_lookup h n so = Some x -> In x (children so h).
Proof.
  unfold so_lookup, children. intros Hg. apply dget_In in Hg.
  apply (in_map snd) in Hg. exact Hg.
Qed.

(** Sets stay duplicate free. *)
Lemma sadd_In {A : Type} `{EqDec A} (x y : A) (X : set A) : In y (sadd x X) <-> y = x \/ In y X.
Proof. unfold sadd. rewrite set_add_iff. tauto. Qed.

Lemma sunion_In {A : Type} `{EqDec A} (y : A) (X Y : set A) :
  In y (sunion X Y) <-> In y X \/ In y Y.
Proof. unfold sunion. apply set_union_iff. Qed.

Lemma sadd_NoDup {A : Type} `{EqDec A} (x : A) (X : set A) : NoDup X -> NoDup (sadd x X).
Proof. apply set_add_nodup. Qed.

Lemma sunion_NoDup {A : Type} `{EqDec A} (X Y : set A) :
  NoDup X -> NoDup Y -> NoDup (sunion X Y).
Proof. apply set_union_nodup. Qed.

Lemma sremove_In {A : Type} `{EqDec A} (x y : A) (X : set A) :
  NoDup X -> (In y (sremove x X) <-> In y X /\ y <> x).
Proof. intros Hnd. unfold sremove. apply set_remove_iff. exact Hnd. Qed.

Lemma smem_true {A : Type} `{EqDec A} (x : A) (X : set A) : smem x X = true <-> In x X.
Proof.
  unfold smem. split; [apply set_mem_correct1|apply set_mem_correct2].
Qed.

Lemma smem_false {A : Type} `{EqDec A} (x : A) (X : set A) : smem x X = false <-> ~ In x X.
Proof.
  unfold smem. split; [apply set_mem_complete1|apply set_mem_complete2].
Qed.

(** What the loop of [get_conflicting_transactions] collects. *)
Definition spends_like tx (so : spent_outpoints_t) (c : Txid) : Prop :=
  exists txin, In txin (inputs tx)
               /\ is_coinbase_input txin = false
               /\ so_lookup (prevout_hash txin) (prevout_n txin) so = Some c.

Lemma conflicting_loop_spec ins : forall acc s C s1,
  NoDup acc ->
  conflicting_loop ins acc s = Ret C s1 ->
  touched s s1
  /\ NoDup C
  /\ (forall c, In c C <->
        In c acc
        \/ exists txin, In txin ins
                        /\ is_coinbase_input txin = false
                        /\ so_lookup (prevout_hash txin) (prevout_n txin)
                             (spent_outpoints s) = Some c).
Proof.
  induction ins as [|txin ins IH]; intros acc s C s1 Hnd Hret; simpl in Hret.
  - injection Hret as <- <-. split; [apply touched_refl|]. split; [exact Hnd|].
    intros c. split; [auto|]. intros [Hin|[txin [[] _]]]. exact Hin.
  - destruct (is_coinbase_input txin) eqn:Hcb.
    + destruct (IH _ _ _ _ Hnd Hret) as [Ht [HndC HC]]. split; [exact Ht|]. split; [exact HndC|].
      intros c. rewrite HC. split.
      * intros [Hin|[txin' [Hin' Hrest]]]; [left; exact Hin|].
        right. exists txin'. split; [right; exact Hin'|exact Hrest].
      * intros [Hin|[txin' [[<-|Hin'] [Hcb' Hlook]]]]; [left; exact Hin|congruence|].
        right. exists txin'. tauto.
    + pose proof (touched_touch (prevout_hash txin) s) as Htouch.
      set (s0 := with_spent_outpoints s (so_touch (prevout_hash txin) (spent_outpoints s))) in *.
      assert (Hlook0 : forall h n, so_lookup h n (spent_outpoints s0)
                                   = so_lookup h n (spent_outpoints s)).
      { intros h n. unfold so_lookup. destruct Htouch as [_ Hk]. rewrite Hk. reflexivity. }
      destruct (so_lookup (prevout_hash txin) (prevout_n txin) (spent_outpoints s))
        as [sp|] eqn:Hsp.
      * destruct (dmem sp (transactions s)) eqn:Hknown; [|discriminate].
        destruct (IH _ _ _ _ (sadd_NoDup sp acc Hnd) Hret) as [Ht [HndC HC]].
        split; [eapply touched_trans; eassumption|]. split; [exact HndC|].
        intros c. rewrite HC, sadd_In. split.
        -- intros [[->|Hin]|[txin' [Hin' [Hcb' Hlook]]]].
           ++ right. exists txin. split; [left; reflexivity|]. split; [exact Hcb|exact Hsp].
           ++ left. exact Hin.
           ++ right. exists txin'. split; [right; exact Hin'|]. split; [exact Hcb'|].
              rewrite <- Hlook0. exact Hlook.
        -- intros [Hin|[txin' [[<-|Hin'] [Hcb' Hlook]]]].
           ++ left. right. exact Hin.
           ++ left. left. congruence.
           ++ right. exists txin'. split; [exact Hin'|]. split; [exact Hcb'|].
              rewrite Hlook0. exact Hlook.
      * destruct (IH _ _ _ _ Hnd Hret) as [Ht [HndC HC]].
        split; [eapply touched_trans; eassumption|]. split; [exact HndC|].
        intros c. rewrite HC. split.
        -- intros [Hin|[txin' [Hin' [Hcb' Hlook]]]]; [left; exact Hin|].
           right. exists txin'. split; [right; exact Hin'|]. split; [exact Hcb'|].
           rewrite <- Hlook0. exact Hlook.
        -- intros [Hin|[txin' [[<-|Hin'] [Hcb' Hlook]]]]; [left; exact Hin|congruence|].
           right. exists txin'. split; [exact Hin'|]. split; [exact Hcb'|].
           rewrite Hlook0. exact Hlook.
Qed.

(** The conflicting transactions: the spenders, other than the transaction
    itself, that the index records for the outpoints the transaction spends. *)
Lemma get_conflicting_transactions_spec tx_hash tx s C s1 :
  get_conflicting_transactions tx_hash tx s = Ret C s1 ->
  touched s s1
  /\ NoDup C
  /\ (forall c, In c C <-> c <> tx_hash /\ spends_like tx (spent_outpoints s) c).
Proof.
  unfold get_conflicting_transactions. intros Hret.
  destruct (conflicting_loop (inputs tx) [] s) as [C0 s0|e s0|] eqn:Hloop;
    simpl in Hret; [|discriminate|discriminate].
  destruct (conflicting_loop_spec _ _ _ _ _ (NoDup_nil _) Hloop) as [Ht [Hnd HC]].
  assert (HC' : forall c, In c C0 <-> spends_like tx (spent_outpoints s) c).
  { intros c. rewrite HC. unfold spends_like. split; [intros [[]|H]; exact H|auto]. }
  destruct (smem tx_hash C0) eqn:Hmem.
  - destruct (Nat.ltb 1 (length C0)); [discriminate|]. injection Hret as <- <-.
    split; [exact Ht|]. split; [apply set_remove_nodup; exact Hnd|].
    intros c. rewrite (sremove_In tx_hash c C0 Hnd), HC'. tauto.
  - injection Hret as <- <-. split; [exact Ht|]. split; [exact Hnd|].
    apply smem_false in Hmem. intros c. rewrite <- HC'. split.
    + intros Hin. split; [|exact Hin]. intros ->. contradiction.
    + tauto.
Qed.

(** The index has no cycle: a rank decreases from a transaction to the
    transactions that spend its outputs. *)
Definition acyclic_by (rank : Txid -> nat) (so : spent_outpoints_t) : Prop :=
  forall h x, In x (children so h) -> (rank x < rank h)%nat.

Section Dependents.
Variable rank : Txid -> nat.
Variable so0 : spent_outpoints_t.
Hypothesis Hacyclic : acyclic_by rank so0.

(** The engine records what [so0] records. *)
Definition agrees s : Prop := forall k, so_sub k (spent_outpoints s) = so_sub k so0.

Lemma agrees_touched s s' : agrees s -> touched s s' -> agrees s'.
Proof. intros Ha [_ Hk] k. rewrite Hk. apply Ha. Qed.

Definition depending_ok (fuel : nat) : Prop :=
  forall h s, agrees s -> (rank h < fuel)%nat ->
    exists r s', get_depending_transactions fuel h s = Ret r s'
                 /\ touched s s' /\ NoDup r
                 /\ (forall x, In x r <-> depends_on so0 h x).

Lemma depending_fold_spec (fuel : nat) (Hrec : depending_ok fuel) :
  forall l ch s,
    (forall c, In c l -> (rank c < fuel)%nat) -> agrees s -> NoDup ch ->
    exists r s',
      fold_left (depending_step (get_depending_transactions fuel)) l (Ret ch s) = Ret r s'
      /\ touched s s' /\ NoDup r
      /\ (forall x, In x r <-> In x ch \/ exists c, In c l /\ (x = c \/ depends_on so0 c x)).
Proof.
  induction l as [|c l IH]; intros ch s Hrank Hag Hnd.
  - exists ch, s. split; [reflexivity|]. split; [apply touched_refl|]. split; [exact Hnd|].
    intros x. split; [auto|]. intros [Hin|[c [[] _]]]. exact Hin.
  - destruct (Hrec c s Hag (Hrank c (or_introl eq_refl))) as [sub [s2 [Hsub [Ht2 [Hnd2 Hin2]]]]].
    cbn [fold_left].
    replace (depending_step (get_depending_transactions fuel) (Ret ch s) c)
      with (Ret (A := set Txid) (sunion (sadd c ch) sub) s2)
      by (unfold depending_step; simpl; rewrite Hsub; reflexivity).
    destruct (IH (sunion (sadd c ch) sub) s2) as [r [s' [Hfold [Ht [Hndr Hinr]]]]].
    + intros c' Hc'. apply Hrank. right. exact Hc'.
    + eapply agrees_touched; eassumption.
    + apply sunion_NoDup; [apply sadd_NoDup; exact Hnd|exact Hnd2].
    + exists r, s'. split; [exact Hfold|]. split; [eapply touched_trans; eassumption|].
      split; [exact Hndr|]. intros x. rewrite Hinr, sunion_In, sadd_In, Hin2. split.
      * intros [[[->|Hin]|Hdep]|[c' [Hc' Hx]]].
        -- right. exists c. split; [left; reflexivity|left; reflexivity].
        -- left. exact Hin.
        -- right. exists c. split; [left; reflexivity|right; exact Hdep].
        -- right. exists c'. split; [right; exact Hc'|exact Hx].
      * intros [Hin|[c' [[<-|Hc'] Hx]]].
        -- left. left. right. exact Hin.
        -- destruct Hx as [->|Hdep]; [left; left; left; reflexivity|left; right; exact Hdep].
        -- right. exists c'. split; [exact Hc'|exact Hx].
Qed.

Lemma get_depending_transactions_spec : forall fuel, depending_ok fuel.
Proof.
  induction fuel as [|fuel IH]; intros h s Hag Hrank; [inversion Hrank|].
  simpl get_depending_transactions.
  pose proof (touched_touch h s) as Htouch.
  destruct (depending_fold_spec fuel IH (map snd (so_sub h (spent_outpoints s))) []
              (with_spent_outpoints s (so_touch h (spent_outpoints s))))
    as [r [s' [Hfold [Ht [Hnd Hin]]]]].
  - intros c Hc. rewrite (Hag h) in Hc. specialize (Hacyclic h c Hc).
    apply Nat.lt_le_trans with (rank h); [exact Hacyclic|].
    apply Nat.lt_succ_r. exact Hrank.
  - eapply agrees_touched; eassumption.
  - constructor.
  - exists r, s'. split; [exact Hfold|]. split; [eapply touched_trans; eassumption|].
    split; [exact Hnd|]. intros x. rewrite Hin. rewrite (Hag h). split.
    + intros [[]|[c [Hc [->|Hdep]]]].
      * apply depends_child. exact Hc.
      * eapply depends_step; eassumption.
    + intros Hdep. right. inversion Hdep as [h' x' Hc|h' c x' Hc Hdep']; subst.
      * exists x. split; [exact Hc|left; reflexivity].
      * exists c. split; [exact Hc|right; exact Hdep'].
Qed.

Lemma collect_fold_spec (fuel : nat) :
  forall l R0 s,
    (forall c, In c l -> (rank c < fuel)%nat) -> agrees s -> NoDup R0 ->
    exists R s',
      fold_left (collect_step fuel) l (Ret R0 s) = Ret R s'
      /\ touched s s' /\ NoDup R
      /\ (forall x, In x R <-> In x R0 \/ exists c, In c l /\ depends_on so0 c x).
Proof.
  induction l as [|c l IH]; intros R0 s Hrank Hag Hnd.
  - exists R0, s. split; [reflexivity|]. split; [apply touched_refl|]. split; [exact Hnd|].
    intros x. split; [auto|]. intros [Hin|[c [[] _]]]. exact Hin.
  - destruct (get_depending_transactions_spec fuel c s Hag (Hrank c (or_introl eq_refl)))
      as [deps [s2 [Hdeps [Ht2 [Hnd2 Hin2]]]]].
    cbn [fold_left].
    replace (collect_step fuel (Ret R0 s) c)
      with (Ret (A := set Txid) (sunion R0 deps) s2)
      by (unfold collect_step; simpl; rewrite Hdeps; reflexivity).
    destruct (IH (sunion R0 deps) s2) as [R [s' [Hfold [Ht [HndR HinR]]]]].
    + intros c' Hc'. apply Hrank. right. exact Hc'.
    + eapply agrees_touched; eassumption.
    + apply sunion_NoDup; assumption.
    + exists R, s'. split; [exact Hfold|]. split; [eapply touched_trans; eassumption|].
      split; [exact HndR|]. intros x. rewrite HinR, sunion_In, Hin2. split.
      * intros [[Hin|Hdep]|[c' [Hc' Hx]]].
        -- left. exact Hin.
        -- right. exists c. split; [left; reflexivity|exact Hdep].
        -- right. exists c'. split; [right; exact Hc'|exact Hx].
      * intros [Hin|[c' [[<-|Hc'] Hx]]].
        -- left. left. exact Hin.
        -- left. right. exact Hx.
        -- right. exists c'. split; [exact Hc'|exact Hx].
Qed.

Lemma collect_to_remove_spec (fuel : nat) C s :
  (forall c, In c C -> (rank c < fuel)%nat) -> agrees s -> NoDup C ->
  exists R s',
    collect_to_remove fuel C s = Ret R s'
    /\ touched s s' /\ NoDup R
    /\ (forall x, In x R <-> In x C \/ exists c, In c C /\ depends_on so0 c x).
Proof.
  intros Hrank Hag Hnd. unfold collect_to_remove.
  destruct (collect_fold_spec fuel C (sunion [] C) s Hrank Hag)
    as [R [s' [Hfold [Ht [HndR HinR]]]]].
  - apply sunion_NoDup; [constructor|exact Hnd].
  - exists R, s'. split; [exact Hfold|]. split; [exact Ht|]. split; [exact HndR|].
    intros x. rewrite HinR, sunion_In. split.
    + intros [[[]|Hin]|Hdep]; [left; exact Hin|right; exact Hdep].
    + intros [Hin|Hdep]; [left; right; exact Hin|right; exact Hdep].
Qed.

End Dependents.

(** ** What indexing does to [transactions] *)

Lemma fold_left_inv {A : Type} (P : AddressSynchronizer -> Prop)
    (f : AddressSynchronizer -> A -> AddressSynchronizer) (l : list A) :
  (forall s a, P s -> P (f s a)) -> forall s, P s -> P (fold_left f l s).
Proof.
  intros Hf. induction l as [|a l IH]; intros s Hs; simpl; [exact Hs|].
  apply IH. apply Hf. exact Hs.
Qed.

Lemma transactions_add_tx_to_local_history t s :
  transactions (_add_tx_to_local_history t s) = transactions s.
Proof.
  unfold _add_tx_to_local_history.
  apply (fold_left_inv (fun s' => transactions s' = transactions s)); [|reflexivity].
  intros s1 a Hs1. exact Hs1.
Qed.

Lemma transactions_remove_tx_from_local_history t s :
  transactions (_remove_tx_from_local_history t s) = transactions s.
Proof.
  unfold _remove_tx_from_local_history.
  apply (fold_left_inv (fun s' => transactions s' = transactions s)); [|reflexivity].
  intros s1 a Hs1. destruct (dget a (_history_local s1)) as [cur|]; [|exact Hs1].
  destruct (smem t cur); exact Hs1.
Qed.

Lemma transactions_add_input t s txin : transactions (add_input t s txin) = transactions s.
Proof.
  unfold add_input. destruct (is_coinbase_input txin); [reflexivity|].
  match goal with |- context [find_prevout ?a ?b] => destruct (find_prevout a b) as [[addr v]|] end;
    [|reflexivity].
  match goal with |- context [if ?c then _ else _] => destruct c end; reflexivity.
Qed.

Lemma transactions_give_value_to_spender t n addr v s :
  transactions (give_value_to_spender t n addr v s) = transactions s.
Proof.
  unfold give_value_to_spender.
  destruct (so_lookup t n (spent_outpoints s)) as [next_tx|]; [|reflexivity].
  rewrite transactions_add_tx_to_local_history.
  match goal with |- context [dget next_tx ?m] => destruct (dget next_tx m) end; reflexivity.
Qed.

Lemma transactions_add_output t cb s n o : transactions (add_output t cb s n o) = transactions s.
Proof.
  unfold add_output. destruct (get_txout_address o) as [addr|]; [|reflexivity].
  destruct (truthy addr && is_mine s (Some addr)); [|reflexivity].
  rewrite transactions_give_value_to_spender. reflexivity.
Qed.

Lemma transactions_add_outputs t cb outs : forall n s,
  transactions (add_outputs t cb n outs s) = transactions s.
Proof.
  induction outs as [|o outs IH]; intros n s; simpl; [reflexivity|].
  rewrite IH. apply transactions_add_output.
Qed.

Lemma transactions_index_transaction t tx cb s :
  transactions (index_transaction t tx cb s) = dset t tx (transactions s).
Proof.
  unfold index_transaction. simpl. rewrite transactions_add_tx_to_local_history.
  match goal with |- context [if ?c then _ else _] => destruct c end; simpl;
    rewrite transactions_add_outputs; simpl;
    rewrite (fold_left_inv (fun s' => transactions s' = transactions s) (add_input t));
    try reflexivity;
    intros s1 a Hs1; rewrite transactions_add_input; exact Hs1.
Qed.

Lemma transactions_remove_transaction_finish t s :
  transactions (remove_transaction_finish t s) = transactions s.
Proof.
  unfold remove_transaction_finish. simpl.
  rewrite transactions_remove_tx_from_local_history. reflexivity.
Qed.

(** Removing transactions that the engine has. *)
Lemma remove_known_transactions l : forall s,
  NoDup l ->
  (forall x, In x l -> dmem x (transactions s) = true) ->
  exists s',
    for_each remove_transaction l s = Ret tt s'
    /\ (forall x, In x l -> dget x (transactions s') = None)
    /\ (forall x, ~ In x l -> dget x (transactions s') = dget x (transactions s)).
Proof.
  induction l as [|t l IH]; intros s Hnd Hknown.
  - exists s. split; [reflexivity|]. split; [intros x []|reflexivity].
  - inversion Hnd as [|? ? Hnotin Hnd']; subst.
    destruct (proj1 (dmem_true t (transactions s)) (Hknown t (or_introl eq_refl))) as [tx Htx].
    simpl for_each. unfold remove_transaction at 1. rewrite Htx. simpl bind.
    set (s1 := remove_transaction_finish t _).
    assert (Htxs : transactions s1 = dpop t (transactions s)).
    { subst s1. rewrite transactions_remove_transaction_finish. reflexivity. }
    destruct (IH s1 Hnd') as [s' [Hrun [Hgone Hkept]]].
    + intros x Hx. rewrite Htxs. unfold dmem. rewrite dget_dpop_other.
      * apply (Hknown x). right. exact Hx.
      * intros ->. contradiction.
    + exists s'. split; [exact Hrun|]. split.
      * intros x [<-|Hx]; [|apply Hgone; exact Hx].
        rewrite (Hkept t Hnotin), Htxs. apply dget_dpop_same.
      * intros x Hx. rewrite Hkept by (intros Hin; apply Hx; right; exact Hin).
        rewrite Htxs. apply dget_dpop_other. intros ->. apply Hx. left. reflexivity.
Qed.

(** ** Conflict resolution in [add_transaction] *)

(** The transaction passes the relatedness check of a wallet. *)
Definition related s tx : Prop :=
  (exists txin, In txin (inputs tx) /\ is_mine s (get_txin_address s txin) = true)
  \/ (exists o, In o (outputs tx) /\ is_mine s (get_txout_address o) = true).

(** Invariant P1 of the specification: the spenders that [spent_outpoints]
    records are transactions of the wallet. *)
Definition spenders_known s : Prop :=
  forall h x, In x (children (spent_outpoints s) h) -> dmem x (transactions s) = true.

Definition confirmed_conflict s (C : set Txid) : Prop :=
  exists c, In c C /\ height (get_tx_height s c) > 0.

Definition mempool_conflict s (C : set Txid) : Prop :=
  exists c, In c C
            /\ (height (get_tx_height s c) = TX_HEIGHT_UNCONFIRMED
                \/ height (get_tx_height s c) = TX_HEIGHT_UNCONF_PARENT).

Lemma add_transaction_past_checks fuel tx_hash tx allow_unrelated s :
  truthy tx_hash = true -> is_complete tx = true -> inputs tx <> [] ->
  allow_unrelated = true \/ related s tx ->
  add_transaction fuel tx_hash tx allow_unrelated s
  = resolve_conflicts_and_index fuel tx_hash tx (height (get_tx_height s tx_hash)) s.
Proof.
  intros Htruthy Hcomplete Hins Hrel. unfold add_transaction.
  rewrite Htruthy, Hcomplete. simpl.
  destruct (inputs tx) as [|txin0 ins] eqn:Hi0; [congruence|]. rewrite <- Hi0.
  destruct Hrel as [->|[[txin [Hin Hm]]|[o [Hin Hm]]]].
  - reflexivity.
  - assert (Hex : existsb (fun txin => is_mine s (get_txin_address s txin)) (inputs tx) = true)
      by (apply existsb_exists; eauto).
    rewrite Hex. simpl. rewrite andb_false_r. reflexivity.
  - assert (Hex : existsb (fun o => is_mine s (get_txout_address o)) (outputs tx) = true)
      by (apply existsb_exists; eauto).
    rewrite Hex. simpl. rewrite andb_false_r. reflexivity.
Qed.

Lemma confirmed_conflict_iff s s1 C :
  touched s s1 ->
  existsb (fun c => Z.ltb 0 (height (get_tx_height s1 c))) C = true <-> confirmed_conflict s C.
Proof.
  intros Ht. unfold confirmed_conflict. rewrite existsb_exists. split.
  - intros [c [Hin Hc]]. exists c. split; [exact Hin|].
    rewrite (touched_get_tx_height s s1 c Ht) in Hc. apply Z.ltb_lt in Hc. lia.
  - intros [c [Hin Hc]]. exists c. split; [exact Hin|].
    rewrite (touched_get_tx_height s s1 c Ht). apply Z.ltb_lt. lia.
Qed.

Lemma mempool_conflict_iff s s1 C :
  touched s s1 ->
  existsb (fun c => is_mempool_height (height (get_tx_height s1 c))) C = true
  <-> mempool_conflict s C.
Proof.
  intros Ht. unfold mempool_conflict, is_mempool_height. rewrite existsb_exists. split.
  - intros [c [Hin Hc]]. exists c. split; [exact Hin|].
    rewrite (touched_get_tx_height s s1 c Ht) in Hc. apply orb_true_iff in Hc.
    destruct Hc as [Hc|Hc]; apply Z.eqb_eq in Hc; tauto.
  - intros [c [Hin Hc]]. exists c. split; [exact Hin|].
    rewrite (touched_get_tx_height s s1 c Ht). apply orb_true_iff.
    destruct Hc as [Hc|Hc]; rewrite Hc; [left|right]; reflexivity.
Qed.

Lemma resolve_with_conflicts fuel tx_hash tx tx_height s C s1 :
  get_conflicting_transactions tx_hash tx s = Ret C s1 ->
  C <> [] ->
  resolve_conflicts_and_index fuel tx_hash tx tx_height s
  = if existsb (fun c => Z.ltb 0 (height (get_tx_height s1 c))) C && Z.leb tx_height 0
    then Ret false s1
    else if existsb (fun c => is_mempool_height (height (get_tx_height s1 c))) C
            && Z.eqb tx_height TX_HEIGHT_LOCAL
         then Ret false s1
         else
           ' to_remove, s2 <- collect_to_remove fuel C s1 ;;
           ' _, s3 <- for_each remove_transaction to_remove s2 ;;
           Ret true (index_transaction tx_hash tx (first_input_is_coinbase tx) s3).
Proof.
  intros Hconf Hne. unfold resolve_conflicts_and_index. rewrite Hconf.
  destruct C as [|c0 C']; [congruence|]. reflexivity.
Qed.

(** C1. Let [add_transaction(txid, T)] get past its assertions and its
    relatedness check, and let the set [C] that
    [get_conflicting_transactions] finds be non-empty, in a wallet whose
    [spent_outpoints] names known transactions only and has no cycle.  If a
    member of [C] is confirmed and the height of [T] is at most 0, the call
    returns [False]; if a member of [C] is in the mempool, none is confirmed
    and [T] is local, the call returns [False]; otherwise the members of [C]
    and the transactions that depend on them through [spent_outpoints] are
    removed with [remove_transaction], [T] is indexed and the call returns
    [True]. *)
Theorem add_transaction_conflict_resolution :
  forall (fuel : nat) (rank : Txid -> nat) tx_hash tx (allow_unrelated : bool) s
         (C : set Txid) s1,
    truthy tx_hash = true ->
    is_complete tx = true ->
    allow_unrelated = true \/ related s tx ->
    get_conflicting_transactions tx_hash tx s = Ret C s1 ->
    C <> [] ->
    spenders_known s ->
    acyclic_by rank (spent_outpoints s) ->
    (forall c, In c C -> (rank c < fuel)%nat) ->
    (confirmed_conflict s C -> height (get_tx_height s tx_hash) <= 0 ->
     add_transaction fuel tx_hash tx allow_unrelated s = Ret false s1)
    /\ (mempool_conflict s C -> ~ confirmed_conflict s C ->
        height (get_tx_height s tx_hash) = TX_HEIGHT_LOCAL ->
        add_transaction fuel tx_hash tx allow_unrelated s = Ret false s1)
    /\ (~ (confirmed_conflict s C /\ height (get_tx_height s tx_hash) <= 0) ->
        ~ (mempool_conflict s C /\ ~ confirmed_conflict s C
           /\ height (get_tx_height s tx_hash) = TX_HEIGHT_LOCAL) ->
        exists to_remove s2 s3 s4,
          collect_to_remove fuel C s1 = Ret to_remove s2
          /\ (forall x, In x to_remove <->
                In x C \/ exists c, In c C /\ depends_on (spent_outpoints s) c x)
          /\ for_each remove_transaction to_remove s2 = Ret tt s3
          /\ (forall x, In x to_remove -> dget x (transactions s3) = None)
          /\ s4 = index_transaction tx_hash tx (first_input_is_coinbase tx) s3
          /\ add_transaction fuel tx_hash tx allow_unrelated s = Ret true s4
          /\ dget tx_hash (transactions s4) = Some tx
          /\ (forall x, In x to_remove -> x <> tx_hash -> dget x (transactions s4) = None)).
Proof.
  intros fuel rank tx_hash tx allow_unrelated s C s1 Htruthy Hcomplete Hrel Hconf Hne
         Hknown Hacyc Hfuel.
  destruct (get_conflicting_transactions_spec tx_hash tx s C s1 Hconf) as [Ht [HndC HC]].
  assert (Hins : inputs tx <> []).
  { intros Hnil. apply Hne. unfold get_conflicting_transactions in Hconf.
    rewrite Hnil in Hconf. simpl in Hconf. injection Hconf as <- _. reflexivity. }
  rewrite (add_transaction_past_checks fuel tx_hash tx allow_unrelated s
             Htruthy Hcomplete Hins Hrel).
  rewrite (resolve_with_conflicts fuel tx_hash tx _ s C s1 Hconf Hne).
  pose proof (confirmed_conflict_iff s s1 C Ht) as Hec.
  pose proof (mempool_conflict_iff s s1 C Ht) as Hem.
  set (th := height (get_tx_height s tx_hash)) in *.
  set (ec := existsb (fun c => Z.ltb 0 (height (get_tx_height s1 c))) C) in *.
  set (em := existsb (fun c => is_mempool_height (height (get_tx_height s1 c))) C) in *.
  split; [|split].
  - intros Hcc Hle. apply Hec in Hcc. apply Z.leb_le in Hle. rewrite Hcc, Hle. reflexivity.
  - intros Hmc Hncc Hlocal. apply Hem in Hmc.
    assert (Hec0 : ec = false).
    { destruct ec; [|reflexivity]. exfalso. apply Hncc. apply Hec. reflexivity. }
    rewrite Hec0, Hmc, Hlocal. reflexivity.
  - intros Hna Hnb.
    assert (Hif1 : ec && Z.leb th 0 = false).
    { destruct (ec && Z.leb th 0) eqn:E; [|reflexivity]. exfalso.
      apply andb_true_iff in E. destruct E as [E1 E2]. apply Hna.
      split; [apply Hec; exact E1|apply Z.leb_le; exact E2]. }
    assert (Hif2 : em && Z.eqb th TX_HEIGHT_LOCAL = false).
    { destruct (em && Z.eqb th TX_HEIGHT_LOCAL) eqn:E; [|reflexivity]. exfalso.
      apply andb_true_iff in E. destruct E as [E1 E2]. apply Z.eqb_eq in E2. apply Hnb.
      split; [apply Hem; exact E1|]. split; [|exact E2].
      intros Hcc. apply Hec in Hcc. rewrite Hcc, E2 in Hif1. discriminate. }
    rewrite Hif1, Hif2.
    destruct (collect_to_remove_spec rank (spent_outpoints s) Hacyc fuel C s1 Hfuel
                (proj2 Ht) HndC) as [R [s2 [Hcollect [Ht2 [HndR HR]]]]].
    assert (Hknown2 : forall x, In x R -> dmem x (transactions s2) = true).
    { intros x Hx.
      rewrite (touched_transactions s1 s2 Ht2), (touched_transactions s s1 Ht).
      apply HR in Hx. destruct Hx as [Hx|[c [Hc Hdep]]].
      - apply HC in Hx. destruct Hx as [_ [txin [_ [_ Hlook]]]].
        exact (Hknown _ _ (so_lookup_child _ _ _ _ Hlook)).
      - destruct (depends_on_is_child _ _ _ Hdep) as [h' Hh']. exact (Hknown _ _ Hh'). }
    destruct (remove_known_transactions R s2 HndR Hknown2) as [s3 [Hrun [Hgone Hkept]]].
    exists R, s2, s3, (index_transaction tx_hash tx (first_input_is_coinbase tx) s3).
    rewrite Hcollect. simpl bind. rewrite Hrun. simpl bind.
    split; [reflexivity|]. split; [exact HR|]. split; [reflexivity|].
    split; [exact Hgone|]. split; [reflexivity|]. split; [reflexivity|].
    rewrite transactions_index_transaction. split; [apply dget_dset_same|].
    intros x Hx Hxne. rewrite dget_dset_other by exact Hxne. apply Hgone. exact Hx.
Qed.

(** ** Adding and then removing a transaction *)

Lemma dset_absent {K V : Type} `{EqDec K} (k : K) (v : V) (d : dict K V) :
  dget k d = None -> dset k v d = d ++ [(k, v)].
Proof.
  induction d as [|[k' v'] d IH]; simpl; [reflexivity|].
  destruct (eq_dec k k'); [discriminate|]. intros Hg. f_equal. apply IH. exact Hg.
Qed.

Lemma map_dset_same {K V W : Type} `{EqDec K} (g : K * V -> W) (k : K) (v v' : V)
    (d : dict K V) :
  dget k d = Some v -> g (k, v') = g (k, v) -> map g (dset k v' d) = map g d.
Proof.
  induction d as [|[k0 v0] d IH]; simpl; [discriminate|].
  destruct (eq_dec k k0) as [->|Hne].
  - intros [= ->] Hg. simpl. f_equal. exact Hg.
  - intros Hget Hg. simpl. f_equal. apply IH; assumption.
Qed.

Lemma so_touch_dset h so : so_touch h so = if dmem h so then so else dset h [] so.
Proof.
  unfold so_touch, dmem. destruct (dget h so) eqn:Hg; [reflexivity|].
  symmetry. apply dset_absent. exact Hg.
Qed.

Lemma wf_so_touch h so : wf so -> wf (so_touch h so).
Proof.
  intros Hwf. rewrite so_touch_dset. destruct (dmem h so); [exact Hwf|].
  apply wf_dset. exact Hwf.
Qed.

Lemma dget_so_touch h so : dget h (so_touch h so) = Some (so_sub h so).
Proof.
  unfold so_sub. rewrite so_touch_dset. unfold dmem.
  destruct (dget h so) eqn:Hg; [exact Hg|]. apply dget_dset_same.
Qed.

Lemma dget_so_touch_other h k so : k <> h -> dget k (so_touch h so) = dget k so.
Proof.
  intros Hne. rewrite so_touch_dset. destruct (dmem h so); [reflexivity|].
  apply dget_dset_other. exact Hne.
Qed.

Lemma wf_so_set h n x so : wf so -> wf (so_set h n x so).
Proof. intros Hwf. unfold so_set. apply wf_dset. apply wf_so_touch. exact Hwf. Qed.

Lemma wf_so_pop_outpoint h n so : wf so -> wf (so_pop_outpoint h n so).
Proof.
  intros Hwf. unfold so_pop_outpoint.
  destruct (dpop n (so_sub h (so_touch h so))); [apply wf_dpop|];
    apply wf_dset; apply wf_so_touch; exact Hwf.
Qed.

Lemma wf_so_drop_if_empty h so : wf so -> wf (so_drop_if_empty h so).
Proof.
  intros Hwf. unfold so_drop_if_empty.
  destruct (so_sub h (so_touch h so)); [apply wf_dpop|]; apply wf_so_touch; exact Hwf.
Qed.

Lemma so_lookup_so_set h n x h' n' so :
  so_lookup h' n' (so_set h n x so)
  = if eq_dec h' h then (if eq_dec n' n then Some x else so_lookup h' n' so)
    else so_lookup h' n' so.
Proof.
  unfold so_lookup, so_set, so_sub at 1. rewrite dget_dset.
  destruct (eq_dec h' h) as [->|Hne].
  - rewrite dget_dset. rewrite so_sub_touch. destruct (eq_dec n' n); reflexivity.
  - rewrite dget_so_touch_other by exact Hne. reflexivity.
Qed.

(** Entries of [spent_outpoints] that belong to one transaction: [own h n]
    marks the outpoints it spends, [near h] the keys it may touch. *)
Section Strip.
Variable own : Txid -> Z -> bool.
Variable near : Txid -> bool.
Hypothesis own_near : forall h n, own h n = true -> near h = true.

Definition is_nil {A : Type} (l : list A) : bool :=
  match l with [] => true | _ :: _ => false end.

Definition strip_inner (h : Txid) (d : dict Z Txid) : dict Z Txid :=
  filter (fun e => negb (own h (fst e))) d.

Definition strip_entry (e : Txid * dict Z Txid) : Txid * dict Z Txid :=
  (fst e, strip_inner (fst e) (snd e)).

(** The index without the outpoints of the transaction and without the empty
    dictionaries under the keys it may touch. *)
Definition strip (so : spent_outpoints_t) : spent_outpoints_t :=
  filter (fun e => negb (near (fst e) && is_nil (snd e))) (map strip_entry so).

Lemma strip_inner_dset h n x d :
  own h n = true -> strip_inner h (dset n x d) = strip_inner h d.
Proof.
  intros Hown. induction d as [|[n0 x0] d IH]; simpl.
  - rewrite Hown. reflexivity.
  - destruct (eq_dec n n0) as [->|Hne]; simpl.
    + rewrite Hown. reflexivity.
    + rewrite IH. reflexivity.
Qed.

Lemma strip_inner_dpop h n d :
  own h n = true -> strip_inner h (dpop n d) = strip_inner h d.
Proof.
  intros Hown. induction d as [|[n0 x0] d IH]; simpl; [reflexivity|].
  unfold eqb_of. destruct (eq_dec n n0) as [->|Hne]; simpl.
  - rewrite Hown. simpl. exact IH.
  - rewrite IH. reflexivity.
Qed.

Lemma strip_app so1 so2 : strip (so1 ++ so2) = strip so1 ++ strip so2.
Proof. unfold strip. rewrite map_app, filter_app. reflexivity. Qed.

Lemma strip_so_touch h so : near h = true -> strip (so_touch h so) = strip so.
Proof.
  intros Hnear. unfold so_touch. destruct (dmem h so); [reflexivity|].
  rewrite strip_app. unfold strip at 2. simpl. rewrite Hnear. simpl. apply app_nil_r.
Qed.

Lemma strip_dset_inner h d' so :
  strip_inner h d' = strip_inner h (so_sub h so) ->
  dmem h so = true ->
  strip (dset h d' so) = strip so.
Proof.
  intros Hinner Hmem. apply dmem_true in Hmem. destruct Hmem as [d Hd].
  unfold strip. f_equal. apply (map_dset_same strip_entry h d d' so Hd).
  unfold strip_entry. simpl. f_equal. rewrite Hinner. unfold so_sub. rewrite Hd. reflexivity.
Qed.

Lemma dmem_so_touch h so : dmem h (so_touch h so) = true.
Proof. apply dmem_true. eexists. apply dget_so_touch. Qed.

Lemma strip_so_set h n x so : own h n = true -> strip (so_set h n x so) = strip so.
Proof.
  intros Hown. unfold so_set. rewrite strip_dset_inner.
  - apply strip_so_touch. eapply own_near. exact Hown.
  - apply strip_inner_dset. exact Hown.
  - apply dmem_so_touch.
Qed.

Lemma strip_dpop_empty h so :
  wf so -> near h = true -> dget h so = Some [] -> strip (dpop h so) = strip so.
Proof.
  intros Hwf Hnear. unfold wf in Hwf. induction so as [|[k d] so IH]; simpl; [discriminate|].
  inversion Hwf as [|? ? Hnotin Hwf']; subst. unfold eqb_of.
  destruct (eq_dec h k) as [->|Hne].
  - intros [= ->]. simpl. unfold strip at 2. simpl. rewrite Hnear. simpl.
    fold (strip so). f_equal. apply dpop_notin. apply dget_None_notin. exact Hnotin.
  - intros Hget. simpl. unfold strip. simpl.
    fold (strip (dpop h so)). fold (strip so). rewrite (IH Hwf' Hget). reflexivity.
Qed.

Lemma strip_so_pop_outpoint h n so :
  wf so -> own h n = true -> strip (so_pop_outpoint h n so) = strip so.
Proof.
  intros Hwf Hown. pose proof (own_near h n Hown) as Hnear.
  unfold so_pop_outpoint.
  assert (Hset : strip (dset h (dpop n (so_sub h (so_touch h so))) (so_touch h so)) = strip so).
  { rewrite strip_dset_inner.
    - apply strip_so_touch. exact Hnear.
    - apply strip_inner_dpop. exact Hown.
    - apply dmem_so_touch. }
  destruct (dpop n (so_sub h (so_touch h so))) as [|e d'] eqn:Hd; [|exact Hset].
  rewrite strip_dpop_empty; [exact Hset| |exact Hnear|apply dget_dset_same].
  apply wf_dset. apply wf_so_touch. exact Hwf.
Qed.

Lemma strip_so_drop_if_empty h so :
  wf so -> near h = true -> strip (so_drop_if_empty h so) = strip so.
Proof.
  intros Hwf Hnear. unfold so_drop_if_empty.
  destruct (so_sub h (so_touch h so)) as [|e d'] eqn:Hd.
  - rewrite strip_dpop_empty.
    + apply strip_so_touch. exact Hnear.
    + apply wf_so_touch. exact Hwf.
    + exact Hnear.
    + rewrite dget_so_touch. rewrite so_sub_touch in Hd. rewrite Hd. reflexivity.
  - apply strip_so_touch. exact Hnear.
Qed.

(** An index that has none of the outpoints and no empty dictionary under
    the keys is its own [strip]. *)
Definition clean (so : spent_outpoints_t) : Prop :=
  forall h d, In (h, d) so ->
    (forall n x, In (n, x) d -> own h n = false) /\ (near h = true -> d <> []).

Lemma strip_clean so : clean so -> strip so = so.
Proof.
  unfold clean. induction so as [|[h d] so IH]; intros Hclean; [reflexivity|].
  destruct (Hclean h d (or_introl eq_refl)) as [Hown Hne].
  assert (Hinner : strip_inner h d = d).
  { unfold strip_inner. clear Hne Hclean IH. induction d as [|[n x] d IHd]; simpl; [reflexivity|].
    rewrite (Hown n x (or_introl eq_refl)). simpl. f_equal. apply IHd.
    intros n' x' Hin. apply (Hown n' x'). right. exact Hin. }
  unfold strip. simpl. fold (strip so). unfold strip_entry at 1. simpl. rewrite Hinner.
  assert (Hkeep : near h && is_nil d = false).
  { destruct (near h); [|reflexivity]. destruct d; [exfalso; apply Hne; reflexivity|reflexivity]. }
  rewrite Hkeep. simpl. rewrite IH; [reflexivity|].
  intros h' d' Hin. apply Hclean. right. exact Hin.
Qed.

End Strip.

Lemma so_lookup_so_touch h h' n' so : so_lookup h' n' (so_touch h so) = so_lookup h' n' so.
Proof. unfold so_lookup. rewrite so_sub_touch. reflexivity. Qed.

Lemma so_sub_dset_same h d so : so_sub h (dset h d so) = d.
Proof. unfold so_sub. rewrite dget_dset_same. reflexivity. Qed.

Lemma so_sub_dset_other h k d so : k <> h -> so_sub k (dset h d so) = so_sub k so.
Proof. intros Hne. unfold so_sub. rewrite dget_dset_other by exact Hne. reflexivity. Qed.

Lemma so_sub_dpop_same h so : so_sub h (dpop h so) = [].
Proof. unfold so_sub. rewrite dget_dpop_same. reflexivity. Qed.

Lemma so_sub_dpop_other h k so : k <> h -> so_sub k (dpop h so) = so_sub k so.
Proof. intros Hne. unfold so_sub. rewrite dget_dpop_other by exact Hne. reflexivity. Qed.

Lemma so_lookup_so_pop_outpoint h n h' n' so :
  so_lookup h' n' (so_pop_outpoint h n so)
  = if eq_dec h' h then dget n' (dpop n (so_sub h so)) else so_lookup h' n' so.
Proof.
  unfold so_lookup, so_pop_outpoint. rewrite so_sub_touch.
  destruct (eq_dec h' h) as [->|Hne].
  - destruct (dpop n (so_sub h so)) as [|e d'] eqn:Hd.
    + rewrite so_sub_dpop_same. reflexivity.
    + rewrite so_sub_dset_same. reflexivity.
  - destruct (dpop n (so_sub h so)) as [|e d'] eqn:Hd.
    + rewrite so_sub_dpop_other, so_sub_dset_other, so_sub_touch by exact Hne. reflexivity.
    + rewrite so_sub_dset_other, so_sub_touch by exact Hne. reflexivity.
Qed.

Lemma so_lookup_so_drop_if_empty h h' n' so :
  so_lookup h' n' (so_drop_if_empty h so) = so_lookup h' n' so.
Proof.
  unfold so_lookup, so_drop_if_empty. rewrite so_sub_touch.
  destruct (so_sub h so) as [|e d'] eqn:Hd; [|apply f_equal; apply so_sub_touch].
  destruct (eq_dec h' h) as [->|Hne].
  - rewrite so_sub_dpop_same, Hd. reflexivity.
  - rewrite so_sub_dpop_other, so_sub_touch by exact Hne. reflexivity.
Qed.

Lemma dget_so_pop_outpoint_same h n so : dget h (so_pop_outpoint h n so) <> Some [].
Proof.
  unfold so_pop_outpoint. destruct (dpop n (so_sub h (so_touch h so))) as [|e d'] eqn:Hd.
  - rewrite dget_dpop_same. discriminate.
  - rewrite dget_dset_same. discriminate.
Qed.

Lemma dget_so_pop_outpoint_other h n k so :
  k <> h -> dget k (so_pop_outpoint h n so) = dget k so.
Proof.
  intros Hne. unfold so_pop_outpoint.
  destruct (dpop n (so_sub h (so_touch h so))) as [|e d'] eqn:Hd.
  - rewrite dget_dpop_other, dget_dset_other, dget_so_touch_other by exact Hne. reflexivity.
  - rewrite dget_dset_other, dget_so_touch_other by exact Hne. reflexivity.
Qed.

Lemma dget_so_drop_if_empty_same h so : dget h (so_drop_if_empty h so) <> Some [].
Proof.
  unfold so_drop_if_empty. destruct (so_sub h (so_touch h so)) as [|e d'] eqn:Hd.
  - rewrite dget_dpop_same. discriminate.
  - rewrite dget_so_touch. rewrite so_sub_touch in Hd. rewrite Hd. discriminate.
Qed.

Lemma dget_so_drop_if_empty_other h k so :
  k <> h -> dget k (so_drop_if_empty h so) = dget k so.
Proof.
  intros Hne. unfold so_drop_if_empty.
  destruct (so_sub h (so_touch h so)) as [|e d'] eqn:Hd.
  - rewrite dget_dpop_other, dget_so_touch_other by exact Hne. reflexivity.
  - rewrite dget_so_touch_other by exact Hne. reflexivity.
Qed.

(** The outpoints a transaction spends, and the keys of [spent_outpoints]
    that adding or removing it may touch. *)
Definition own_of tx (h : Txid) (n : Z) : bool :=
  existsb
    (fun txin => negb (is_coinbase_input txin)
                 && eqb_of h (prevout_hash txin) && eqb_of n (prevout_n txin))
    (inputs tx).

Definition near_of tx_hash tx (h : Txid) : bool :=
  eqb_of h tx_hash
  || existsb (fun txin => negb (is_coinbase_input txin) && eqb_of h (prevout_hash txin))
       (inputs tx).

Lemma own_of_iff tx h n :
  own_of tx h n = true <->
  exists txin, In txin (inputs tx) /\ is_coinbase_input txin = false
               /\ h = prevout_hash txin /\ n = prevout_n txin.
Proof.
  unfold own_of. rewrite existsb_exists. split.
  - intros [txin [Hin Hb]]. apply andb_true_iff in Hb. destruct Hb as [Hb Hn].
    apply andb_true_iff in Hb. destruct Hb as [Hcb Hh].
    apply negb_true_iff in Hcb. apply (proj1 (eqb_of_true _ _)) in Hh.
    apply (proj1 (eqb_of_true _ _)) in Hn. exists txin. tauto.
  - intros [txin [Hin [Hcb [-> ->]]]]. exists txin. split; [exact Hin|].
    rewrite Hcb, !eqb_of_refl. reflexivity.
Qed.

Lemma near_of_iff tx_hash tx h :
  near_of tx_hash tx h = true <->
  h = tx_hash
  \/ exists txin, In txin (inputs tx) /\ is_coinbase_input txin = false
                  /\ h = prevout_hash txin.
Proof.
  unfold near_of. rewrite orb_true_iff, existsb_exists, eqb_of_true. split.
  - intros [->|[txin [Hin Hb]]]; [left; reflexivity|].
    apply andb_true_iff in Hb. destruct Hb as [Hcb Hh].
    apply negb_true_iff in Hcb. apply (proj1 (eqb_of_true _ _)) in Hh.
    right. exists txin. tauto.
  - intros [->|[txin [Hin [Hcb ->]]]]; [left; reflexivity|].
    right. exists txin. split; [exact Hin|]. rewrite Hcb, eqb_of_refl. reflexivity.
Qed.

Lemma own_near_of tx_hash tx h n : own_of tx h n = true -> near_of tx_hash tx h = true.
Proof.
  intros Hown. apply own_of_iff in Hown. destruct Hown as [txin [Hin [Hcb [Hh _]]]].
  apply near_of_iff. right. exists txin. tauto.
Qed.

Section AddRemove.
Variable tx_hash0 : Txid.
Variable tx0 : Transaction.
Variable s0 : AddressSynchronizer.

Let strip0 := strip (own_of tx0) (near_of tx_hash0 tx0).

(** What holds of the engine while [tx0] is being indexed under [tx_hash0],
    starting from [s0]: outside the entries of [tx_hash0] the serialised
    state is that of [s0]. *)
Definition add_inv s : Prop :=
  same_primary s0 s
  /\ dpop tx_hash0 (transactions s) = dpop tx_hash0 (transactions s0)
  /\ dpop tx_hash0 (txi s) = dpop tx_hash0 (txi s0)
  /\ dpop tx_hash0 (txo s) = dpop tx_hash0 (txo s0)
  /\ wf (spent_outpoints s)
  /\ strip0 (spent_outpoints s) = strip0 (spent_outpoints s0)
  /\ (forall n x, so_lookup tx_hash0 n (spent_outpoints s) = Some x -> x = tx_hash0).

Ltac open_inv H :=
  destruct H as (Hprim & Htxs & Htxi & Htxo & Hwf & Hstrip & Hself);
  unfold same_primary in Hprim.

Ltac close_inv :=
  unfold add_inv, same_primary; simpl; repeat split; try tauto; try assumption.

Lemma add_inv_touch h s :
  near_of tx_hash0 tx0 h = true -> add_inv s ->
  add_inv (with_spent_outpoints s (so_touch h (spent_outpoints s))).
Proof.
  intros Hnear Hinv. open_inv Hinv. close_inv.
  - apply wf_so_touch. exact Hwf.
  - unfold strip0 in *. rewrite strip_so_touch by exact Hnear. exact Hstrip.
  - intros n x. rewrite so_lookup_so_touch. apply Hself.
Qed.

Lemma add_inv_local_history t s : add_inv s -> add_inv (_add_tx_to_local_history t s).
Proof.
  intros Hinv. unfold _add_tx_to_local_history.
  apply (fold_left_inv add_inv); [|exact Hinv].
  intros s1 a Hs1. open_inv Hs1. close_inv.
Qed.

Lemma add_inv_add_input s txin :
  In txin (inputs tx0) -> add_inv s -> add_inv (add_input tx_hash0 s txin).
Proof.
  intros Hin Hinv. unfold add_input. destruct (is_coinbase_input txin) eqn:Hcb; [exact Hinv|].
  assert (Hown : own_of tx0 (prevout_hash txin) (prevout_n txin) = true).
  { apply own_of_iff. exists txin. tauto. }
  assert (Hinv1 : add_inv (with_spent_outpoints s
                             (so_set (prevout_hash txin) (prevout_n txin) tx_hash0
                                (spent_outpoints s)))).
  { open_inv Hinv. close_inv.
    - apply wf_so_set. exact Hwf.
    - unfold strip0 in *.
      rewrite (strip_so_set _ _ (own_near_of tx_hash0 tx0)) by exact Hown. exact Hstrip.
    - intros n x. rewrite so_lookup_so_set.
      destruct (eq_dec tx_hash0 (prevout_hash txin)); [|apply Hself].
      destruct (eq_dec n (prevout_n txin)); [congruence|apply Hself]. }
  match goal with |- context [find_prevout ?a ?b] => destruct (find_prevout a b) as [[addr v]|] end;
    [|exact Hinv1].
  match goal with |- context [if ?c then _ else _] => destruct c end; [|exact Hinv1].
  open_inv Hinv1. close_inv. simpl in Htxi.
  unfold txi_add. rewrite dpop_dset. exact Htxi.
Qed.

Lemma add_inv_give_value n addr v s :
  add_inv s -> add_inv (give_value_to_spender tx_hash0 n addr v s).
Proof.
  intros Hinv. unfold give_value_to_spender.
  pose proof (add_inv_touch tx_hash0 s (proj2 (near_of_iff tx_hash0 tx0 tx_hash0)
                                           (or_introl eq_refl)) Hinv) as Hinv1.
  destruct (so_lookup tx_hash0 n (spent_outpoints s)) as [next_tx|] eqn:Hnext; [|exact Hinv1].
  assert (next_tx = tx_hash0) by (destruct Hinv as (_ & _ & _ & _ & _ & _ & Hself); eauto).
  subst next_tx. apply add_inv_local_history.
  match goal with |- context [dget tx_hash0 ?m] => destruct (dget tx_hash0 m) as [dd|] end;
    [|exact Hinv1].
  open_inv Hinv1. close_inv. simpl in Htxi. rewrite dpop_dset. exact Htxi.
Qed.

Lemma add_inv_add_output cb s n o : add_inv s -> add_inv (add_output tx_hash0 cb s n o).
Proof.
  intros Hinv. unfold add_output. destruct (get_txout_address o) as [addr|]; [|exact Hinv].
  destruct (truthy addr && is_mine s (Some addr)); [|exact Hinv].
  apply add_inv_give_value. open_inv Hinv. close_inv.
  unfold txo_append. rewrite dpop_dset. exact Htxo.
Qed.

Lemma add_inv_add_outputs cb outs : forall n s,
  add_inv s -> add_inv (add_outputs tx_hash0 cb n outs s).
Proof.
  induction outs as [|o outs IH]; intros n s Hinv; simpl; [exact Hinv|].
  apply IH. apply add_inv_add_output. exact Hinv.
Qed.

Lemma fold_left_inv_In {A : Type} (P : AddressSynchronizer -> Prop)
    (f : AddressSynchronizer -> A -> AddressSynchronizer) (l : list A) :
  (forall s a, In a l -> P s -> P (f s a)) -> forall s, P s -> P (fold_left f l s).
Proof.
  induction l as [|a l IH]; intros Hf s Hs; simpl; [exact Hs|].
  apply IH.
  - intros s1 a1 Hin. apply Hf. right. exact Hin.
  - apply Hf; [left; reflexivity|exact Hs].
Qed.

Lemma add_inv_index_transaction cb s :
  add_inv s -> add_inv (index_transaction tx_hash0 tx0 cb s).
Proof.
  intros Hinv. unfold index_transaction.
  assert (H1 : add_inv (with_txi s (dset tx_hash0 [] (txi s)))).
  { open_inv Hinv. close_inv. rewrite dpop_dset. exact Htxi. }
  assert (H2 : add_inv (fold_left (add_input tx_hash0) (inputs tx0)
                          (with_txi s (dset tx_hash0 [] (txi s))))).
  { apply (fold_left_inv_In add_inv); [|exact H1].
    intros s1 a Hin Hs1. apply add_inv_add_input; assumption. }
  set (s2 := fold_left (add_input tx_hash0) (inputs tx0) _) in *.
  assert (H3 : add_inv (with_txo s2 (dset tx_hash0 [] (txo s2)))).
  { open_inv H2. close_inv. rewrite dpop_dset. exact Htxo. }
  pose proof (add_inv_add_outputs cb (outputs tx0) 0 _ H3) as H4.
  set (s4 := add_outputs tx_hash0 cb 0 (outputs tx0) _) in *.
  assert (H5 : add_inv (if String.eqb (omni_host s4) "" then s4
                        else with_omni_tx s4
                               (dset tx_hash0 (omni_txdata s4 tx_hash0 (raw tx0)) (omni_tx s4)))).
  { destruct (String.eqb (omni_host s4) ""); [exact H4|]. open_inv H4. close_inv. }
  pose proof (add_inv_local_history tx_hash0 _ H5) as H6.
  open_inv H6. close_inv. rewrite dpop_dset. exact Htxs.
Qed.

End AddRemove.

Lemma conflicting_loop_isolated tx_hash tx s0 ins : forall acc s,
  incl ins (inputs tx) ->
  (forall txin, In txin ins -> is_coinbase_input txin = false ->
     so_lookup (prevout_hash txin) (prevout_n txin) (spent_outpoints s) = None) ->
  add_inv tx_hash tx s0 s ->
  exists s1, conflicting_loop ins acc s = Ret acc s1 /\ add_inv tx_hash tx s0 s1.
Proof.
  induction ins as [|txin ins IH]; intros acc s Hincl Hfree Hinv; simpl.
  - exists s. split; [reflexivity|exact Hinv].
  - assert (Hincl' : incl ins (inputs tx)) by (intros x Hx; apply Hincl; right; exact Hx).
    destruct (is_coinbase_input txin) eqn:Hcb.
    + apply IH; [exact Hincl'| |exact Hinv].
      intros txin' Hin'. apply Hfree. right. exact Hin'.
    + rewrite (Hfree txin (or_introl eq_refl) Hcb). apply IH; [exact Hincl'| |].
      * intros txin' Hin' Hcb'. simpl. rewrite so_lookup_so_touch.
        apply Hfree; [right; exact Hin'|exact Hcb'].
      * apply add_inv_touch; [|exact Hinv]. apply near_of_iff. right. exists txin.
        split; [apply Hincl; left; reflexivity|]. split; [exact Hcb|reflexivity].
Qed.

Lemma remove_local_history_shape t s :
  exists hl, _remove_tx_from_local_history t s = with_history_local s hl.
Proof.
  unfold _remove_tx_from_local_history.
  apply (fold_left_inv (fun s' => exists hl, s' = with_history_local s hl)).
  - intros s1 a [hl ->]. simpl. destruct (dget a hl) as [cur|]; [|exists hl; reflexivity].
    destruct (smem t cur); [|exists hl; reflexivity].
    eexists. reflexivity.
  - exists (_history_local s). destruct s; reflexivity.
Qed.

Lemma fold_left_establish {A B : Type} (f : B -> A -> B) (Q : B -> Prop) (a : A) (l : list A) :
  In a l -> (forall st, Q (f st a)) -> (forall st b, Q st -> Q (f st b)) ->
  forall st, Q (fold_left f l st).
Proof.
  intros Hin Hest Hkeep. induction l as [|b l IH]; intros st; [destruct Hin|]. simpl.
  destruct Hin as [->|Hin]; [|apply IH; exact Hin].
  clear IH. generalize (Hest st). generalize (f st a).
  induction l as [|c l IHl]; intros st1 Hst1.
  - exact Hst1.
  - simpl. apply IHl. apply Hkeep. exact Hst1.
Qed.

Definition unspend_step (so1 : spent_outpoints_t) (txin : TxInput) : spent_outpoints_t :=
  if is_coinbase_input txin then so1
  else so_pop_outpoint (prevout_hash txin) (prevout_n txin) so1.

Lemma unspend_inputs_fold tx so : unspend_inputs tx so = fold_left unspend_step (inputs tx) so.
Proof. reflexivity. Qed.

Lemma unspend_inputs_wf_strip tx_hash tx so :
  wf so ->
  wf (unspend_inputs tx so)
  /\ strip (own_of tx) (near_of tx_hash tx) (unspend_inputs tx so)
     = strip (own_of tx) (near_of tx_hash tx) so.
Proof.
  rewrite unspend_inputs_fold. intros Hwf.
  assert (Hgen : forall l so1, incl l (inputs tx) -> wf so1 ->
            wf (fold_left unspend_step l so1)
            /\ strip (own_of tx) (near_of tx_hash tx) (fold_left unspend_step l so1)
               = strip (own_of tx) (near_of tx_hash tx) so1).
  { induction l as [|txin l IH]; intros so1 Hincl Hwf1; simpl; [split; [exact Hwf1|reflexivity]|].
    assert (Hstep : wf (unspend_step so1 txin)
                    /\ strip (own_of tx) (near_of tx_hash tx) (unspend_step so1 txin)
                       = strip (own_of tx) (near_of tx_hash tx) so1).
    { unfold unspend_step. destruct (is_coinbase_input txin) eqn:Hcb; [split; [exact Hwf1|reflexivity]|].
      split; [apply wf_so_pop_outpoint; exact Hwf1|].
      apply (strip_so_pop_outpoint _ _ (own_near_of tx_hash tx)); [exact Hwf1|].
      apply own_of_iff. exists txin. split; [apply Hincl; left; reflexivity|]. tauto. }
    destruct Hstep as [Hwf2 Hstrip2].
    destruct (IH (unspend_step so1 txin)) as [Hwf3 Hstrip3];
      [intros x Hx; apply Hincl; right; exact Hx|exact Hwf2|].
    split; [exact Hwf3|]. rewrite Hstrip3. exact Hstrip2. }
  apply Hgen; [apply incl_refl|exact Hwf].
Qed.

Lemma unspend_inputs_lookup tx so txin :
  In txin (inputs tx) -> is_coinbase_input txin = false ->
  so_lookup (prevout_hash txin) (prevout_n txin) (unspend_inputs tx so) = None.
Proof.
  intros Hin Hcb. rewrite unspend_inputs_fold.
  apply (fold_left_establish unspend_step
           (fun so1 => so_lookup (prevout_hash txin) (prevout_n txin) so1 = None) txin).
  - exact Hin.
  - intros so1. unfold unspend_step. rewrite Hcb, so_lookup_so_pop_outpoint.
    destruct (eq_dec (prevout_hash txin) (prevout_hash txin)); [|congruence].
    apply dget_dpop_same.
  - intros so1 b Hq. unfold unspend_step. destruct (is_coinbase_input b); [exact Hq|].
    rewrite so_lookup_so_pop_outpoint.
    destruct (eq_dec (prevout_hash txin) (prevout_hash b)) as [Heq|Hne]; [|exact Hq].
    rewrite dget_dpop. destruct (eq_dec (prevout_n txin) (prevout_n b)); [reflexivity|].
    rewrite <- Heq. exact Hq.
Qed.

Lemma unspend_inputs_nonempty tx so txin :
  In txin (inputs tx) -> is_coinbase_input txin = false ->
  dget (prevout_hash txin) (unspend_inputs tx so) <> Some [].
Proof.
  intros Hin Hcb. rewrite unspend_inputs_fold.
  apply (fold_left_establish unspend_step
           (fun so1 => dget (prevout_hash txin) so1 <> Some []) txin).
  - exact Hin.
  - intros so1. unfold unspend_step. rewrite Hcb. apply dget_so_pop_outpoint_same.
  - intros so1 b Hq. unfold unspend_step. destruct (is_coinbase_input b); [exact Hq|].
    destruct (eq_dec (prevout_hash txin) (prevout_hash b)) as [Heq|Hne].
    + rewrite Heq. apply dget_so_pop_outpoint_same.
    + rewrite dget_so_pop_outpoint_other by exact Hne. exact Hq.
Qed.

Lemma remove_transaction_known t tx s :
  dget t (transactions s) = Some tx ->
  exists s2,
    remove_transaction t s = Ret tt s2
    /\ transactions s2 = dpop t (transactions s)
    /\ txi s2 = dpop t (txi s)
    /\ txo s2 = dpop t (txo s)
    /\ spent_outpoints s2 = so_drop_if_empty t (unspend_inputs tx (spent_outpoints s))
    /\ same_primary s s2.
Proof.
  intros Hget. unfold remove_transaction. rewrite Hget. eexists. split; [reflexivity|].
  unfold remove_transaction_finish.
  match goal with
  | |- context [_remove_tx_from_local_history ?t0 ?x] =>
      destruct (remove_local_history_shape t0 x) as [hl Hshape]; rewrite Hshape
  end.
  unfold same_primary. simpl. repeat split; reflexivity.
Qed.

(** The six blobs of the engine state that [save_transactions] persists
    (the token records are stored apart). *)
Definition engine_blobs (w : WalletStorage) :=
  (st_transactions w, st_txi w, st_txo w, st_tx_fees w, st_addr_history w,
   st_spent_outpoints w).

(** The transaction has nothing to do with what is indexed. *)
Definition isolated tx_hash tx s : Prop :=
  (forall txin, In txin (inputs tx) -> is_coinbase_input txin = false ->
     so_lookup (prevout_hash txin) (prevout_n txin) (spent_outpoints s) = None)
  /\ (forall n, so_lookup tx_hash n (spent_outpoints s) = None)
  /\ dget tx_hash (transactions s) = None
  /\ dget tx_hash (txi s) = None
  /\ dget tx_hash (txo s) = None.

(** [spent_outpoints] holds no empty dictionary under the txid or under the
    hash of a previous transaction that the transaction spends from. *)
Definition no_empty_submap tx_hash tx s : Prop :=
  dget tx_hash (spent_outpoints s) <> Some []
  /\ (forall txin, In txin (inputs tx) -> is_coinbase_input txin = false ->
        dget (prevout_hash txin) (spent_outpoints s) <> Some []).

Lemma In_so_sub h d so : wf so -> In (h, d) so -> so_sub h so = d.
Proof. intros Hwf Hin. unfold so_sub. rewrite (In_dget h d so Hwf Hin). reflexivity. Qed.

Lemma clean_of_lookups tx_hash tx so :
  wf so ->
  (forall txin, In txin (inputs tx) -> is_coinbase_input txin = false ->
     so_lookup (prevout_hash txin) (prevout_n txin) so = None) ->
  dget tx_hash so <> Some [] ->
  (forall txin, In txin (inputs tx) -> is_coinbase_input txin = false ->
     dget (prevout_hash txin) so <> Some []) ->
  clean (own_of tx) (near_of tx_hash tx) so.
Proof.
  intros Hwf Hfree Hself Hprev h d Hin.
  pose proof (In_dget h d so Hwf Hin) as Hget. split.
  - intros n x Hnx. destruct (own_of tx h n) eqn:Hown; [|reflexivity]. exfalso.
    apply own_of_iff in Hown. destruct Hown as [txin [Hi [Hcb [-> ->]]]].
    specialize (Hfree txin Hi Hcb). unfold so_lookup, so_sub in Hfree. rewrite Hget in Hfree.
    apply dget_None_notin in Hfree. apply Hfree. apply (in_map fst) in Hnx. exact Hnx.
  - intros Hnear ->. apply near_of_iff in Hnear.
    destruct Hnear as [->|[txin [Hi [Hcb ->]]]]; [apply Hself; exact Hget|].
    apply (Hprev txin Hi Hcb). exact Hget.
Qed.

(** C6, as the code has it.  Let [T] be a transaction that gets past the
    assertions and the relatedness check of [add_transaction], none of whose
    outpoints is recorded in [spent_outpoints], none of whose outputs is
    recorded as spent, and which is in none of [transactions], [txi], [txo];
    let [spent_outpoints] hold no empty dictionary under [txid] or under the
    hash of a transaction [T] spends from.  Then [add_transaction(txid, T)]
    returns [True], the following [remove_transaction(txid)] returns, and the
    persisted [transactions], [txi], [txo], [tx_fees], [addr_history] and
    [spent_outpoints] are what they were before, entry for entry and in the
    same order. *)
Theorem add_then_remove_restores :
  forall (fuel : nat) tx_hash tx (allow_unrelated : bool) s,
    truthy tx_hash = true ->
    is_complete tx = true ->
    inputs tx <> [] ->
    allow_unrelated = true \/ related s tx ->
    wf (spent_outpoints s) ->
    isolated tx_hash tx s ->
    no_empty_submap tx_hash tx s ->
    exists s1 s2,
      add_transaction fuel tx_hash tx allow_unrelated s = Ret true s1
      /\ remove_transaction tx_hash s1 = Ret tt s2
      /\ engine_blobs (serialized s2) = engine_blobs (serialized s).
Proof.
  intros fuel tx_hash tx allow_unrelated s Htruthy Hcomplete Hins Hrel Hwf
         (Hfree & Hunspent & Hnotx & Hnotxi & Hnotxo) (Hself0 & Hprev0).
  assert (Hinv0 : add_inv tx_hash tx s s).
  { unfold add_inv. split; [apply same_primary_refl|]. repeat split; try reflexivity.
    - exact Hwf.
    - intros n x Hx. rewrite Hunspent in Hx. discriminate. }
  destruct (conflicting_loop_isolated tx_hash tx s (inputs tx) [] s (incl_refl _) Hfree Hinv0)
    as [s1' [Hloop Hinv1']].
  assert (Hconf : get_conflicting_transactions tx_hash tx s = Ret [] s1').
  { unfold get_conflicting_transactions. rewrite Hloop. reflexivity. }
  set (s1 := index_transaction tx_hash tx (first_input_is_coinbase tx) s1').
  assert (Hadd : add_transaction fuel tx_hash tx allow_unrelated s = Ret true s1).
  { rewrite (add_transaction_past_checks fuel tx_hash tx allow_unrelated s
               Htruthy Hcomplete Hins Hrel).
    unfold resolve_conflicts_and_index. rewrite Hconf. reflexivity. }
  pose proof (add_inv_index_transaction tx_hash tx s (first_input_is_coinbase tx) s1' Hinv1')
    as Hinv1.
  fold s1 in Hinv1.
  assert (Hget : dget tx_hash (transactions s1) = Some tx).
  { subst s1. rewrite transactions_index_transaction. apply dget_dset_same. }
  destruct Hinv1 as (Hprim & Htxs & Htxi & Htxo & Hwf1 & Hstrip & _).
  set (so_f := so_drop_if_empty tx_hash (unspend_inputs tx (spent_outpoints s1))).
  destruct (unspend_inputs_wf_strip tx_hash tx (spent_outpoints s1) Hwf1) as [Hwf2 Hstrip2].
  assert (Hwf_f : wf so_f) by (apply wf_so_drop_if_empty; exact Hwf2).
  assert (Hso : so_f = spent_outpoints s).
  { rewrite <- (strip_clean (own_of tx) (near_of tx_hash tx) so_f).
    - rewrite <- (strip_clean (own_of tx) (near_of tx_hash tx) (spent_outpoints s))
        by (apply clean_of_lookups; assumption).
      subst so_f. rewrite strip_so_drop_if_empty.
      + rewrite Hstrip2. exact Hstrip.
      + exact Hwf2.
      + apply near_of_iff. left. reflexivity.
    - apply clean_of_lookups; [exact Hwf_f| | |].
      + intros txin Hi Hcb. subst so_f. rewrite so_lookup_so_drop_if_empty.
        apply unspend_inputs_lookup; assumption.
      + subst so_f. apply dget_so_drop_if_empty_same.
      + intros txin Hi Hcb. subst so_f.
        destruct (eq_dec (prevout_hash txin) tx_hash) as [->|Hne];
          [apply dget_so_drop_if_empty_same|].
        rewrite dget_so_drop_if_empty_other by exact Hne.
        apply unspend_inputs_nonempty; assumption. }
  destruct (remove_transaction_known tx_hash tx s1 Hget)
    as [s2 [Hrem [Rtxs [Rtxi [Rtxo [Rso Rprim]]]]]].
  exists s1, s2. split; [exact Hadd|]. split; [exact Hrem|].
  fold so_f in Rso.
  assert (Etxs : transactions s2 = transactions s)
    by (rewrite Rtxs, Htxs; apply dpop_notin; exact Hnotx).
  assert (Etxi : txi s2 = txi s)
    by (rewrite Rtxi, Htxi; apply dpop_notin; exact Hnotxi).
  assert (Etxo : txo s2 = txo s)
    by (rewrite Rtxo, Htxo; apply dpop_notin; exact Hnotxo).
  assert (Eso : spent_outpoints s2 = spent_outpoints s) by (rewrite Rso; exact Hso).
  pose proof (same_primary_trans _ _ _ Hprim Rprim) as Eprim.
  destruct Eprim as (Ehist & _ & _ & Efees & _).
  unfold engine_blobs, serialized. simpl.
  rewrite Etxs, Etxi, Etxo, Eso, Ehist, Efees. reflexivity.
Qed.

(** * Further properties of the engine *)

(** ** The local history under additions and removals *)

Definition hl_get (a : Address) (hl : dict Address (set Txid)) : set Txid :=
  match dget a hl with Some X => X | None => [] end.

Definition hl_add (t : Txid) (hl : dict Address (set Txid)) (addr : Address)
  : dict Address (set Txid) :=
  dset addr (sadd t (hl_get addr hl)) hl.

Definition hl_remove (t : Txid) (hl : dict Address (set Txid)) (addr : Address)
  : dict Address (set Txid) :=
  match dget addr hl with
  | Some cur_hist => if smem t cur_hist then dset addr (sremove t cur_hist) hl else hl
  | None => hl
  end.

(** The sets of the local history have no repeated element. *)
Definition local_history_sets s : Prop :=
  forall a, NoDup (hl_get a (_history_local s)).

Lemma with_history_local_same s : with_history_local s (_history_local s) = s.
Proof. destruct s; reflexivity. Qed.

Lemma add_tx_to_local_history_shape t s :
  _add_tx_to_local_history t s
  = with_history_local s (fold_left (hl_add t) (local_history_keys s t) (_history_local s)).
Proof.
  unfold _add_tx_to_local_history. generalize (local_history_keys s t). intros l.
  rewrite <- (with_history_local_same s) at 1. generalize (_history_local s). intros hl.
  revert hl. induction l as [|a l IH]; intros hl; simpl; [reflexivity|].
  rewrite <- IH. reflexivity.
Qed.

Lemma remove_tx_from_local_history_shape t s :
  _remove_tx_from_local_history t s
  = with_history_local s (fold_left (hl_remove t) (local_history_keys s t) (_history_local s)).
Proof.
  unfold _remove_tx_from_local_history. generalize (local_history_keys s t). intros l.
  rewrite <- (with_history_local_same s) at 1. generalize (_history_local s). intros hl.
  revert hl. induction l as [|a l IH]; intros hl; simpl; [reflexivity|].
  rewrite <- IH. f_equal. unfold hl_remove.
  destruct (dget a hl) as [cur|]; [|reflexivity]. destruct (smem t cur); reflexivity.
Qed.

Lemma hl_get_hl_add t a addr hl :
  hl_get a (hl_add t hl addr) = if eq_dec a addr then sadd t (hl_get addr hl) else hl_get a hl.
Proof. unfold hl_add, hl_get at 1. rewrite dget_dset. destruct (eq_dec a addr); reflexivity. Qed.

Lemma fold_hl_add_In t l : forall hl a t',
  In t' (hl_get a (fold_left (hl_add t) l hl)) <-> In t' (hl_get a hl) \/ (t' = t /\ In a l).
Proof.
  induction l as [|addr l IH]; intros hl a t'; simpl; [tauto|].
  rewrite IH, hl_get_hl_add. destruct (eq_dec a addr) as [->|Hne].
  - rewrite sadd_In. tauto.
  - split; [tauto|]. intros [H|[H [H'|H']]]; [tauto|congruence|tauto].
Qed.

Lemma fold_hl_add_NoDup t l : forall hl,
  (forall a, NoDup (hl_get a hl)) -> forall a, NoDup (hl_get a (fold_left (hl_add t) l hl)).
Proof.
  induction l as [|addr l IH]; intros hl Hnd a; simpl; [apply Hnd|].
  apply IH. intros a'. rewrite hl_get_hl_add.
  destruct (eq_dec a' addr); [apply sadd_NoDup; apply Hnd|apply Hnd].
Qed.

Lemma hl_get_hl_remove t a addr hl :
  hl_get a (hl_remove t hl addr)
  = if eq_dec a addr then (if smem t (hl_get a hl) then sremove t (hl_get a hl) else hl_get a hl)
    else hl_get a hl.
Proof.
  unfold hl_remove. destruct (eq_dec a addr) as [->|Hne].
  - unfold hl_get at 2 3 4. destruct (dget addr hl) as [cur|] eqn:Hcur.
    + destruct (smem t cur); [|unfold hl_get; rewrite Hcur; reflexivity].
      unfold hl_get. rewrite dget_dset_same. reflexivity.
    + unfold hl_get. rewrite Hcur. reflexivity.
  - destruct (dget addr hl) as [cur|]; [|reflexivity].
    destruct (smem t cur); [|reflexivity].
    unfold hl_get. rewrite dget_dset_other by exact Hne. reflexivity.
Qed.

Lemma hl_remove_In t a addr hl t' :
  NoDup (hl_get a hl) ->
  In t' (hl_get a (hl_remove t hl addr)) <-> In t' (hl_get a hl) /\ ~ (t' = t /\ a = addr).
Proof.
  intros Hnd. rewrite hl_get_hl_remove. destruct (eq_dec a addr) as [->|Hne].
  - destruct (smem t (hl_get addr hl)) eqn:Hmem.
    + rewrite (sremove_In t t' _ Hnd). tauto.
    + apply smem_false in Hmem. split; [|tauto].
      intros Hin. split; [exact Hin|]. intros [-> _]. contradiction.
  - tauto.
Qed.

Lemma hl_remove_NoDup t addr hl :
  (forall a, NoDup (hl_get a hl)) -> forall a, NoDup (hl_get a (hl_remove t hl addr)).
Proof.
  intros Hnd a. rewrite hl_get_hl_remove. destruct (eq_dec a addr); [|apply Hnd].
  destruct (smem t (hl_get a hl)); [|apply Hnd]. apply set_remove_nodup. apply Hnd.
Qed.

Lemma fold_hl_remove_spec t l : forall hl,
  (forall a, NoDup (hl_get a hl)) ->
  (forall a, NoDup (hl_get a (fold_left (hl_remove t) l hl)))
  /\ (forall a t', In t' (hl_get a (fold_left (hl_remove t) l hl))
                   <-> In t' (hl_get a hl) /\ ~ (t' = t /\ In a l)).
Proof.
  induction l as [|addr l IH]; intros hl Hnd; simpl.
  - split; [exact Hnd|]. intros a t'. tauto.
  - destruct (IH (hl_remove t hl addr) (hl_remove_NoDup t addr hl Hnd)) as [Hnd' Hin'].
    split; [exact Hnd'|]. intros a t'. rewrite Hin', (hl_remove_In t a addr hl t' (Hnd a)).
    split.
    + intros [[Hin Hn1] Hn2]. split; [exact Hin|]. intros [-> [<-|Hl]]; tauto.
    + intros [Hin Hn]. split; [split; [exact Hin|]|]; intros [-> H]; apply Hn;
        (split; [reflexivity|]); [left; congruence|right; exact H].
Qed.

(** [load_local_history]: the local history is rebuilt from [txi] and [txo]. *)
Definition load_local_history s : AddressSynchronizer :=
  fold_left (fun s1 t => _add_tx_to_local_history t s1)
    (dkeys (txi s) ++ dkeys (txo s)) (with_history_local s []).

Lemma load_local_history_shape s l : forall hl,
  fold_left (fun s1 t => _add_tx_to_local_history t s1) l (with_history_local s hl)
  = with_history_local s
      (fold_left (fun hl1 t => fold_left (hl_add t) (local_history_keys s t) hl1) l hl).
Proof.
  induction l as [|t l IH]; intros hl; simpl; [reflexivity|].
  rewrite add_tx_to_local_history_shape. simpl.
  change (local_history_keys (with_history_local s hl) t) with (local_history_keys s t).
  apply IH.
Qed.

Lemma load_fold_In s l : forall hl a t',
  In t' (hl_get a (fold_left (fun hl1 t => fold_left (hl_add t) (local_history_keys s t) hl1)
                     l hl))
  <-> In t' (hl_get a hl) \/ (In t' l /\ In a (local_history_keys s t')).
Proof.
  induction l as [|t l IH]; intros hl a t'; simpl; [tauto|].
  rewrite IH, fold_hl_add_In. split.
  - intros [[H|[-> H]]|[H1 H2]]; tauto.
  - intros [H|[[<-|H1] H2]]; tauto.
Qed.

Lemma load_fold_NoDup s l : forall hl,
  (forall a, NoDup (hl_get a hl)) ->
  forall a, NoDup (hl_get a (fold_left
                               (fun hl1 t => fold_left (hl_add t) (local_history_keys s t) hl1)
                               l hl)).
Proof.
  induction l as [|t l IH]; intros hl Hnd a; simpl; [apply Hnd|].
  apply IH. apply fold_hl_add_NoDup. exact Hnd.
Qed.

Lemma local_history_keys_iff s a t :
  In a (local_history_keys s t) <-> In a (dkeys (txi_of s t)) \/ In a (dkeys (txo_of s t)).
Proof. unfold local_history_keys. apply in_app_iff. Qed.

Lemma indexed_key s a t :
  In a (local_history_keys s t) -> In t (dkeys (txi s) ++ dkeys (txo s)).
Proof.
  intros Hin. apply local_history_keys_iff in Hin. apply in_or_app.
  destruct Hin as [Hin|Hin]; [left|right].
  - unfold txi_of in Hin. destruct (dget t (txi s)) as [d|] eqn:Hd; [|destruct Hin].
    apply dget_In in Hd. apply (in_map fst) in Hd. exact Hd.
  - unfold txo_of in Hin. destruct (dget t (txo s)) as [d|] eqn:Hd; [|destruct Hin].
    apply dget_In in Hd. apply (in_map fst) in Hd. exact Hd.
Qed.

Lemma local_history_consistent_alt s :
  local_history_consistent s
  <-> (forall a t, In t (hl_get a (_history_local s)) <-> In a (local_history_keys s t)).
Proof.
  unfold local_history_consistent, hl_get.
  split; intros H a t; [rewrite local_history_keys_iff|rewrite <- local_history_keys_iff];
    apply H.
Qed.

Lemma loaded_local_history s :
  local_history_consistent (load_local_history s)
  /\ local_history_sets (load_local_history s).
Proof.
  unfold load_local_history. rewrite load_local_history_shape. split.
  - apply local_history_consistent_alt. intros a t.
    change (local_history_keys (with_history_local s _) t) with (local_history_keys s t).
    change (_history_local (with_history_local s ?x)) with x.
    cbn [_history_local with_history_local].
    rewrite load_fold_In. split.
    + intros [[]|[_ H]]. exact H.
    + intros H. right. split; [eapply indexed_key; exact H|exact H].
  - intros a. cbn [_history_local with_history_local].
    apply load_fold_NoDup. intros a'. constructor.
Qed.

(** [load_local_history] establishes invariant P2 of the specification,
    whatever [txi] and [txo] hold: the local history of an address lists
    exactly the transactions with the address among the keys of their [txi]
    or [txo] entry, each once. *)
Theorem load_local_history_consistent :
  forall s,
    local_history_consistent (load_local_history s)
    /\ local_history_sets (load_local_history s)
    /\ txi (load_local_history s) = txi s
    /\ txo (load_local_history s) = txo s.
Proof.
  intros s. destruct (loaded_local_history s) as [Hcons Hsets].
  split; [exact Hcons|]. split; [exact Hsets|].
  unfold load_local_history. rewrite load_local_history_shape. split; reflexivity.
Qed.

(** [remove_transaction] keeps invariant P2: when the local history is the
    inverse index of [txi] and [txo] and [remove_transaction] returns, it
    still is, and the removed transaction is in no local history. *)
Theorem remove_transaction_keeps_local_history :
  forall tx_hash s s',
    local_history_consistent s ->
    local_history_sets s ->
    remove_transaction tx_hash s = Ret tt s' ->
    local_history_consistent s'
    /\ local_history_sets s'
    /\ (forall a, ~ In tx_hash (hl_get a (_history_local s'))).
Proof.
  intros tx_hash s s' Hcons Hsets Hret.
  assert (Hshape : exists txs so,
             s' = remove_transaction_finish tx_hash
                    (with_spent_outpoints (with_transactions s txs) so)).
  { unfold remove_transaction in Hret. destruct (dget tx_hash (transactions s)) as [tx|].
    - injection Hret as <-. eexists. eexists. reflexivity.
    - destruct (find_spend tx_hash _) as [[h n]|]; [discriminate|].
      injection Hret as <-. exists (dpop tx_hash (transactions s)), (spent_outpoints s).
      reflexivity. }
  destruct Hshape as [txs [so ->]]. unfold remove_transaction_finish.
  rewrite remove_tx_from_local_history_shape.
  destruct (fold_hl_remove_spec tx_hash (local_history_keys s tx_hash) (_history_local s) Hsets)
    as [Hnd Hin].
  pose proof (proj1 (local_history_consistent_alt s) Hcons) as Hcons'.
  split; [|split].
  - apply local_history_consistent_alt. intros a t.
    cbn [_history_local with_history_local with_txi with_txo with_spent_outpoints
         with_transactions].
    change (local_history_keys (with_spent_outpoints _ _) tx_hash)
      with (local_history_keys s tx_hash).
    rewrite Hin, Hcons'. rewrite !local_history_keys_iff.
    unfold txi_of, txo_of. cbn [txi txo with_txi with_txo with_history_local
                                with_spent_outpoints with_transactions].
    rewrite !dget_dpop. destruct (eq_dec t tx_hash) as [->|Hne].
    + simpl. tauto.
    + split; [tauto|]. intros H. split; [exact H|]. intros [Heq _]. contradiction.
  - intros a. cbn [_history_local with_history_local with_txi with_txo with_spent_outpoints
         with_transactions].
    change (local_history_keys (with_spent_outpoints _ _) tx_hash)
      with (local_history_keys s tx_hash). apply Hnd.
  - intros a. cbn [_history_local with_history_local with_txi with_txo with_spent_outpoints
         with_transactions].
    change (local_history_keys (with_spent_outpoints _ _) tx_hash)
      with (local_history_keys s tx_hash).
    rewrite Hin, Hcons'. tauto.
Qed.

(** ** Balances and unspent outputs *)

(** [c + u + x] *)
Definition total3 (p : Z * Z * Z) : Z := let '(c, u, x) := p in c + u + x.

(** The value a received output still holds: nothing once it is spent. *)
Definition unspent_value (sent : dict string Z) (r : string * (Z * Z * bool)) : Z :=
  match dget (fst r) sent with
  | Some _ => 0
  | None => snd (fst (snd r))
  end.

Lemma get_addr_balance_total s addr :
  total3 (get_addr_balance s addr)
  = Zsum (map (unspent_value (snd (get_addr_io s addr))) (fst (get_addr_io s addr))).
Proof.
  unfold get_addr_balance. destruct (get_addr_io s addr) as [received sent].
  cbn [fst snd].
  match goal with |- context [fold_left ?F _ _] => set (F0 := F) end.
  assert (Hgen : forall l p, total3 (fold_left F0 l p)
                             = total3 p + Zsum (map (unspent_value sent) l)).
  { induction l as [|r l IH]; intros p; simpl; [lia|].
    rewrite IH. destruct p as [[c u] x]. destruct r as [txo0 [[h v] cb]].
    unfold F0, unspent_value. cbn [fst snd].
    destruct (cb && (get_local_height s <? h + COINBASE_MATURITY)); [|destruct (0 <? h)];
      (destruct (dget txo0 sent) as [sh|]; [destruct (0 <? sh)|]); simpl; lia. }
  rewrite Hgen. simpl. reflexivity.
Qed.

(** [dict.pop(key)] without a default, and the unpacking and [int()] of
    [get_addr_utxo], can fail. *)
Inductive lookup_error :=
| KeyError (key : string)
| ValueError.

(** The character [':'] *)
Definition colon : Ascii.ascii := Eval cbv in Ascii.ascii_of_nat 58.

(** [str.split(sep)] for a separator of one character. *)
Fixpoint split (sep : Ascii.ascii) (str : string) : list string :=
  match str with
  | EmptyString => [EmptyString]
  | String c rest =>
      if Ascii.eqb c sep then EmptyString :: split sep rest
      else match split sep rest with
           | piece :: pieces => String c piece :: pieces
           | [] => [String c EmptyString]
           end
  end.

(** [int(text)] for an optional minus sign and decimal digits; other text is
    a [ValueError]. *)
Definition py_int (text : string) : option Z :=
  option_map Z.of_int (DecimalString.NilZero.int_of_string text).

(** [prevout_hash, prevout_n = txo.split(':')] and [int(prevout_n)] *)
Definition parse_outpoint (txo0 : string) : lookup_error + (string * Z) :=
  match split colon txo0 with
  | [h; n] =>
      match py_int n with
      | Some k => inr (h, k)
      | None => inl ValueError
      end
  | _ => inl ValueError
  end.

(** The dictionaries [get_addr_utxo] returns. *)
Record utxo := mkUtxo {
  utxo_address : Address;
  utxo_value : Z;
  utxo_prevout_n : Z;
  utxo_prevout_hash : string;
  utxo_height : Z;
  utxo_coinbase : bool
}.

(** [for txi in spent: coins.pop(txi)] *)
Fixpoint pop_spent (spent : list string) (coins : dict string (Z * Z * bool))
  : lookup_error + dict string (Z * Z * bool) :=
  match spent with
  | [] => inr coins
  | txi0 :: rest =>
      if dmem txi0 coins then pop_spent rest (dpop txi0 coins) else inl (KeyError txi0)
  end.

Fixpoint collect_utxo (address0 : Address) (coins : list (string * (Z * Z * bool)))
    (out : dict string utxo) : lookup_error + dict string utxo :=
  match coins with
  | [] => inr out
  | (txo0, (tx_height, value0, is_cb)) :: rest =>
      match parse_outpoint txo0 with
      | inl e => inl e
      | inr (prevout_hash0, prevout_n0) =>
          collect_utxo address0 rest
            (dset txo0 (mkUtxo address0 value0 prevout_n0 prevout_hash0 tx_height is_cb) out)
      end
  end.

Definition get_addr_utxo s (address0 : Address) : lookup_error + dict string utxo :=
  let '(coins, spent) := get_addr_io s address0 in
  match pop_spent (dkeys spent) coins with
  | inl e => inl e
  | inr coins1 => collect_utxo address0 coins1 []
  end.

(** [get_addr_received] *)
Definition get_addr_received s (address0 : Address) : Z :=
  let '(received, _) := get_addr_io s address0 in
  Zsum (map (fun r : string * (Z * Z * bool) => snd (fst (snd r))) received).

(** [is_used] and [is_empty] *)
Definition is_used s (address0 : Address) : bool :=
  let h := match dget address0 (history s) with Some l => l | None => [] end in
  negb (Nat.eqb (length h) 0).

Definition is_empty s (address0 : Address) : bool :=
  let '(c, u, x) := get_addr_balance s address0 in Z.eqb (c + u + x) 0.

(** [get_utxos] over [set(domain) - excluded], with its three filters; the
    domain defaults to the addresses of the wallet, and [excluded] is empty
    when the caller gives none. *)
Definition keep_utxo s (mature confirmed_only nonlocal_only : bool) (x : utxo) : bool :=
  if confirmed_only && Z.leb (utxo_height x) 0 then false
  else if nonlocal_only && Z.eqb (utxo_height x) TX_HEIGHT_LOCAL then false
  else if mature && utxo_coinbase x
          && Z.ltb (get_local_height s) (utxo_height x + COINBASE_MATURITY) then false
  else true.

Fixpoint get_utxos_loop s (domain : list Address) (mature confirmed_only nonlocal_only : bool)
    (coins : list utxo) : lookup_error + list utxo :=
  match domain with
  | [] => inr coins
  | addr :: rest =>
      match get_addr_utxo s addr with
      | inl e => inl e
      | inr utxos =>
          get_utxos_loop s rest mature confirmed_only nonlocal_only
            (coins ++ filter (keep_utxo s mature confirmed_only nonlocal_only) (map snd utxos))
      end
  end.

Definition get_utxos s (domain : option (list Address)) (excluded : set Address)
    (mature confirmed_only nonlocal_only : bool) : lookup_error + list utxo :=
  let domain0 := set_of_list (match domain with Some l => l | None => dkeys (history s) end) in
  let domain1 := filter (fun a => negb (smem a excluded)) domain0 in
  get_utxos_loop s domain1 mature confirmed_only nonlocal_only [].

(** *** Outpoints written and read back *)

Fixpoint count_colon (str : string) : nat :=
  match str with
  | EmptyString => 0
  | String c rest => (if Ascii.eqb c colon then 1 else 0) + count_colon rest
  end.

Definition has_colon (str : string) : bool := negb (Nat.eqb (count_colon str) 0).

Lemma count_colon_app a b :
  count_colon (a ++ b)%string = (count_colon a + count_colon b)%nat.
Proof. induction a as [|c a IH]; simpl; [reflexivity|]. rewrite IH. lia. Qed.

Lemma split_length str : length (split colon str) = S (count_colon str).
Proof.
  induction str as [|c rest IH]; simpl; [reflexivity|].
  destruct (Ascii.eqb c colon); simpl; [rewrite IH; reflexivity|].
  destruct (split colon rest) as [|piece pieces]; simpl in *; [discriminate|exact IH].
Qed.

Lemma split_no_colon str : count_colon str = 0%nat -> split colon str = [str].
Proof.
  induction str as [|c rest IH]; simpl; [reflexivity|].
  destruct (Ascii.eqb c colon); simpl; [discriminate|].
  intros H0. rewrite (IH H0). reflexivity.
Qed.

Lemma split_app h t :
  count_colon h = 0%nat -> split colon (h ++ String colon t)%string = h :: split colon t.
Proof.
  induction h as [|c h IH]; simpl; [reflexivity|].
  destruct (Ascii.eqb c colon); simpl; [discriminate|].
  intros H0. rewrite (IH H0). reflexivity.
Qed.

Lemma count_colon_uint d : count_colon (DecimalString.NilEmpty.string_of_uint d) = 0%nat.
Proof. induction d; simpl; auto. Qed.

Lemma count_colon_nz_uint d : count_colon (DecimalString.NilZero.string_of_uint d) = 0%nat.
Proof.
  pose proof (count_colon_uint d) as H.
  unfold DecimalString.NilZero.string_of_uint. destruct d; [reflexivity|exact H..].
Qed.

Lemma count_colon_fmt_d n : count_colon (fmt_d n) = 0%nat.
Proof.
  unfold fmt_d, DecimalString.NilZero.string_of_int.
  destruct (Z.to_int n) as [d|d]; [apply count_colon_nz_uint|].
  cbn [count_colon]. rewrite count_colon_nz_uint. reflexivity.
Qed.

Lemma py_int_fmt_d n : py_int (fmt_d n) = Some n.
Proof.
  unfold py_int, fmt_d. destruct n as [|p|p].
  - reflexivity.
  - rewrite DecimalString.NilZero.isi.
    + simpl. f_equal. apply (DecimalZ.of_to (Z.pos p)).
    + simpl. intros [= Hnil]. exact (DecimalPos.Unsigned.to_uint_nonnil p Hnil).
    + discriminate.
  - rewrite DecimalString.NilZero.isi.
    + simpl. f_equal. apply (DecimalZ.of_to (Z.neg p)).
    + discriminate.
    + simpl. intros [= Hnil]. exact (DecimalPos.Unsigned.to_uint_nonnil p Hnil).
Qed.

Lemma parse_outpoint_ser h n :
  parse_outpoint (outpoint_ser h n)
  = if has_colon h then inl ValueError else inr (h, n).
Proof.
  unfold parse_outpoint, outpoint_ser, has_colon.
  change (":" ++ fmt_d n)%string with (String colon (fmt_d n)).
  destruct (count_colon h) as [|k] eqn:Hc; simpl.
  - rewrite (split_app h (fmt_d n) Hc), (split_no_colon _ (count_colon_fmt_d n)).
    rewrite py_int_fmt_d. reflexivity.
  - pose proof (split_length (h ++ String colon (fmt_d n))%string) as Hlen.
    rewrite count_colon_app, Hc in Hlen. simpl in Hlen.
    destruct (split colon (h ++ String colon (fmt_d n))%string) as [|a [|b [|c l]]];
      simpl in Hlen; try reflexivity; try discriminate.
    exfalso. destruct (Ascii.eqb colon colon) eqn:E; [simpl in Hlen; lia|discriminate E].
Qed.

Lemma fold_left_inv_gen {A B : Type} (P : B -> Prop) (f : B -> A -> B) (l : list A) :
  (forall b a, In a l -> P b -> P (f b a)) -> forall b, P b -> P (fold_left f l b).
Proof.
  induction l as [|a l IH]; intros Hf b Hb; simpl; [exact Hb|].
  apply IH.
  - intros b1 a1 Hin. apply Hf. right. exact Hin.
  - apply Hf; [left; reflexivity|exact Hb].
Qed.

(** Where an entry of [received] comes from: an output to the address of a
    transaction of its local history. *)
Definition received_from s (addr : Address) (k : string) (val : Z * Z * bool) : Prop :=
  exists t n,
    k = outpoint_ser t n
    /\ In t (hl_get addr (_history_local s))
    /\ fst (fst val) = height (get_tx_height s t)
    /\ In (n, snd (fst val), snd val)
         (match dget addr (txo_of s t) with Some l => l | None => [] end).

Lemma get_addr_io_received s addr :
  wf (fst (get_addr_io s addr))
  /\ forall k val, dget k (fst (get_addr_io s addr)) = Some val -> received_from s addr k val.
Proof.
  unfold get_addr_io. cbn [fst].
  apply (fold_left_inv_gen
           (fun received : dict string (Z * Z * bool) =>
              wf received
              /\ forall k val, dget k received = Some val -> received_from s addr k val)).
  - intros received e He Hrec.
    unfold get_address_history in He. apply in_map_iff in He.
    destruct He as [t [<- Ht]]. cbn [fst snd].
    apply (fold_left_inv_gen
             (fun received : dict string (Z * Z * bool) =>
                wf received
                /\ forall k val, dget k received = Some val -> received_from s addr k val));
      [|exact Hrec].
    intros rec1 o Ho [Hwf Hfrom]. split; [apply wf_dset; exact Hwf|].
    intros k val. rewrite dget_dset. destruct (eq_dec k _) as [->|Hne].
    + intros [= <-]. exists t, (fst (fst o)). cbn [fst snd].
      split; [reflexivity|]. split; [exact Ht|]. split; [reflexivity|].
      destruct o as [[n v] cb]. exact Ho.
    + apply Hfrom.
  - split; [constructor|]. intros k val [=].
Qed.

Lemma existsb_dkeys {V : Type} (x : string) (d : dict string V) :
  existsb (fun k => eqb_of k x) (dkeys d) = dmem x d.
Proof.
  unfold dmem. induction d as [|[k v] d IH]; simpl; [reflexivity|].
  unfold eqb_of at 1. destruct (eq_dec k x) as [->|Hne]; simpl.
  - destruct (eq_dec x x); [reflexivity|congruence].
  - destruct (eq_dec x k); [congruence|exact IH].
Qed.

Lemma pop_spent_ok spent : forall coins coins1,
  pop_spent spent coins = inr coins1 ->
  coins1 = filter (fun r => negb (existsb (fun k => eqb_of k (fst r)) spent)) coins.
Proof.
  induction spent as [|k spent IH]; intros coins coins1; simpl.
  - intros [= <-]. induction coins as [|r coins IHc]; simpl; [reflexivity|].
    f_equal. exact IHc.
  - destruct (dmem k coins); [|discriminate]. intros Hpop.
    rewrite (IH _ _ Hpop). unfold dpop. clear.
    induction coins as [|r coins IHc]; simpl; [reflexivity|].
    destruct (eqb_of k (fst r)); simpl; [exact IHc|].
    destruct (existsb _ spent); simpl; [exact IHc|]. f_equal. exact IHc.
Qed.

Lemma pop_spent_missing spent : forall coins k,
  In k spent -> dget k coins = None ->
  exists k', pop_spent spent coins = inl (KeyError k').
Proof.
  induction spent as [|k0 spent IH]; intros coins k Hin Hnone; [destruct Hin|]. simpl.
  destruct (dmem k0 coins) eqn:Hmem; [|eexists; reflexivity].
  destruct Hin as [->|Hin].
  - apply dmem_true in Hmem. destruct Hmem as [v Hv]. congruence.
  - apply (IH _ k Hin). rewrite dget_dpop. destruct (eq_dec k k0); [reflexivity|exact Hnone].
Qed.

Lemma pop_spent_present spent : forall coins,
  NoDup spent -> (forall k, In k spent -> dmem k coins = true) ->
  exists coins1, pop_spent spent coins = inr coins1.
Proof.
  induction spent as [|k0 spent IH]; intros coins Hnd Hall; simpl; [eexists; reflexivity|].
  rewrite (Hall k0 (or_introl eq_refl)). inversion Hnd as [|? ? Hnotin Hnd']; subst.
  apply IH; [exact Hnd'|]. intros k Hk. unfold dmem. rewrite dget_dpop.
  destruct (eq_dec k k0) as [->|Hne]; [contradiction|].
  apply Hall. right. exact Hk.
Qed.

(** The coin that [get_addr_utxo] builds for an entry of [received]. *)
Definition coin_for (address0 : Address) (r : string * (Z * Z * bool)) (c : string * utxo)
  : Prop :=
  fst c = fst r
  /\ parse_outpoint (fst r) = inr (utxo_prevout_hash (snd c), utxo_prevout_n (snd c))
  /\ utxo_address (snd c) = address0
  /\ utxo_value (snd c) = snd (fst (snd r))
  /\ utxo_height (snd c) = fst (fst (snd r))
  /\ utxo_coinbase (snd c) = snd (snd r).

Lemma dset_fresh {V : Type} (k : string) (v : V) (d : dict string V) :
  dget k d = None -> dset k v d = d ++ [(k, v)].
Proof.
  induction d as [|[k' v'] d IH]; simpl; [reflexivity|].
  destruct (eq_dec k k'); [discriminate|]. intros Hn. rewrite (IH Hn). reflexivity.
Qed.

Lemma dget_app_None {V : Type} (k : string) (d d' : dict string V) :
  dget k (d ++ d') = None <-> dget k d = None /\ dget k d' = None.
Proof.
  induction d as [|[k' v'] d IH]; simpl; [tauto|].
  destruct (eq_dec k k'); [split; [discriminate|intros [[=] _]]|exact IH].
Qed.

Lemma collect_utxo_ok address0 : forall coins out out',
  wf coins -> (forall k, In k (dkeys coins) -> dget k out = None) ->
  collect_utxo address0 coins out = inr out' ->
  exists added, out' = out ++ added /\ Forall2 (coin_for address0) coins added.
Proof.
  induction coins as [|[txo0 [[h v] cb]] coins IH]; intros out out' Hwf Hfresh; simpl.
  - intros [= <-]. exists []. rewrite app_nil_r. split; [reflexivity|constructor].
  - destruct (parse_outpoint txo0) as [e|[ph pn]] eqn:Hparse; [discriminate|].
    intros Hcol. inversion Hwf as [|? ? Hnotin Hwf']; subst.
    rewrite (dset_fresh _ _ _ (Hfresh txo0 (or_introl eq_refl))) in Hcol.
    apply IH in Hcol; [|exact Hwf'|].
    + destruct Hcol as [added [-> Hall]].
      exists ((txo0, mkUtxo address0 v pn ph h cb) :: added).
      rewrite <- app_assoc. split; [reflexivity|].
      constructor; [|exact Hall]. unfold coin_for. cbn [fst snd utxo_prevout_hash
        utxo_prevout_n utxo_address utxo_value utxo_height utxo_coinbase].
      repeat split; try reflexivity. exact Hparse.
    + intros k Hk. apply dget_app_None. split; [apply Hfresh; right; exact Hk|].
      simpl. destruct (eq_dec k txo0) as [->|Hne]; [contradiction|reflexivity].
Qed.

Lemma collect_utxo_parsed address0 : forall coins out,
  (forall r, In r coins -> exists p, parse_outpoint (fst r) = inr p) ->
  exists out', collect_utxo address0 coins out = inr out'.
Proof.
  induction coins as [|[txo0 [[h v] cb]] coins IH]; intros out Hall; simpl;
    [eexists; reflexivity|].
  destruct (Hall _ (or_introl eq_refl)) as [[ph pn] Hp]. cbn [fst] in Hp. rewrite Hp.
  apply IH. intros r Hr. apply Hall. right. exact Hr.
Qed.

Lemma wf_filter {V : Type} (f : string * V -> bool) (d : dict string V) :
  wf d -> wf (filter f d).
Proof.
  unfold wf. induction d as [|r d IH]; simpl; [auto|].
  intros Hnd. inversion Hnd as [|? ? Hnotin Hnd']; subst.
  destruct (f r); simpl; [|auto]. constructor; [|auto].
  intros Hin. apply Hnotin. apply in_map_iff in Hin. destruct Hin as [r' [Heq Hr']].
  apply filter_In in Hr'. apply in_map_iff. exists r'. tauto.
Qed.

(** What [get_addr_utxo] does, in one statement: it pops the spent outpoints
    and builds one coin for each entry that is left. *)
Lemma get_addr_utxo_shape s address0 out :
  get_addr_utxo s address0 = inr out ->
  Forall2 (coin_for address0)
    (filter (fun r => negb (dmem (fst r) (snd (get_addr_io s address0))))
       (fst (get_addr_io s address0)))
    out.
Proof.
  unfold get_addr_utxo. pose proof (get_addr_io_received s address0) as [Hwf _].
  destruct (get_addr_io s address0) as [coins spent]. cbn [fst snd] in *.
  destruct (pop_spent (dkeys spent) coins) as [e|coins1] eqn:Hpop; [discriminate|].
  apply pop_spent_ok in Hpop. intros Hcol.
  apply collect_utxo_ok in Hcol.
  - destruct Hcol as [added [-> Hall]]. simpl. subst coins1.
    erewrite filter_ext; [exact Hall|]. intros r. cbn beta.
    rewrite existsb_dkeys. reflexivity.
  - subst coins1. apply wf_filter. exact Hwf.
  - intros k _. reflexivity.
Qed.

Lemma Forall2_In_r {A B : Type} (R : A -> B -> Prop) (l : list A) (l' : list B) (b : B) :
  Forall2 R l l' -> In b l' -> exists a, In a l /\ R a b.
Proof.
  induction 1 as [|a b' l l' Hab Hall IH]; intros Hin; [destruct Hin|].
  destruct Hin as [->|Hin]; [exists a; split; [left; reflexivity|exact Hab]|].
  destruct (IH Hin) as [a' [Ha' HR]]. exists a'. split; [right; exact Ha'|exact HR].
Qed.

Lemma Forall2_In_l {A B : Type} (R : A -> B -> Prop) (l : list A) (l' : list B) (a : A) :
  Forall2 R l l' -> In a l -> exists b, In b l' /\ R a b.
Proof.
  induction 1 as [|a' b l l' Hab Hall IH]; intros Hin; [destruct Hin|].
  destruct Hin as [->|Hin]; [exists b; split; [left; reflexivity|exact Hab]|].
  destruct (IH Hin) as [b' [Hb' HR]]. exists b'. split; [right; exact Hb'|exact HR].
Qed.

(** Reading back an outpoint that [get_addr_io] wrote as
    [tx_hash + ':%d' % n]: [split(':')] and [int()] give [tx_hash] and [n]
    again when the hash holds no colon, and the unpacking of the split fails
    with [ValueError] when it holds one. *)
Theorem outpoint_round_trip :
  forall (h : Txid) (n : Z),
    parse_outpoint (outpoint_ser h n) = if has_colon h then inl ValueError else inr (h, n).
Proof. intros h n. apply parse_outpoint_ser. Qed.

(** The coins [get_addr_utxo] returns are the received outputs that no
    transaction of the address's local history spends: each coin is keyed by
    its own outpoint, belongs to the address, comes from an output of a
    transaction of the local history with that transaction's height, and is
    absent from [sent]; and every unspent entry of [received] has its coin. *)
Theorem get_addr_utxo_coins :
  forall s (address0 : Address) (out : dict string utxo),
    get_addr_utxo s address0 = inr out ->
    (forall k x, In (k, x) out ->
       utxo_address x = address0
       /\ k = outpoint_ser (utxo_prevout_hash x) (utxo_prevout_n x)
       /\ In (utxo_prevout_hash x) (hl_get address0 (_history_local s))
       /\ utxo_height x = height (get_tx_height s (utxo_prevout_hash x))
       /\ In (utxo_prevout_n x, utxo_value x, utxo_coinbase x)
            (match dget address0 (txo_of s (utxo_prevout_hash x)) with
             | Some l => l | None => [] end)
       /\ dget k (snd (get_addr_io s address0)) = None)
    /\ (forall k val,
          dget k (fst (get_addr_io s address0)) = Some val ->
          dget k (snd (get_addr_io s address0)) = None ->
          exists x, In (k, x) out).
Proof.
  intros s address0 out Hout. pose proof (get_addr_utxo_shape s address0 out Hout) as Hshape.
  pose proof (get_addr_io_received s address0) as [Hwf Hfrom]. split.
  - intros k x Hin.
    destruct (Forall2_In_r _ _ _ _ Hshape Hin) as [[k0 val] [Hr Hcoin]].
    apply filter_In in Hr. destruct Hr as [Hr Hunspent]. cbn [fst] in Hunspent.
    destruct Hcoin as [Hk [Hparse [Haddr [Hv [Hh Hcb]]]]]. cbn [fst snd] in *. subst k0.
    destruct (Hfrom k val (In_dget _ _ _ Hwf Hr)) as [t [n [Hser [Ht [Hheight Hout0]]]]].
    rewrite Hser, parse_outpoint_ser in Hparse.
    destruct (has_colon t); [discriminate|]. injection Hparse as Hph Hpn.
    rewrite <- Hph, <- Hpn, Hv, Hh, Hcb. repeat split; try assumption.
    apply dmem_false. destruct (dmem k _); [discriminate|reflexivity].
  - intros k val Hget Hunspent.
    assert (Hin : In (k, val)
                    (filter (fun r => negb (dmem (fst r) (snd (get_addr_io s address0))))
                       (fst (get_addr_io s address0)))).
    { apply filter_In. split; [apply dget_In; exact Hget|]. cbn [fst].
      apply dmem_false in Hunspent. rewrite Hunspent. reflexivity. }
    destruct (Forall2_In_l _ _ _ _ Hshape Hin) as [[k' x] [Hin' Hcoin]].
    destruct Hcoin as [Hk _]. cbn [fst] in Hk. subst k'. exists x. exact Hin'.
Qed.

Lemma is_empty_total s address0 :
  is_empty s address0 = Z.eqb (total3 (get_addr_balance s address0)) 0.
Proof.
  unfold is_empty, total3. destruct (get_addr_balance s address0) as [[c u] x]. reflexivity.
Qed.

(** The balance of an address is the value of its coins: whenever
    [get_addr_utxo] returns, the three parts of [get_addr_balance] add up to
    the sum of the values of the coins, and [is_empty] tells whether that sum
    is 0. *)
Theorem get_addr_balance_is_utxo_value :
  forall s (address0 : Address) (out : dict string utxo),
    get_addr_utxo s address0 = inr out ->
    total3 (get_addr_balance s address0) = Zsum (map (fun c => utxo_value (snd c)) out)
    /\ is_empty s address0 = Z.eqb (Zsum (map (fun c => utxo_value (snd c)) out)) 0.
Proof.
  intros s address0 out Hout. rewrite is_empty_total.
  cut (total3 (get_addr_balance s address0) = Zsum (map (fun c => utxo_value (snd c)) out));
    [intros ->; split; reflexivity|].
  pose proof (get_addr_utxo_shape s address0 out Hout) as Hshape.
  rewrite get_addr_balance_total. clear Hout.
  revert Hshape. generalize (snd (get_addr_io s address0)). intros sent.
  generalize (fst (get_addr_io s address0)). intros received. revert out.
  induction received as [|r received IH]; intros out Hshape; simpl in *.
  - inversion Hshape. reflexivity.
  - unfold unspent_value at 1. unfold dmem in Hshape.
    destruct (dget (fst r) sent) as [sh|]; simpl in Hshape.
    + rewrite (IH out Hshape). lia.
    + inversion Hshape as [|? c ? out1 Hcoin Hrest]; subst. simpl.
      rewrite (IH out1 Hrest). destruct Hcoin as [_ [_ [_ [Hv _]]]]. rewrite Hv. reflexivity.
Qed.

(** [get_addr_utxo] pops every spent outpoint from the received ones without
    a default: when the local history of the address spends an outpoint that
    it does not fund, the call raises [KeyError]. *)
Theorem get_addr_utxo_key_error :
  forall s (address0 : Address) (k : string),
    In k (dkeys (snd (get_addr_io s address0))) ->
    dget k (fst (get_addr_io s address0)) = None ->
    exists k', get_addr_utxo s address0 = inl (KeyError k').
Proof.
  intros s address0 k Hin Hnone. unfold get_addr_utxo.
  destruct (get_addr_io s address0) as [coins spent]. cbn [fst snd] in *.
  destruct (pop_spent_missing _ _ _ Hin Hnone) as [k' Hk']. rewrite Hk'.
  exists k'. reflexivity.
Qed.

Lemma Zsum_cons (x : Z) (l : list Z) : Zsum (x :: l) = x + Zsum l.
Proof. reflexivity. Qed.

Lemma received_split (sent : dict string Z) (l : list (string * (Z * Z * bool))) :
  Zsum (map (fun r : string * (Z * Z * bool) => snd (fst (snd r))) l)
  = Zsum (map (unspent_value sent) l)
    + Zsum (map (fun r : string * (Z * Z * bool) => snd (fst (snd r)))
              (filter (fun r => dmem (fst r) sent) l)).
Proof.
  induction l as [|r l IH]; [reflexivity|].
  assert (Hr : unspent_value sent r = if dmem (fst r) sent then 0 else snd (fst (snd r))).
  { unfold unspent_value, dmem. destruct (dget (fst r) sent); reflexivity. }
  cbn [map filter]. rewrite !Zsum_cons, Hr, IH.
  destruct (dmem (fst r) sent); cbn [map]; rewrite ?Zsum_cons; lia.
Qed.

(** What an address ever received is its balance plus the value of the
    received outputs that its local history spends. *)
Theorem get_addr_received_is_balance_plus_spent :
  forall s (address0 : Address),
    get_addr_received s address0
    = total3 (get_addr_balance s address0)
      + Zsum (map (fun r : string * (Z * Z * bool) => snd (fst (snd r)))
                (filter (fun r => dmem (fst r) (snd (get_addr_io s address0)))
                   (fst (get_addr_io s address0)))).
Proof.
  intros s address0. rewrite get_addr_balance_total. unfold get_addr_received.
  destruct (get_addr_io s address0) as [received sent]. cbn [fst snd].
  apply received_split.
Qed.

Lemma In_set_of_list {A : Type} `{EqDec A} (x : A) (l : list A) :
  In x (set_of_list l) <-> In x l.
Proof.
  unfold set_of_list.
  assert (Hgen : forall l0 X, In x (fold_left (fun X0 x0 => sadd x0 X0) l0 X)
                              <-> In x X \/ In x l0).
  { induction l0 as [|a l0 IH]; intros X; simpl; [tauto|].
    rewrite IH, sadd_In. split; [intros [[->|Hx]|Hx]|intros [Hx|[->|Hx]]]; tauto. }
  rewrite Hgen. simpl. tauto.
Qed.

Lemma get_utxos_loop_spec s mature confirmed_only nonlocal_only :
  forall domain coins0 coins,
    get_utxos_loop s domain mature confirmed_only nonlocal_only coins0 = inr coins ->
    forall x, In x coins ->
      In x coins0
      \/ (In (utxo_address x) domain
          /\ keep_utxo s mature confirmed_only nonlocal_only x = true).
Proof.
  induction domain as [|addr domain IH]; intros coins0 coins; simpl.
  - intros [= <-] x Hx. left. exact Hx.
  - destruct (get_addr_utxo s addr) as [e|utxos] eqn:Hu; [discriminate|].
    intros Hloop x Hx. destruct (IH _ _ Hloop x Hx) as [Hin|[Hd Hk]]; [|tauto].
    apply in_app_or in Hin. destruct Hin as [Hin|Hin]; [left; exact Hin|right].
    apply filter_In in Hin. destruct Hin as [Hin Hkeep]. split; [|exact Hkeep].
    apply in_map_iff in Hin. destruct Hin as [[k x'] [Heq Hin]]. cbn [snd] in Heq. subst x'.
    left. destruct (Forall2_In_r _ _ _ _ (get_addr_utxo_shape s addr utxos Hu) Hin)
      as [r [_ [_ [_ [Ha _]]]]].
    cbn [snd] in Ha. symmetry. exact Ha.
Qed.

(** Every coin [get_utxos] returns belongs to an address of the domain that
    is not excluded and passes the filters that are switched on: confirmed
    (height above 0), not local, and, for a coinbase output, mature. *)
Theorem get_utxos_filters :
  forall s (domain : option (list Address)) (excluded : set Address)
         (mature confirmed_only nonlocal_only : bool) (coins : list utxo) (x : utxo),
    get_utxos s domain excluded mature confirmed_only nonlocal_only = inr coins ->
    In x coins ->
    In (utxo_address x) (match domain with Some l => l | None => dkeys (history s) end)
    /\ ~ In (utxo_address x) excluded
    /\ (confirmed_only = true -> 0 < utxo_height x)
    /\ (nonlocal_only = true -> utxo_height x <> TX_HEIGHT_LOCAL)
    /\ (mature = true -> utxo_coinbase x = true ->
        utxo_height x + COINBASE_MATURITY <= get_local_height s).
Proof.
  intros s domain excluded mature confirmed_only nonlocal_only coins x Hget Hx.
  unfold get_utxos in Hget.
  destruct (get_utxos_loop_spec _ _ _ _ _ _ _ Hget x Hx) as [[]|[Hd Hkeep]].
  apply filter_In in Hd. destruct Hd as [Hd Hex].
  apply (proj1 (In_set_of_list _ _)) in Hd.
  split; [exact Hd|]. split.
  { apply smem_false. destruct (smem _ excluded); [discriminate|reflexivity]. }
  unfold keep_utxo in Hkeep.
  destruct confirmed_only, nonlocal_only, mature; cbn [andb] in Hkeep;
    repeat match type of Hkeep with
           | (if ?c then _ else _) = true => destruct c eqn:?; [try discriminate|]
           end;
    repeat split; intros; try discriminate; try lia;
    try (intros Heq; rewrite Heq in *; discriminate);
    repeat match goal with
           | H : (_ <=? _) = false |- _ => apply Z.leb_gt in H
           | H : (_ =? _) = false |- _ => apply Z.eqb_neq in H
           | H : (_ <? _) = false |- _ => apply Z.ltb_ge in H
           | H : (_ && _) = false |- _ => apply andb_false_iff in H; destruct H
           end; try congruence; try lia.
Qed.

(** ** The rows of the history *)

Definition item_delta (it : history_item) : option Z := snd (fst it).
Definition row_delta (r : history_row) : option Z := snd (fst (fst (fst r))).

(** [balance -= delta], or [None] when either is [None]. *)
Definition opt_sub (balance delta : option Z) : option Z :=
  match balance, delta with
  | Some b, Some d => Some (b - d)
  | _, _ => None
  end.

Lemma add_balance_cons tx_hash st delta od rest balance omni_balance :
  add_balance ((tx_hash, st, delta, od) :: rest) balance omni_balance
  = ((tx_hash, st, delta, balance, od, omni_balance)
       :: fst (add_balance rest (opt_sub balance delta)
                 (if Z.eqb od 0 then omni_balance else omni_balance - od)),
     snd (add_balance rest (opt_sub balance delta)
            (if Z.eqb od 0 then omni_balance else omni_balance - od))).
Proof.
  cbn [add_balance]. fold (opt_sub balance delta).
  destruct (add_balance rest _ _) as [h2 final]. reflexivity.
Qed.

Lemma add_balance_head items : forall balance omni_balance r l,
  fst (add_balance items balance omni_balance) = r :: l -> row_balance r = balance.
Proof.
  destruct items as [|[[[tx_hash st] delta] od] rest]; intros balance omni_balance r l;
    [discriminate|].
  rewrite add_balance_cons. cbn [fst]. intros [= <- _]. reflexivity.
Qed.

Lemma add_balance_adjacent items : forall balance omni_balance l1 r' r l2,
  fst (add_balance items balance omni_balance) = l1 ++ r' :: r :: l2 ->
  row_balance r = opt_sub (row_balance r') (row_delta r').
Proof.
  induction items as [|[[[tx_hash st] delta] od] rest IH];
    intros balance omni_balance l1 r' r l2.
  - destruct l1; discriminate.
  - rewrite add_balance_cons. cbn [fst]. destruct l1 as [|x l1]; simpl.
    + intros [= <- Hrest]. apply add_balance_head in Hrest. exact Hrest.
    + intros [= _ Hrest]. apply IH in Hrest. exact Hrest.
Qed.

Lemma add_balance_last items : forall balance omni_balance l r,
  fst (add_balance items balance omni_balance) = l ++ [r] ->
  snd (add_balance items balance omni_balance) = opt_sub (row_balance r) (row_delta r).
Proof.
  induction items as [|[[[tx_hash st] delta] od] rest IH]; intros balance omni_balance l r.
  - destruct l; discriminate.
  - rewrite add_balance_cons. cbn [fst snd]. destruct l as [|x l]; simpl.
    + intros [= <- Hrest]. destruct rest as [|[[[t2 st2] d2] od2] rest]; [reflexivity|].
      rewrite add_balance_cons in Hrest. discriminate.
    + intros [= _ Hrest]. apply IH in Hrest. exact Hrest.
Qed.

Lemma add_balance_known items : forall b omni_balance,
  Forall (fun it => item_delta it <> None) items ->
  Forall (fun r => exists b1 d, row_balance r = Some b1 /\ row_delta r = Some d)
    (fst (add_balance items (Some b) omni_balance)).
Proof.
  induction items as [|[[[tx_hash st] delta] od] rest IH]; intros b omni_balance Hall;
    [constructor|].
  rewrite add_balance_cons. cbn [fst]. inversion Hall as [|? ? Hd Hrest]; subst.
  unfold item_delta in Hd. cbn [fst snd] in Hd. destruct delta as [d|]; [|congruence].
  constructor; [exists b, d; split; reflexivity|]. apply IH. exact Hrest.
Qed.

Definition item_status (it : history_item) : TxMinedInfo := snd (fst (fst it)).
Definition row_status (r : history_row) : TxMinedInfo := snd (fst (fst (fst (fst r)))).

Lemma add_balance_statuses items : forall balance omni_balance,
  map (fun r => (row_txid r, row_status r)) (fst (add_balance items balance omni_balance))
  = map (fun it => (item_txid it, item_status it)) items.
Proof.
  induction items as [|[[[tx_hash st] delta] od] items IH]; intros balance omni_balance;
    [reflexivity|].
  rewrite add_balance_cons. cbn [fst map]. rewrite IH. reflexivity.
Qed.

(** The items of [get_history] as step 2 leaves them, before the sort. *)
Definition unsorted_items s (domain : option (list Address)) : list history_item :=
  history_items s (history_deltas s (set_of_list (history_domain s domain))).

Lemma history_walk_unfold s domain :
  history_walk s domain
  = match sort_desc (fun it => get_txpos s (item_txid it)) (unsorted_items s domain) with
    | inl e => inl e
    | inr items =>
        inr (add_balance items
               (Some (total3 (get_balance s (set_of_list (history_domain s domain)))))
               (if omni s then omni_addr_balance (set_of_list (history_domain s domain))
                else 0))
    end.
Proof.
  unfold history_walk, unsorted_items, total3.
  destruct (sort_desc _ _) as [e|items]; [reflexivity|].
  destruct (get_balance s _) as [[c u] x]. reflexivity.
Qed.

Lemma history_walk_inr s domain h2 final :
  history_walk s domain = inr (h2, final) ->
  exists items,
    sort_desc (fun it => get_txpos s (item_txid it)) (unsorted_items s domain) = inr items
    /\ add_balance items
         (Some (total3 (get_balance s (set_of_list (history_domain s domain)))))
         (if omni s then omni_addr_balance (set_of_list (history_domain s domain)) else 0)
       = (h2, final).
Proof.
  rewrite history_walk_unfold.
  destruct (sort_desc _ _) as [e|items]; [discriminate|].
  intros [= Hwalk]. exists items. split; [reflexivity|exact Hwalk].
Qed.

Lemma unsorted_items_known s domain :
  Forall (fun it => item_delta it <> None) (unsorted_items s domain).
Proof.
  apply Forall_forall. intros it Hit. unfold unsorted_items, history_items in Hit.
  apply in_map_iff in Hit. destruct Hit as [kv [<- Hkv]].
  unfold item_delta. cbn [fst snd].
  pose proof (history_deltas_known s (set_of_list (history_domain s domain))) as Hall.
  unfold all_known in Hall. rewrite Forall_forall in Hall. apply (Hall kv Hkv).
Qed.

Lemma sorted_items_known s domain items :
  sort_desc (fun it => get_txpos s (item_txid it)) (unsorted_items s domain) = inr items ->
  Forall (fun it => item_delta it <> None) items.
Proof.
  intros Hsort. destruct (sort_desc_inr _ _ _ Hsort) as [Hperm _].
  pose proof (unsorted_items_known s domain) as Hall. rewrite Forall_forall in *.
  intros it Hit. apply Hall. apply (Permutation_in _ (Permutation_sym Hperm)). exact Hit.
Qed.

(** What [get_history] returned, as the walk left it. *)
Lemma get_history_inr s domain rows :
  get_history s domain = inr rows ->
  exists h2 final,
    history_walk s domain = inr (h2, final)
    /\ (rows = []
        \/ (rows = rev h2 /\ (final = None \/ final = Some 0))).
Proof.
  unfold get_history. destruct (history_walk s domain) as [e|[h2 final]]; [discriminate|].
  intros [= <-]. exists h2, final. split; [reflexivity|].
  destruct final as [b|]; simpl; [|right; split; [reflexivity|left; reflexivity]].
  destruct (Z.eqb b 0) eqn:Hb; simpl; [|left; reflexivity].
  apply Z.eqb_eq in Hb. subst b. right. split; [reflexivity|right; reflexivity].
Qed.

(** The balance column of the history [get_history] returns: the first row
    holds its own delta, every later row holds the balance of the row before
    plus its own delta, and the last row holds the balance of the domain,
    [c + u + x] of [get_balance]. *)
Theorem get_history_running_balance :
  forall s (domain : option (list Address)),
    (forall r l, get_history s domain = inr (r :: l) ->
       exists d, row_delta r = Some d /\ row_balance r = Some d)
    /\ (forall l1 r r' l2, get_history s domain = inr (l1 ++ r :: r' :: l2) ->
          exists b d, row_balance r = Some b /\ row_delta r' = Some d
                      /\ row_balance r' = Some (b + d))
    /\ (forall l r, get_history s domain = inr (l ++ [r]) ->
          row_balance r
          = Some (total3 (get_balance s
                            (set_of_list (match domain with
                                          | Some l0 => l0
                                          | None => dkeys (history s)
                                          end))))).
Proof.
  intros s domain.
  assert (Hmain : forall rows, get_history s domain = inr rows -> rows <> [] ->
            exists h2 final,
              rows = rev h2 /\ (final = None \/ final = Some 0)
              /\ (forall r, In r h2 ->
                    exists b1 d, row_balance r = Some b1 /\ row_delta r = Some d)
              /\ (forall l1 r' r l2, h2 = l1 ++ r' :: r :: l2 ->
                    row_balance r = opt_sub (row_balance r') (row_delta r'))
              /\ (forall l r, h2 = l ++ [r] -> final = opt_sub (row_balance r) (row_delta r))
              /\ (forall r l, h2 = r :: l ->
                    row_balance r
                    = Some (total3 (get_balance s (set_of_list (history_domain s domain)))))).
  { intros rows Hget Hne.
    destruct (get_history_inr s domain rows Hget) as [h2 [final [Hwalk [Hnil|[Hrev Hfinal]]]]];
      [contradiction|].
    destruct (history_walk_inr s domain h2 final Hwalk) as [items [Hsort Hadd]].
    pose proof (add_balance_known items
                  (total3 (get_balance s (set_of_list (history_domain s domain))))
                  (if omni s then omni_addr_balance (set_of_list (history_domain s domain))
                   else 0) (sorted_items_known s domain items Hsort)) as Hrows.
    rewrite Hadd in Hrows. cbn [fst] in Hrows. rewrite Forall_forall in Hrows.
    exists h2, final. split; [exact Hrev|]. split; [exact Hfinal|].
    split; [exact Hrows|].
    match type of Hadd with
    | add_balance _ ?B ?OB = _ =>
        pose proof (add_balance_adjacent items B OB) as Hadj;
        pose proof (add_balance_last items B OB) as Hlast;
        pose proof (add_balance_head items B OB) as Hhead
    end.
    rewrite Hadd in Hadj, Hlast, Hhead. cbn [fst snd] in Hadj, Hlast, Hhead.
    split; [|split].
    - intros l1 r' r l2 Heq. exact (Hadj l1 r' r l2 Heq).
    - intros l r Heq. exact (Hlast l r Heq).
    - intros r l Heq. exact (Hhead r l Heq). }
  split; [|split].
  - intros r l Hget.
    destruct (Hmain _ Hget) as [h2 [final [Hrev [Hfinal [Hrows [_ [Hlast _]]]]]]];
      [discriminate|].
    apply (f_equal (@rev history_row)) in Hrev. rewrite rev_involutive in Hrev.
    simpl in Hrev. symmetry in Hrev.
    destruct (Hrows r) as [b [d [Hb Hd]]].
    { rewrite Hrev. apply in_or_app. right. left. reflexivity. }
    specialize (Hlast _ _ Hrev). rewrite Hb, Hd in Hlast. simpl in Hlast.
    exists d. split; [exact Hd|]. rewrite Hb. f_equal.
    destruct Hfinal as [Hf|Hf]; rewrite Hf in Hlast; [discriminate|].
    injection Hlast as Hlast. lia.
  - intros l1 r r' l2 Hget.
    destruct (Hmain _ Hget) as [h2 [final [Hrev [_ [Hrows [Hadj _]]]]]].
    { destruct l1; discriminate. }
    apply (f_equal (@rev history_row)) in Hrev.
    rewrite rev_involutive, rev_app_distr in Hrev. simpl in Hrev.
    rewrite <- !app_assoc in Hrev. simpl in Hrev. symmetry in Hrev.
    destruct (Hrows r') as [b' [d' [Hb' Hd']]].
    { rewrite Hrev. apply in_or_app. right. left. reflexivity. }
    specialize (Hadj _ _ _ _ Hrev). rewrite Hb', Hd' in Hadj. simpl in Hadj.
    exists (b' - d'), d'. split; [exact Hadj|]. split; [exact Hd'|].
    rewrite Hb'. f_equal. lia.
  - intros l r Hget.
    destruct (Hmain _ Hget) as [h2 [final [Hrev [_ [_ [_ [_ Hhead]]]]]]].
    { destruct l; discriminate. }
    apply (f_equal (@rev history_row)) in Hrev.
    rewrite rev_involutive, rev_app_distr in Hrev. simpl in Hrev. symmetry in Hrev.
    exact (Hhead _ _ Hrev).
Qed.

Lemma In_dkeys_dset {V : Type} (k t : Txid) (v : V) (d : dict Txid V) :
  In t (dkeys (dset k v d)) <-> t = k \/ In t (dkeys d).
Proof.
  rewrite dkeys_dset. destruct (dmem k d) eqn:Hmem.
  - split; [tauto|]. intros [->|Hin]; [|exact Hin].
    apply dmem_true in Hmem. destruct Hmem as [v0 Hv0]. apply dget_In in Hv0.
    apply (in_map fst) in Hv0. exact Hv0.
  - rewrite in_app_iff. simpl. split; [intros [Hin|[<-|[]]]|intros [->|Hin]]; tauto.
Qed.

Lemma accumulate_delta_keys s addr acc e :
  (wf (fst acc) -> wf (fst (accumulate_delta s addr acc e)))
  /\ forall t, In t (dkeys (fst (accumulate_delta s addr acc e)))
               <-> t = fst e \/ In t (dkeys (fst acc)).
Proof.
  destruct acc as [tx_deltas omni_deltas]. unfold accumulate_delta. cbn [fst].
  set (d1 := match deltas_get (fst e) tx_deltas with
             | Some cur => dset (fst e) (Some (cur + get_tx_delta s (fst e) addr)) tx_deltas
             | None => dset (fst e) None tx_deltas
             end).
  assert (H1 : (wf tx_deltas -> wf d1)
               /\ forall t, In t (dkeys d1) <-> t = fst e \/ In t (dkeys tx_deltas)).
  { unfold d1. destruct (deltas_get (fst e) tx_deltas); split;
      try (intros Hwf; apply wf_dset; exact Hwf); intros t; apply In_dkeys_dset. }
  destruct H1 as [Hwf1 Hin1].
  destruct (Z.eqb (get_omni_delta s (fst e) addr) 0); cbn [fst]; [split; assumption|].
  destruct (dmem (fst e) d1); [split; assumption|]. split.
  - intros Hwf. apply wf_dset. apply Hwf1. exact Hwf.
  - intros t. rewrite In_dkeys_dset, Hin1. tauto.
Qed.

Lemma history_deltas_keys s domain :
  wf (fst (history_deltas s domain))
  /\ forall t, In t (dkeys (fst (history_deltas s domain)))
               <-> exists addr, In addr domain /\ In t (hl_get addr (_history_local s)).
Proof.
  unfold history_deltas.
  assert (Hinner : forall addr h acc,
            let r := fold_left (accumulate_delta s addr) h acc in
            (wf (fst acc) -> wf (fst r))
            /\ forall t, In t (dkeys (fst r)) <-> In t (dkeys (fst acc)) \/ In t (map fst h)).
  { intros addr h. induction h as [|e h IH]; intros acc; simpl; [tauto|].
    destruct (IH (accumulate_delta s addr acc e)) as [Hwf Hin].
    destruct (accumulate_delta_keys s addr acc e) as [Hwf1 Hin1]. split; [tauto|].
    intros t. rewrite Hin, Hin1. split; [intros [[->|H]|H]|intros [H|[<-|H]]]; tauto. }
  assert (Houter : forall l acc,
            let r := fold_left
                       (fun acc0 addr =>
                          fold_left (accumulate_delta s addr) (get_address_history s addr) acc0)
                       l acc in
            (wf (fst acc) -> wf (fst r))
            /\ forall t, In t (dkeys (fst r))
                         <-> In t (dkeys (fst acc))
                             \/ exists addr, In addr l /\ In t (hl_get addr (_history_local s))).
  { induction l as [|a l IH]; intros acc; simpl.
    - split; [tauto|]. intros t. split; [tauto|]. intros [H|[addr [[] _]]]. exact H.
    - destruct (IH (fold_left (accumulate_delta s a) (get_address_history s a) acc))
        as [Hwf Hin].
      destruct (Hinner a (get_address_history s a) acc) as [Hwf1 Hin1].
      split; [tauto|]. intros t. rewrite Hin, Hin1.
      assert (Hmap : map fst (get_address_history s a) = hl_get a (_history_local s)).
      { unfold get_address_history, hl_get. rewrite map_map. simpl. apply map_id. }
      rewrite Hmap. split.
      + intros [[H|H]|[addr [Ha H]]]; [tauto|right; exists a; tauto|right; exists addr; tauto].
      + intros [H|[addr [[<-|Ha] H]]]; [tauto|tauto|right; exists addr; tauto]. }
  destruct (Houter domain ([], [])) as [Hwf Hin]. split; [apply Hwf; constructor|].
  intros t. rewrite Hin. simpl. tauto.
Qed.

(** The transactions that the local histories of the domain list. *)
Definition listed s (domain : option (list Address)) (t : Txid) : Prop :=
  exists addr, In addr (history_domain s domain) /\ In t (hl_get addr (_history_local s)).

Lemma unsorted_items_txids s domain :
  NoDup (map item_txid (unsorted_items s domain))
  /\ forall t, In t (map item_txid (unsorted_items s domain)) <-> listed s domain t.
Proof.
  destruct (history_deltas_keys s (set_of_list (history_domain s domain))) as [Hwf Hkeys].
  assert (Hmap : map item_txid (unsorted_items s domain)
                 = dkeys (fst (history_deltas s (set_of_list (history_domain s domain))))).
  { unfold unsorted_items, history_items, dkeys. rewrite map_map. reflexivity. }
  rewrite Hmap. split; [exact Hwf|]. intros t. rewrite Hkeys. unfold listed. split.
  - intros [addr [Ha Ht]]. exists addr. split; [apply In_set_of_list; exact Ha|exact Ht].
  - intros [addr [Ha Ht]]. exists addr. split; [apply In_set_of_list; exact Ha|exact Ht].
Qed.

Lemma walk_txids s domain h2 final :
  history_walk s domain = inr (h2, final) ->
  Permutation (map item_txid (unsorted_items s domain)) (map row_txid h2).
Proof.
  intros Hwalk. destruct (history_walk_inr s domain h2 final Hwalk) as [items [Hsort Hadd]].
  destruct (sort_desc_inr _ _ _ Hsort) as [Hperm _].
  pose proof (add_balance_txids items
                (Some (total3 (get_balance s (set_of_list (history_domain s domain)))))
                (if omni s then omni_addr_balance (set_of_list (history_domain s domain))
                 else 0)) as Htx.
  rewrite Hadd in Htx. cbn [fst] in Htx. rewrite Htx. apply Permutation_map. exact Hperm.
Qed.

(** Each transaction has one row: the history [get_history] returns lists no
    transaction twice, whatever the number of addresses of the domain it
    touches; its transactions are in the local history of an address of the
    domain, and when the walk ends on [None] or 0 every such transaction has
    its row. *)
Theorem get_history_one_row_each :
  forall s (domain : option (list Address)),
    (forall rows, get_history s domain = inr rows ->
       NoDup (map row_txid rows)
       /\ forall t, In t (map row_txid rows) ->
            exists addr,
              In addr (match domain with Some l => l | None => dkeys (history s) end)
              /\ In t (hl_get addr (_history_local s)))
    /\ (forall h2 final,
          history_walk s domain = inr (h2, final) ->
          final = None \/ final = Some 0 ->
          exists rows,
            get_history s domain = inr rows
            /\ forall addr t,
                 In addr (match domain with Some l => l | None => dkeys (history s) end) ->
                 In t (hl_get addr (_history_local s)) ->
                 In t (map row_txid rows)).
Proof.
  intros s domain. destruct (unsorted_items_txids s domain) as [Hnd Hlisted]. split.
  - intros rows Hget.
    destruct (get_history_inr s domain rows Hget) as [h2 [final [Hwalk Hrows]]].
    pose proof (walk_txids s domain h2 final Hwalk) as Hperm.
    destruct Hrows as [-> |[-> _]]; [split; [constructor|intros t []]|].
    rewrite map_rev. split.
    + apply (Permutation_NoDup (Permutation_rev _)).
      apply (Permutation_NoDup Hperm). exact Hnd.
    + intros t Hin. apply in_rev in Hin.
      apply (Permutation_in _ (Permutation_sym Hperm)) in Hin.
      apply Hlisted in Hin. exact Hin.
  - intros h2 final Hwalk Hfinal. exists (rev h2). split.
    + unfold get_history. rewrite Hwalk. destruct Hfinal as [-> | ->]; reflexivity.
    + intros addr t Ha Ht. rewrite map_rev. apply -> in_rev.
      apply (Permutation_in _ (walk_txids s domain h2 final Hwalk)).
      apply Hlisted. exists addr. split; [exact Ha|exact Ht].
Qed.

(** *** The final balance *)

(** The delta on record, none counting for nothing. *)
Definition known_delta (d : option Z) : Z := match d with Some z => z | None => 0 end.

Definition deltas_sum (tx_deltas : dict Txid (option Z)) : Z :=
  Zsum (map (fun kv : Txid * option Z => known_delta (snd kv)) tx_deltas).

(** What the transactions of the local histories of the domain moved: the
    sum of [get_tx_delta] over the addresses of the domain and the
    transactions of their local histories. *)
Definition domain_delta s (domain : option (list Address)) : Z :=
  Zsum (map (fun addr =>
               Zsum (map (fun t => get_tx_delta s t addr) (hl_get addr (_history_local s))))
          (set_of_list (history_domain s domain))).

(** Two transactions of the domain that [history.sort] cannot order. *)
Definition tied s (domain : option (list Address)) : Prop :=
  exists t1 t2, listed s domain t1 /\ listed s domain t2
                /\ key_lt (get_txpos s t1) (get_txpos s t2) = None.

Lemma deltas_sum_dset t cur d (m : dict Txid (option Z)) :
  deltas_get t m = Some cur ->
  deltas_sum (dset t (Some (cur + d)) m) = deltas_sum m + d.
Proof.
  unfold deltas_get, deltas_sum. induction m as [|[k v] m IH]; simpl.
  - intros [= <-]. lia.
  - destruct (eq_dec t k) as [->|Hne].
    + intros ->. simpl. lia.
    + intros Hget. simpl. rewrite (IH Hget). lia.
Qed.

Lemma accumulate_delta_sum s addr acc e :
  all_known (fst acc) ->
  deltas_sum (fst (accumulate_delta s addr acc e))
  = deltas_sum (fst acc) + get_tx_delta s (fst e) addr.
Proof.
  destruct acc as [tx_deltas omni_deltas]. cbn [fst]. intros Hall.
  destruct (all_known_get (fst e) tx_deltas Hall) as [z Hz].
  unfold accumulate_delta. rewrite Hz.
  assert (Hmem : dmem (fst e) (dset (fst e) (Some (z + get_tx_delta s (fst e) addr)) tx_deltas)
                 = true).
  { unfold dmem. rewrite dget_dset_same. reflexivity. }
  rewrite Hmem. destruct (Z.eqb (get_omni_delta s (fst e) addr) 0); cbn [fst];
    apply deltas_sum_dset; exact Hz.
Qed.

Lemma history_deltas_sum s (domain : set Address) :
  deltas_sum (fst (history_deltas s domain))
  = Zsum (map (fun addr =>
                 Zsum (map (fun t => get_tx_delta s t addr) (hl_get addr (_history_local s))))
            domain).
Proof.
  unfold history_deltas.
  assert (Hinner : forall addr h acc, all_known (fst acc) ->
            all_known (fst (fold_left (accumulate_delta s addr) h acc))
            /\ deltas_sum (fst (fold_left (accumulate_delta s addr) h acc))
               = deltas_sum (fst acc)
                 + Zsum (map (fun e : Txid * Z => get_tx_delta s (fst e) addr) h)).
  { intros addr h. induction h as [|e h IH]; intros acc Hacc; cbn [fold_left map].
    - split; [exact Hacc|]. unfold Zsum. simpl. lia.
    - destruct (IH (accumulate_delta s addr acc e)
                  (accumulate_delta_known s addr acc e Hacc)) as [Hk Hsum].
      split; [exact Hk|]. rewrite Hsum, accumulate_delta_sum by exact Hacc.
      rewrite Zsum_cons. lia. }
  assert (Houter : forall l acc, all_known (fst acc) ->
            deltas_sum (fst (fold_left
                               (fun acc0 addr =>
                                  fold_left (accumulate_delta s addr)
                                    (get_address_history s addr) acc0) l acc))
            = deltas_sum (fst acc)
              + Zsum (map (fun addr =>
                             Zsum (map (fun t => get_tx_delta s t addr)
                                     (hl_get addr (_history_local s)))) l)).
  { induction l as [|a l IH]; intros acc Hacc; cbn [fold_left map].
    - unfold Zsum. simpl. lia.
    - destruct (Hinner a (get_address_history s a) acc Hacc) as [Hk Hsum].
      rewrite (IH _ Hk), Hsum, Zsum_cons.
      assert (Hmap : map (fun e : Txid * Z => get_tx_delta s (fst e) a)
                       (get_address_history s a)
                     = map (fun t => get_tx_delta s t a) (hl_get a (_history_local s))).
      { unfold get_address_history, hl_get. rewrite map_map. reflexivity. }
      rewrite Hmap. lia. }
  rewrite (Houter domain ([], [])) by constructor. unfold deltas_sum. simpl. lia.
Qed.

Lemma Zsum_perm (l l' : list Z) : Permutation l l' -> Zsum l = Zsum l'.
Proof.
  induction 1 as [|x l l' Hperm IH|x y l|l l' l'' H1 IH1 H2 IH2].
  - reflexivity.
  - rewrite !Zsum_cons, IH. reflexivity.
  - rewrite !Zsum_cons. lia.
  - congruence.
Qed.

Lemma add_balance_final items : forall b omni_balance,
  Forall (fun it => item_delta it <> None) items ->
  snd (add_balance items (Some b) omni_balance)
  = Some (b - Zsum (map (fun it => known_delta (item_delta it)) items)).
Proof.
  induction items as [|[[[tx_hash st] delta] od] items IH]; intros b omni_balance Hall.
  - simpl. f_equal. unfold Zsum. simpl. lia.
  - rewrite add_balance_cons. cbn [snd]. inversion Hall as [|? ? Hd Hrest]; subst.
    unfold item_delta in Hd. cbn [fst snd] in Hd. destruct delta as [d|]; [|congruence].
    cbn [opt_sub]. rewrite (IH _ _ Hrest). cbn [map]. rewrite Zsum_cons.
    unfold item_delta at 2. cbn [fst snd known_delta]. f_equal. lia.
Qed.

Lemma tied_incomparable s domain :
  tied s domain
  <-> incomparable (fun it => get_txpos s (item_txid it)) (unsorted_items s domain).
Proof.
  destruct (unsorted_items_txids s domain) as [_ Hlisted]. unfold tied, incomparable. split.
  - intros [t1 [t2 [H1 [H2 Hnone]]]].
    apply Hlisted in H1. apply Hlisted in H2.
    apply in_map_iff in H1. apply in_map_iff in H2.
    destruct H1 as [x [<- Hx]]. destruct H2 as [y [<- Hy]].
    exists x, y. split; [exact Hx|]. split; [exact Hy|exact Hnone].
  - intros [x [y [Hx [Hy Hnone]]]]. exists (item_txid x), (item_txid y).
    split; [apply Hlisted; apply in_map; exact Hx|].
    split; [apply Hlisted; apply in_map; exact Hy|exact Hnone].
Qed.

(** The sort, the walk and the check of [get_history], one after the other. *)
Lemma history_walk_spec :
  forall s (domain : option (list Address)),
    (get_history s domain = inl TypeError <-> tied s domain)
    /\ (~ tied s domain -> exists h2 final, history_walk s domain = inr (h2, final))
    /\ (forall h2 final,
          history_walk s domain = inr (h2, final) ->
          final = Some (total3 (get_balance s (set_of_list (history_domain s domain)))
                        - domain_delta s domain)
          /\ (final <> None /\ final <> Some 0 -> get_history s domain = inr [])
          /\ (final = None \/ final = Some 0 -> get_history s domain = inr (rev h2))
          /\ chronological s (rev h2)
          /\ NoDup (map row_txid (rev h2))
          /\ (forall t, In t (map row_txid (rev h2)) <-> listed s domain t)
          /\ (forall r, In r (rev h2) -> row_status r = get_tx_height s (row_txid r))).
Proof.
  intros s domain.
  destruct (sort_desc_spec (fun it => get_txpos s (item_txid it)) (unsorted_items s domain))
    as [Hraise [_ Hreturn]].
  split; [|split].
  - rewrite tied_incomparable, <- Hraise. unfold get_history.
    rewrite history_walk_unfold.
    destruct (sort_desc _ _) as [[]|items]; [tauto|].
    split; [|discriminate]. destruct (add_balance _ _ _) as [h2 final]. discriminate.
  - intros Hno. rewrite tied_incomparable in Hno. destruct (Hreturn Hno) as [items Hsort].
    rewrite history_walk_unfold, Hsort.
    destruct (add_balance items _ _) as [h2 final]. exists h2, final. reflexivity.
  - intros h2 final Hwalk.
    destruct (history_walk_inr s domain h2 final Hwalk) as [items [Hsort Hadd]].
    destruct (sort_desc_inr _ _ _ Hsort) as [Hperm [Hsorted _]].
    destruct (unsorted_items_txids s domain) as [Hnd Hlisted].
    pose proof (walk_txids s domain h2 final Hwalk) as Hptx.
    split; [|split; [|split; [|split; [|split; [|split]]]]].
    + pose proof (add_balance_final items
                    (total3 (get_balance s (set_of_list (history_domain s domain))))
                    (if omni s then omni_addr_balance (set_of_list (history_domain s domain))
                     else 0) (sorted_items_known s domain items Hsort)) as Hfinal.
      rewrite Hadd in Hfinal. cbn [snd] in Hfinal. rewrite Hfinal. do 2 f_equal.
      rewrite <- (Zsum_perm _ _ (Permutation_map _ Hperm)).
      unfold domain_delta. rewrite <- history_deltas_sum.
      unfold deltas_sum, unsorted_items, history_items. rewrite map_map. reflexivity.
    + intros [Hn H0]. unfold get_history. rewrite Hwalk.
      destruct final as [b|]; [|congruence]. simpl.
      destruct (Z.eqb b 0) eqn:Hb; [|reflexivity].
      apply Z.eqb_eq in Hb. subst b. congruence.
    + intros Hfinal. unfold get_history. rewrite Hwalk.
      destruct Hfinal as [-> | ->]; reflexivity.
    + unfold chronological.
      apply (StronglySorted_map row_txid
               (fun t1 t2 => key_lt (get_txpos s t2) (get_txpos s t1) = Some false)).
      rewrite map_rev.
      pose proof (add_balance_txids items
                    (Some (total3 (get_balance s (set_of_list (history_domain s domain)))))
                    (if omni s then omni_addr_balance (set_of_list (history_domain s domain))
                     else 0)) as Htx.
      rewrite Hadd in Htx. cbn [fst] in Htx. rewrite Htx.
      apply (StronglySorted_rev
               (fun t2 t1 => key_lt (get_txpos s t2) (get_txpos s t1) = Some false)).
      apply (StronglySorted_map item_txid
               (fun t2 t1 => key_lt (get_txpos s t2) (get_txpos s t1) = Some false)).
      exact Hsorted.
    + rewrite map_rev. apply (Permutation_NoDup (Permutation_rev _)).
      apply (Permutation_NoDup Hptx). exact Hnd.
    + intros t. rewrite map_rev, <- in_rev, <- Hlisted. split.
      * apply (Permutation_in _ (Permutation_sym Hptx)).
      * apply (Permutation_in _ Hptx).
    + intros r Hr. apply in_rev in Hr.
      pose proof (add_balance_statuses items
                    (Some (total3 (get_balance s (set_of_list (history_domain s domain)))))
                    (if omni s then omni_addr_balance (set_of_list (history_domain s domain))
                     else 0)) as Hst.
      rewrite Hadd in Hst. cbn [fst] in Hst.
      assert (Hin : In (row_txid r, row_status r)
                      (map (fun it => (item_txid it, item_status it)) items)).
      { rewrite <- Hst. apply (in_map (fun r0 => (row_txid r0, row_status r0))). exact Hr. }
      apply in_map_iff in Hin. destruct Hin as [it [Heq Hit]].
      apply (Permutation_in _ (Permutation_sym Hperm)) in Hit.
      unfold unsorted_items, history_items in Hit. apply in_map_iff in Hit.
      destruct Hit as [kv [<- Hkv]].
      unfold item_txid, item_status in Heq. cbn [fst snd] in Heq.
      injection Heq as Htx Hstat. rewrite <- Htx, <- Hstat. reflexivity.
Qed.

(** C8.  [get_history] raises only in [history.sort], before the walk: a
    [TypeError], exactly when two transactions of the domain have the same
    height and only one of them a position.  Otherwise the walk is made, and
    the balance it ends with is the balance of the domain less what the
    transactions of the domain moved; it is never [None].  When it is neither
    [None] nor 0 the result is the empty list; when it is [None] or 0 the
    result is the rows of the walk, oldest first.  These rows are in
    chronological order, they are the transactions of the local histories of
    the domain, each once, and each carries the status [get_tx_height]
    gives. *)
Theorem get_history_final_balance :
  forall s (domain : option (list Address)),
    (get_history s domain = inl TypeError <-> tied s domain)
    /\ (~ tied s domain -> exists h2 final, history_walk s domain = inr (h2, final))
    /\ (forall h2 final,
          history_walk s domain = inr (h2, final) ->
          final = Some (total3 (get_balance s (set_of_list (history_domain s domain)))
                        - domain_delta s domain)
          /\ (final <> None /\ final <> Some 0 -> get_history s domain = inr [])
          /\ (final = None \/ final = Some 0 -> get_history s domain = inr (rev h2))
          /\ chronological s (rev h2)
          /\ NoDup (map row_txid (rev h2))
          /\ (forall t, In t (map row_txid (rev h2)) <-> listed s domain t)
          /\ (forall r, In r (rev h2) -> row_status r = get_tx_height s (row_txid r)))
    /\ (~ tied s domain ->
        total3 (get_balance s (set_of_list (history_domain s domain)))
        <> domain_delta s domain ->
        get_history s domain = inr [])
    /\ (~ tied s domain ->
        total3 (get_balance s (set_of_list (history_domain s domain)))
        = domain_delta s domain ->
        exists rows,
          get_history s domain = inr rows
          /\ chronological s rows
          /\ NoDup (map row_txid rows)
          /\ (forall t, In t (map row_txid rows) <-> listed s domain t)
          /\ (forall r, In r rows -> row_status r = get_tx_height s (row_txid r))).
Proof.
  intros s domain.
  destruct (history_walk_spec s domain) as [Hraise [Hreturn Hwalk]].
  split; [exact Hraise|]. split; [exact Hreturn|]. split; [exact Hwalk|]. split.
  - intros Hno Hne. destruct (Hreturn Hno) as [h2 [final Hw]].
    destruct (Hwalk h2 final Hw) as [Hfinal [Hbad _]]. apply Hbad. rewrite Hfinal.
    split; [discriminate|]. intros [= H0]. lia.
  - intros Hno Heq. destruct (Hreturn Hno) as [h2 [final Hw]].
    destruct (Hwalk h2 final Hw) as [Hfinal [_ [Hgood Hrows]]]. exists (rev h2).
    split; [|exact Hrows]. apply Hgood. right. rewrite Hfinal. f_equal. lia.
Qed.

(** ** Verification states *)

Lemma remove_spv_proof_maps t s :
  verified_tx (remove_spv_proof_for_tx t s) = verified_tx s
  /\ unverified_tx (remove_spv_proof_for_tx t s) = unverified_tx s
  /\ local_height (remove_spv_proof_for_tx t s) = local_height s.
Proof. unfold remove_spv_proof_for_tx. destruct (verifier s); repeat split. Qed.

(** [add_unverified_tx] never records a height for a transaction that is
    verified.  Told that it is in the mempool (height 0 or -1), the engine
    drops the verification and, with a verifier attached, has the proof
    released; the transaction is then in neither map and reads as local.
    Told any other height, the engine changes nothing. *)
Theorem add_unverified_tx_of_verified :
  forall tx_hash (tx_height : Z) s (info : TxMinedInfo),
    dget tx_hash (verified_tx s) = Some info ->
    dget tx_hash (unverified_tx s) = None ->
    unverified_tx (add_unverified_tx tx_hash tx_height s) = unverified_tx s
    /\ (tx_height = TX_HEIGHT_UNCONFIRMED \/ tx_height = TX_HEIGHT_UNCONF_PARENT ->
        dget tx_hash (verified_tx (add_unverified_tx tx_hash tx_height s)) = None
        /\ get_tx_height (add_unverified_tx tx_hash tx_height s) tx_hash
           = mkTxMinedInfo TX_HEIGHT_LOCAL (Some 0) None None None
        /\ verifier (add_unverified_tx tx_hash tx_height s)
           = option_map (fun released => released ++ [tx_hash]) (verifier s))
    /\ (tx_height <> TX_HEIGHT_UNCONFIRMED -> tx_height <> TX_HEIGHT_UNCONF_PARENT ->
        add_unverified_tx tx_hash tx_height s = s).
Proof.
  intros tx_hash tx_height s info Hv Hu.
  assert (Hdemote : forall s1,
            s1 = remove_spv_proof_for_tx tx_hash
                   (with_verified_tx s (dpop tx_hash (verified_tx s))) ->
            unverified_tx s1 = unverified_tx s
            /\ dget tx_hash (verified_tx s1) = None
            /\ get_tx_height s1 tx_hash = mkTxMinedInfo TX_HEIGHT_LOCAL (Some 0) None None None
            /\ verifier s1 = option_map (fun released => released ++ [tx_hash]) (verifier s)).
  { intros s1 ->. unfold remove_spv_proof_for_tx, get_tx_height.
    cbn [verifier with_verified_tx].
    destruct (verifier s) as [released|] eqn:Ever;
      cbn [verified_tx unverified_tx verifier with_verified_tx with_verifier option_map];
      rewrite dget_dpop_same, Hu, ?Ever; repeat split. }
  unfold add_unverified_tx, dmem. rewrite Hv.
  destruct (Z.eqb tx_height TX_HEIGHT_UNCONFIRMED) eqn:H0;
    [|destruct (Z.eqb tx_height TX_HEIGHT_UNCONF_PARENT) eqn:H1]; cbn [orb].
  - destruct (Hdemote _ eq_refl) as [Eu [Ev [Eh Ever]]].
    split; [exact Eu|]. split; [intros _; repeat split; assumption|].
    intros Hn. apply Z.eqb_eq in H0. contradiction.
  - destruct (Hdemote _ eq_refl) as [Eu [Ev [Eh Ever]]].
    split; [exact Eu|]. split; [intros _; repeat split; assumption|].
    intros _ Hn. apply Z.eqb_eq in H1. contradiction.
  - split; [reflexivity|]. split; [|reflexivity].
    apply Z.eqb_neq in H0. apply Z.eqb_neq in H1. intros [H|H]; contradiction.
Qed.

(** After [add_verified_tx] the transaction reads as verified at the height
    of the proof, with [max(local_height - height + 1, 0)] confirmations and
    the other fields of the proof; it is no longer unverified, the status is
    what the ['verified'] callback is triggered with, and the status of every
    other transaction is unchanged. *)
Theorem add_verified_tx_status :
  forall tx_hash (info : TxMinedInfo) s,
    get_tx_height (add_verified_tx tx_hash info s) tx_hash
    = mkTxMinedInfo (height info) (Some (Z.max (get_local_height s - height info + 1) 0))
        (timestamp info) (txpos info) (header_hash info)
    /\ dget tx_hash (unverified_tx (add_verified_tx tx_hash info s)) = None
    /\ network_callbacks (add_verified_tx tx_hash info s)
       = network_callbacks s
           ++ [(tx_hash, get_tx_height (add_verified_tx tx_hash info s) tx_hash)]
    /\ (forall t, t <> tx_hash ->
          get_tx_height (add_verified_tx tx_hash info s) t = get_tx_height s t).
Proof.
  intros tx_hash info s. unfold add_verified_tx, get_tx_height, get_local_height.
  cbn [verified_tx unverified_tx local_height network_callbacks with_network_callbacks
       with_verified_tx with_unverified_tx].
  rewrite dget_dset_same, dget_dpop_same. repeat split.
  intros t Hne. rewrite (dget_dset_other _ _ _ _ Hne), (dget_dpop_other _ _ _ Hne). reflexivity.
Qed.

(** [remove_unverified_tx] removes the entry only when the height it is given
    is the height on record: after [add_unverified_tx(t, h)] on a transaction
    that is not verified, [remove_unverified_tx(t, h')] forgets [t] when
    [h' = h] and leaves it at [h] otherwise. *)
Theorem remove_unverified_tx_compares :
  forall tx_hash (h h' : Z) s,
    dmem tx_hash (verified_tx s) = false ->
    dget tx_hash (unverified_tx (remove_unverified_tx tx_hash h'
                                   (add_unverified_tx tx_hash h s)))
    = (if Z.eqb h h' then None else Some h)
    /\ (forall t, t <> tx_hash ->
          dget t (unverified_tx (remove_unverified_tx tx_hash h'
                                   (add_unverified_tx tx_hash h s)))
          = dget t (unverified_tx s)).
Proof.
  intros tx_hash h h' s Hv. unfold add_unverified_tx. rewrite Hv.
  unfold remove_unverified_tx. cbn [unverified_tx with_unverified_tx].
  rewrite dget_dset_same. destruct (Z.eqb h h'); cbn [unverified_tx with_unverified_tx].
  - split; [apply dget_dpop_same|]. intros t Hne.
    rewrite (dget_dpop_other _ _ _ Hne). apply dget_dset_other. exact Hne.
  - split; [apply dget_dset_same|]. intros t Hne. apply dget_dset_other. exact Hne.
Qed.

Lemma undo_fold_set bc rh l : forall acc t,
  In t (fst (fold_left (undo_verification_step bc rh) l acc))
  <-> In t (fst acc)
      \/ exists info, In (t, info) l /\ Z.geb (height info) rh = true
                      /\ header_mismatch (bc (height info)) info = true.
Proof.
  induction l as [|[k info] l IH]; intros acc t; simpl.
  - split; [tauto|]. intros [Hq|[info [[] _]]]. exact Hq.
  - rewrite IH. destruct acc as [txs s0]. simpl.
    destruct (Z.geb (height info) rh) eqn:Hge;
      [destruct (header_mismatch (bc (height info)) info) eqn:Hmis|]; simpl.
    + rewrite sadd_In. split.
      * intros [[->|Hq]|[i [Hin Hq]]]; [right; exists info; tauto|tauto|right; exists i; tauto].
      * intros [Hq|[i [[Heq|Hin] Hq]]]; [tauto| |right; exists i; tauto].
        injection Heq as -> ->. tauto.
    + split.
      * intros [Hq|[i [Hin Hq]]]; [tauto|right; exists i; tauto].
      * intros [Hq|[i [[Heq|Hin] [Hq1 Hq2]]]]; [tauto| |right; exists i; tauto].
        injection Heq as -> ->. congruence.
    + split.
      * intros [Hq|[i [Hin Hq]]]; [tauto|right; exists i; tauto].
      * intros [Hq|[i [[Heq|Hin] [Hq1 Hq2]]]]; [tauto| |right; exists i; tauto].
        injection Heq as -> ->. congruence.
Qed.

Lemma undo_fold_miss bc rh l : forall acc k,
  (forall info, In (k, info) l ->
     Z.geb (height info) rh && header_mismatch (bc (height info)) info = false) ->
  dget k (verified_tx (snd (fold_left (undo_verification_step bc rh) l acc)))
    = dget k (verified_tx (snd acc))
  /\ dget k (unverified_tx (snd (fold_left (undo_verification_step bc rh) l acc)))
    = dget k (unverified_tx (snd acc)).
Proof.
  induction l as [|[t info] l IH]; intros acc k Hmiss; simpl; [split; reflexivity|].
  destruct (IH (undo_verification_step bc rh acc (t, info)) k) as [Hv Hu].
  { intros i Hi. apply Hmiss. right. exact Hi. }
  rewrite Hv, Hu. destruct (eq_dec t k) as [->|Hne].
  - specialize (Hmiss info (or_introl eq_refl)). destruct acc as [txs s0]. simpl.
    destruct (Z.geb (height info) rh); [|split; reflexivity].
    destruct (header_mismatch (bc (height info)) info); [discriminate|split; reflexivity].
  - apply undo_step_other. exact Hne.
Qed.

(** [undo_verifications] returns exactly the transactions it demotes, those
    verified at or above the given height in a block whose header is missing
    or differs; every other verified transaction keeps its proof, and the
    unverified entries of the others are untouched. *)
Theorem undo_verifications_returns_demoted :
  forall (blockchain : Blockchain) (reorg_height : Z) s,
    wf (verified_tx s) ->
    (forall t, In t (fst (undo_verifications blockchain reorg_height s))
               <-> exists info, dget t (verified_tx s) = Some info
                                /\ reorg_height <= height info
                                /\ header_mismatch (blockchain (height info)) info = true)
    /\ (forall t info,
          dget t (verified_tx s) = Some info ->
          height info < reorg_height
          \/ header_mismatch (blockchain (height info)) info = false ->
          dget t (verified_tx (snd (undo_verifications blockchain reorg_height s)))
          = Some info
          /\ dget t (unverified_tx (snd (undo_verifications blockchain reorg_height s)))
             = dget t (unverified_tx s))
    /\ (forall t,
          dget t (verified_tx s) = None ->
          dget t (verified_tx (snd (undo_verifications blockchain reorg_height s))) = None
          /\ dget t (unverified_tx (snd (undo_verifications blockchain reorg_height s)))
             = dget t (unverified_tx s)).
Proof.
  intros blockchain reorg_height s Hwf. unfold undo_verifications. split; [|split].
  - intros t. rewrite undo_fold_set. simpl. split.
    + intros [[]|[info [Hin [Hge Hmis]]]]. exists info.
      split; [apply In_dget; assumption|]. split; [|exact Hmis].
      apply Z.geb_le in Hge. exact Hge.
    + intros [info [Hget [Hge Hmis]]]. right. exists info.
      split; [apply dget_In; exact Hget|]. split; [apply Z.geb_le; exact Hge|exact Hmis].
  - intros t info Hget Hkeep.
    destruct (undo_fold_miss blockchain reorg_height (verified_tx s) ([], s) t) as [Hv Hu].
    { intros i Hi. apply (In_dget _ _ _ Hwf) in Hi. rewrite Hget in Hi.
      injection Hi as <-. destruct Hkeep as [Hlt|Hsame].
      - assert (Hge : Z.geb (height info) reorg_height = false).
        { destruct (Z.geb (height info) reorg_height) eqn:E; [|reflexivity].
          apply Z.geb_le in E. lia. }
        rewrite Hge. reflexivity.
      - rewrite Hsame. apply andb_false_r. }
    simpl in Hv, Hu. rewrite Hv, Hu. split; [exact Hget|reflexivity].
  - intros t Hnone.
    destruct (undo_fold_other blockchain reorg_height (verified_tx s) ([], s) t) as [Hv Hu].
    { apply dget_None_notin. exact Hnone. }
    simpl in Hv, Hu. rewrite Hv, Hu. split; [exact Hnone|reflexivity].
Qed.

(** The order [get_history] sorts by puts a transaction with a height between
    1 and 10^9 - 1 strictly before every transaction that is not verified and
    is in the mempool or local. *)
Theorem get_txpos_confirmed_first :
  forall s (t1 t2 : Txid),
    0 < height (get_tx_height s t1) < 1000000000 ->
    dget t2 (verified_tx s) = None ->
    height (get_tx_height s t2) <= 0 ->
    fst (get_txpos s t1) < fst (get_txpos s t2)
    /\ key_lt (get_txpos s t1) (get_txpos s t2) = Some true
    /\ key_lt (get_txpos s t2) (get_txpos s t1) = Some false.
Proof.
  intros s t1 t2 H1 Hv2 H2.
  assert (Hlt : fst (get_txpos s t1) < fst (get_txpos s t2)).
  { unfold get_txpos, get_tx_height, TX_HEIGHT_LOCAL in *. rewrite Hv2 in *.
    destruct (dget t1 (verified_tx s)) as [info|];
      [|destruct (dget t1 (unverified_tx s)) as [h1|]];
      (destruct (dget t2 (unverified_tx s)) as [h2|]; [destruct (Z.ltb 0 h2) eqn:E2|]);
      try (destruct (Z.ltb 0 h1) eqn:E1);
      cbn [fst height] in *;
      repeat match goal with
             | H : (_ <? _) = true |- _ => apply Z.ltb_lt in H
             | H : (_ <? _) = false |- _ => apply Z.ltb_ge in H
             end; lia. }
  split; [exact Hlt|]. unfold key_lt. split.
  - destruct (Z.eqb_spec (fst (get_txpos s t1)) (fst (get_txpos s t2))) as [Heq|_]; [lia|].
    f_equal. apply Z.ltb_lt. exact Hlt.
  - destruct (Z.eqb_spec (fst (get_txpos s t2)) (fst (get_txpos s t1))) as [Heq|_]; [lia|].
    f_equal. apply Z.ltb_ge. lia.
Qed.

(** ** Removing a transaction the engine does not hold *)

Lemma find_spend_some t so h n :
  find_spend t so = Some (h, n) -> exists d, In (h, d) so /\ In (n, t) d.
Proof.
  induction so as [|[h0 d0] so IH]; simpl; [discriminate|].
  destruct (find (fun e => String.eqb (snd e) t) d0) as [e|] eqn:Hf.
  - intros [= <- <-]. apply find_some in Hf. destruct Hf as [Hin He].
    apply String.eqb_eq in He. exists d0. split; [left; reflexivity|].
    destruct e as [n0 t0]. simpl in *. subst t0. exact Hin.
  - intros Hrest. destruct (IH Hrest) as [d [Hin Hd]]. exists d. split; [right; exact Hin|exact Hd].
Qed.

Lemma find_spend_none t so :
  find_spend t so = None <-> (forall h d n, In (h, d) so -> ~ In (n, t) d).
Proof.
  induction so as [|[h0 d0] so IH]; simpl.
  - split; [intros _ h d n []|reflexivity].
  - destruct (find (fun e => String.eqb (snd e) t) d0) as [e|] eqn:Hf.
    + split; [discriminate|]. intros Hall. exfalso.
      apply find_some in Hf. destruct Hf as [Hin He]. apply String.eqb_eq in He.
      destruct e as [n0 t0]. simpl in He. subst t0.
      exact (Hall h0 d0 n0 (or_introl eq_refl) Hin).
    + rewrite IH. split.
      * intros Hall h d n [[= <- <-]|Hin] Hd; [|exact (Hall h d n Hin Hd)].
        pose proof (find_none _ _ Hf (n, t) Hd) as Hno. simpl in Hno.
        rewrite String.eqb_refl in Hno. discriminate.
      * intros Hall h d n Hin. apply (Hall h d n). right. exact Hin.
Qed.

(** [remove_transaction] of a transaction that is not in [transactions].
    When [spent_outpoints] records it as the spender of an outpoint, the
    fallback loop pops that outpoint from the dictionary it is iterating and
    the call ends in [RuntimeError]: the outpoint is forgotten, and [txi],
    [txo] and the local history are left as they were.  When no outpoint is
    recorded for it, the call returns and the transaction is gone from [txi]
    and [txo]. *)
Theorem remove_transaction_not_held :
  forall tx_hash s,
    dget tx_hash (transactions s) = None ->
    ((exists h n, so_lookup h n (spent_outpoints s) = Some tx_hash) ->
     exists h n s',
       remove_transaction tx_hash s = Raise RuntimeError s'
       /\ spent_outpoints s' = so_pop_outpoint h n (spent_outpoints s)
       /\ (exists d, In (h, d) (spent_outpoints s) /\ In (n, tx_hash) d)
       /\ txi s' = txi s /\ txo s' = txo s /\ _history_local s' = _history_local s)
    /\ ((forall h d n, In (h, d) (spent_outpoints s) -> ~ In (n, tx_hash) d) ->
        exists s',
          remove_transaction tx_hash s = Ret tt s'
          /\ dget tx_hash (txi s') = None /\ dget tx_hash (txo s') = None
          /\ transactions s' = transactions s).
Proof.
  intros tx_hash s Hnone. unfold remove_transaction. rewrite Hnone.
  cbn [spent_outpoints with_transactions]. split.
  - intros [h [n Hlook]].
    destruct (find_spend tx_hash (spent_outpoints s)) as [[h' n']|] eqn:Hfind.
    + exists h', n'. eexists. split; [reflexivity|].
      split; [reflexivity|]. split; [apply find_spend_some; exact Hfind|].
      repeat split.
    + exfalso. unfold so_lookup, so_sub in Hlook.
      destruct (dget h (spent_outpoints s)) as [d|] eqn:Hd; [|discriminate].
      apply dget_In in Hd. apply dget_In in Hlook.
      exact (proj1 (find_spend_none _ _) Hfind h d n Hd Hlook).
  - intros Hall. apply find_spend_none in Hall. rewrite Hall.
    eexists. split; [reflexivity|]. unfold remove_transaction_finish.
    cbn [txi txo with_txi with_txo]. split; [apply dget_dpop_same|].
    split; [apply dget_dpop_same|].
    cbn [transactions with_txi with_txo].
    rewrite transactions_remove_tx_from_local_history.
    cbn [transactions with_spent_outpoints with_transactions].
    apply dpop_notin. exact Hnone.
Qed.

(** ** Conflicts and dependents *)

Lemma conflicting_loop_known ins : forall acc s C s1,
  conflicting_loop ins acc s = Ret C s1 ->
  (forall c, In c acc -> dmem c (transactions s) = true) ->
  forall c, In c C -> dmem c (transactions s) = true.
Proof.
  induction ins as [|txin ins IH]; intros acc s C s1 Hret Hacc; simpl in Hret.
  - injection Hret as <- <-. exact Hacc.
  - destruct (is_coinbase_input txin); [eapply IH; eassumption|].
    destruct (so_lookup (prevout_hash txin) (prevout_n txin) (spent_outpoints s)) as [sp|].
    + cbn [transactions with_spent_outpoints] in Hret.
      destruct (dmem sp (transactions s)) eqn:Hknown; [|discriminate].
      intros c Hc. apply (IH _ _ _ _ Hret); [|exact Hc].
      cbn [transactions with_spent_outpoints].
      intros c' Hc'. apply sadd_In in Hc'. destruct Hc' as [->|Hc']; [exact Hknown|auto].
    + intros c Hc. apply (IH _ _ _ _ Hret); [|exact Hc].
      cbn [transactions with_spent_outpoints]. exact Hacc.
Qed.

(** What [get_conflicting_transactions] returns: the transactions, other
    than [tx_hash] itself, that [spent_outpoints] records as spenders of the
    outpoints that the inputs of [tx] spend, coinbase inputs left out; each
    is listed once and is in [transactions], and the engine is as before up
    to the empty dictionaries that reading [spent_outpoints] leaves behind. *)
Theorem get_conflicting_transactions_result :
  forall tx_hash tx s (C : set Txid) s1,
    get_conflicting_transactions tx_hash tx s = Ret C s1 ->
    NoDup C
    /\ (forall c, In c C <->
          c <> tx_hash
          /\ exists txin, In txin (inputs tx)
                          /\ is_coinbase_input txin = false
                          /\ so_lookup (prevout_hash txin) (prevout_n txin)
                               (spent_outpoints s) = Some c)
    /\ (forall c, In c C -> dmem c (transactions s) = true)
    /\ s1 = with_spent_outpoints s (spent_outpoints s1)
    /\ (forall h n, so_lookup h n (spent_outpoints s1) = so_lookup h n (spent_outpoints s)).
Proof.
  intros tx_hash tx s C s1 Hret.
  destruct (get_conflicting_transactions_spec tx_hash tx s C s1 Hret) as [[Hs1 Hsub] [Hnd HC]].
  split; [exact Hnd|]. split; [exact HC|]. split; [|split; [exact Hs1|]].
  - unfold get_conflicting_transactions in Hret.
    destruct (conflicting_loop (inputs tx) [] s) as [C0 s0|e s0|] eqn:Hloop;
      simpl in Hret; [|discriminate|discriminate].
    assert (Hknown : forall c, In c C0 -> dmem c (transactions s) = true).
    { apply (conflicting_loop_known _ _ _ _ _ Hloop). intros c []. }
    destruct (smem tx_hash C0).
    + destruct (Nat.ltb 1 (length C0)); [discriminate|]. injection Hret as <- <-.
      intros c Hc. apply Hknown. unfold sremove in Hc. apply set_remove_1 in Hc. exact Hc.
    + injection Hret as <- <-. exact Hknown.
  - intros h n. unfold so_lookup. rewrite Hsub. reflexivity.
Qed.

(** In an index without cycles [get_depending_transactions] returns, given
    fuel above the rank of the transaction, exactly the transactions that
    spend an output of it or of one of its dependents, each once; the
    transaction itself is not among them. *)
Theorem get_depending_transactions_descendants :
  forall (rank : Txid -> nat) (fuel : nat) tx_hash s,
    acyclic_by rank (spent_outpoints s) ->
    (rank tx_hash < fuel)%nat ->
    exists r s',
      get_depending_transactions fuel tx_hash s = Ret r s'
      /\ NoDup r
      /\ (forall x, In x r <-> depends_on (spent_outpoints s) tx_hash x)
      /\ ~ In tx_hash r
      /\ (forall h n, so_lookup h n (spent_outpoints s') = so_lookup h n (spent_outpoints s)).
Proof.
  intros rank fuel tx_hash s Hacyclic Hrank.
  destruct (get_depending_transactions_spec rank (spent_outpoints s) Hacyclic fuel tx_hash s)
    as [r [s' [Hret [[_ Hsub] [Hnd Hin]]]]]; [intros k; reflexivity|exact Hrank|].
  exists r, s'. split; [exact Hret|]. split; [exact Hnd|]. split; [exact Hin|]. split.
  - intros Hself. apply Hin in Hself.
    assert (Hlt : forall h x, depends_on (spent_outpoints s) h x -> (rank x < rank h)%nat).
    { intros h x Hdep. induction Hdep as [h x Hc|h c x Hc Hdep IH].
      - apply Hacyclic. exact Hc.
      - specialize (Hacyclic h c Hc). lia. }
    specialize (Hlt _ _ Hself). lia.
  - intros h n. unfold so_lookup. rewrite Hsub. reflexivity.
Qed.

(** ** Transactions paid to the wallet by others *)

Lemma wallet_delta_inputs_foreign s ins : forall a,
  (forall txin, In txin ins -> is_mine s (get_txin_address s txin) = false) ->
  fold_left (wallet_delta_input s) ins a
  = match ins with
    | [] => a
    | _ :: _ => mkDeltaAcc (acc_is_relevant a) (acc_is_mine a) (acc_is_pruned a) true
                  (acc_v_in a)
    end.
Proof.
  induction ins as [|txin ins IH]; intros a Hall; [reflexivity|].
  cbn [fold_left]. rewrite IH by (intros t Ht; apply Hall; right; exact Ht).
  assert (Hstep : wallet_delta_input s a txin
                  = mkDeltaAcc (acc_is_relevant a) (acc_is_mine a) (acc_is_pruned a) true
                      (acc_v_in a)).
  { pose proof (Hall txin (or_introl eq_refl)) as Hm. unfold wallet_delta_input.
    destruct (get_txin_address s txin) as [addr|]; [|reflexivity].
    rewrite Hm. reflexivity. }
  rewrite Hstep. destruct ins; reflexivity.
Qed.

(** A transaction none of whose inputs is the wallet's: [get_wallet_delta]
    answers that it is not the wallet's, relevant exactly when an output
    pays an address of the wallet, with the sum of those outputs as value and
    no fee; [get_tx_fee] then falls back on the fee the server reported, if
    any. *)
Theorem get_wallet_delta_incoming :
  forall s tx,
    (forall txin, In txin (inputs tx) -> is_mine s (get_txin_address s txin) = false) ->
    get_wallet_delta s tx
    = (existsb (fun o => is_mine s (Some (address o))) (outputs tx), false,
       Zsum (map value (filter (fun o => is_mine s (Some (address o))) (outputs tx))), None)
    /\ (_cached_fee tx = None ->
        fst (get_tx_fee s (Some tx)) = dget (txid tx) (tx_fees s)).
Proof.
  intros s tx Hall.
  assert (Hdelta : get_wallet_delta s tx
                   = (existsb (fun o => is_mine s (Some (address o))) (outputs tx), false,
                      Zsum (map value (filter (fun o => is_mine s (Some (address o)))
                                         (outputs tx))), None)).
  { unfold get_wallet_delta. rewrite (wallet_delta_inputs_foreign s (inputs tx) _ Hall).
    destruct (inputs tx) as [|txin ins]; cbn [acc_is_mine acc_is_relevant acc_is_pruned
                                              acc_is_partial acc_v_in];
      rewrite wallet_delta_outputs; cbn [orb]; rewrite Z.add_0_l, Z.sub_0_r; reflexivity. }
  split; [exact Hdelta|]. intros Hcache. unfold get_tx_fee. rewrite Hcache, Hdelta.
  destruct (dget (txid tx) (tx_fees s)); reflexivity.
Qed.

(** ** What indexing never touches *)

(** [add_transaction] and [remove_transaction] work on the index only:
    whether they return or raise, the server histories, the verified and
    unverified maps, the reported fees, the verifier, the local height and
    the storage are as before. *)
Theorem index_operations_keep_primary_state :
  forall (fuel : nat) tx_hash tx (allow_unrelated : bool) s,
    outcome_inv (same_primary s) (add_transaction fuel tx_hash tx allow_unrelated s)
    /\ outcome_inv (same_primary s) (remove_transaction tx_hash s).
Proof.
  intros fuel tx_hash tx allow_unrelated s. split.
  - apply framed_add_transaction_any.
  - eapply outcome_inv_framed; [|apply framed_remove_transaction]. auto.
Qed.

(** ** What [add_transaction] records *)

Lemma so_add_tx_to_local_history t s :
  spent_outpoints (_add_tx_to_local_history t s) = spent_outpoints s.
Proof. rewrite add_tx_to_local_history_shape. reflexivity. Qed.

Lemma so_lookup_add_input t s txin h n :
  so_lookup h n (spent_outpoints (add_input t s txin))
  = if is_coinbase_input txin then so_lookup h n (spent_outpoints s)
    else so_lookup h n (so_set (prevout_hash txin) (prevout_n txin) t (spent_outpoints s)).
Proof.
  unfold add_input. destruct (is_coinbase_input txin); [reflexivity|].
  destruct (find_prevout _ _) as [[addr v]|]; [|reflexivity].
  destruct (truthy addr && is_mine _ (Some addr)); reflexivity.
Qed.

Lemma so_lookup_give_value_to_spender t n0 addr v s h n :
  so_lookup h n (spent_outpoints (give_value_to_spender t n0 addr v s))
  = so_lookup h n (spent_outpoints s).
Proof.
  unfold give_value_to_spender.
  destruct (so_lookup t n0 (spent_outpoints s)) as [next_tx|].
  - rewrite so_add_tx_to_local_history.
    destruct (dget next_tx (txi _)); cbn [spent_outpoints with_txi with_spent_outpoints];
      apply so_lookup_so_touch.
  - cbn [spent_outpoints with_spent_outpoints]. apply so_lookup_so_touch.
Qed.

Lemma so_lookup_add_outputs t cb outs h n : forall n0 s,
  so_lookup h n (spent_outpoints (add_outputs t cb n0 outs s))
  = so_lookup h n (spent_outpoints s).
Proof.
  induction outs as [|o outs IH]; intros n0 s; simpl; [reflexivity|].
  rewrite IH. unfold add_output. destruct (get_txout_address o) as [addr|]; [|reflexivity].
  destruct (truthy addr && is_mine s (Some addr)); [|reflexivity].
  rewrite so_lookup_give_value_to_spender. reflexivity.
Qed.

Lemma so_lookup_index_transaction t tx cb s txin :
  In txin (inputs tx) -> is_coinbase_input txin = false ->
  so_lookup (prevout_hash txin) (prevout_n txin)
    (spent_outpoints (index_transaction t tx cb s)) = Some t.
Proof.
  intros Hin Hcb. unfold index_transaction.
  cbn [spent_outpoints with_transactions]. rewrite so_add_tx_to_local_history.
  assert (Hrest : forall s4 : AddressSynchronizer,
            spent_outpoints (if String.eqb (omni_host s4) "" then s4
                             else with_omni_tx s4
                                    (dset t (omni_txdata s4 t (raw tx)) (omni_tx s4)))
            = spent_outpoints s4).
  { intros s4. destruct (String.eqb (omni_host s4) ""); reflexivity. }
  rewrite Hrest, so_lookup_add_outputs. cbn [spent_outpoints with_txo].
  apply (fold_left_establish (add_input t)
           (fun st => so_lookup (prevout_hash txin) (prevout_n txin) (spent_outpoints st)
                      = Some t) txin (inputs tx) Hin).
  - intros st. rewrite so_lookup_add_input, Hcb, so_lookup_so_set.
    destruct (eq_dec (prevout_hash txin) (prevout_hash txin)); [|congruence].
    destruct (eq_dec (prevout_n txin) (prevout_n txin)); [reflexivity|congruence].
  - intros st b Hst. rewrite so_lookup_add_input.
    destruct (is_coinbase_input b); [exact Hst|]. rewrite so_lookup_so_set.
    destruct (eq_dec (prevout_hash txin) (prevout_hash b)); [|exact Hst].
    destruct (eq_dec (prevout_n txin) (prevout_n b)); [reflexivity|exact Hst].
Qed.

Lemma add_transaction_returns fuel tx_hash tx allow s b s' :
  add_transaction fuel tx_hash tx allow s = Ret b s' ->
  (b = true /\ exists s3, s' = index_transaction tx_hash tx (first_input_is_coinbase tx) s3)
  \/ (b = false /\ touched s s').
Proof.
  unfold add_transaction.
  destruct (negb (truthy tx_hash)); [discriminate|].
  destruct (negb (is_complete tx)); [discriminate|].
  destruct (inputs tx) as [|txin0 ins] eqn:Hins; [discriminate|].
  destruct (negb allow && _ && _); [discriminate|].
  unfold resolve_conflicts_and_index.
  destruct (get_conflicting_transactions tx_hash tx s) as [C s1|e s1|] eqn:Hconf;
    cbn [bind]; [|discriminate|discriminate].
  destruct (get_conflicting_transactions_spec _ _ _ _ _ Hconf) as [Htouched _].
  destruct C as [|c C].
  - intros [= <- <-]. left. split; [reflexivity|]. eexists. reflexivity.
  - destruct (_ && Z.leb _ 0); [intros [= <- <-]; right; split; [reflexivity|exact Htouched]|].
    destruct (_ && Z.eqb _ TX_HEIGHT_LOCAL);
      [intros [= <- <-]; right; split; [reflexivity|exact Htouched]|].
    destruct (collect_to_remove fuel (c :: C) s1) as [R s2|e s2|]; cbn [bind];
      [|discriminate|discriminate].
    destruct (for_each remove_transaction R s2) as [u s3|e s3|]; cbn [bind];
      [|discriminate|discriminate].
    intros [= <- <-]. left. split; [reflexivity|]. eexists. reflexivity.
Qed.

(** What a call of [add_transaction] that returns has done.  When it answers
    [True], the transaction is in [transactions] under its hash and
    [spent_outpoints] names it as the spender of the outpoint of each of its
    inputs that is not a coinbase input.  When it answers [False], the
    engine is as before, up to the empty dictionaries that reading
    [spent_outpoints] leaves behind. *)
Theorem add_transaction_records :
  forall (fuel : nat) tx_hash tx (allow_unrelated : bool) s (b : bool) s',
    add_transaction fuel tx_hash tx allow_unrelated s = Ret b s' ->
    (b = true ->
     dget tx_hash (transactions s') = Some tx
     /\ forall txin, In txin (inputs tx) -> is_coinbase_input txin = false ->
          so_lookup (prevout_hash txin) (prevout_n txin) (spent_outpoints s') = Some tx_hash)
    /\ (b = false ->
        s' = with_spent_outpoints s (spent_outpoints s')
        /\ forall h n, so_lookup h n (spent_outpoints s') = so_lookup h n (spent_outpoints s)).
Proof.
  intros fuel tx_hash tx allow_unrelated s b s' Hret.
  destruct (add_transaction_returns _ _ _ _ _ _ _ Hret) as [[-> [s3 ->]]|[-> [Hs Hsub]]].
  - split; [|discriminate]. intros _. split.
    + rewrite transactions_index_transaction. apply dget_dset_same.
    + intros txin Hin Hcb. apply so_lookup_index_transaction; assumption.
  - split; [discriminate|]. intros _. split; [exact Hs|].
    intros h n. unfold so_lookup. rewrite Hsub. reflexivity.
Qed.

(** ** Histories and fees from the server *)

Lemma fees_update (fees : dict Txid Z) : forall (m : dict Txid Z) t,
  wf fees ->
  dget t (fold_left (fun m0 (kv : Txid * Z) => dset (fst kv) (snd kv) m0) fees m)
  = match dget t fees with Some f => Some f | None => dget t m end.
Proof.
  induction fees as [|[k f] fees IH]; intros m t Hwf; simpl; [reflexivity|].
  inversion Hwf as [|? ? Hnotin Hwf']; subst. rewrite (IH _ _ Hwf'). rewrite dget_dset.
  destruct (eq_dec t k) as [->|Hne].
  - apply dget_None_notin in Hnotin. rewrite Hnotin. reflexivity.
  - reflexivity.
Qed.

Lemma history_forget_retracted addr hist s :
  history (forget_retracted addr hist s) = dset addr hist (history s)
  /\ tx_fees (forget_retracted addr hist s) = tx_fees s.
Proof.
  rewrite forget_retracted_unfold. cbn [history tx_fees with_history].
  assert (Hfold : forall l s0,
            history (fold_left (retract_step hist) l s0) = history s0
            /\ tx_fees (fold_left (retract_step hist) l s0) = tx_fees s0).
  { induction l as [|e l IH]; intros s0; simpl; [split; reflexivity|].
    destruct (IH (retract_step hist s0 e)) as [Hh Hf]. rewrite Hh, Hf.
    unfold retract_step, remove_spv_proof_for_tx.
    destruct (existsb (eqb_of e) hist); [split; reflexivity|].
    cbn [verifier with_verified_tx with_unverified_tx].
    destruct (verifier s0); split; reflexivity. }
  destruct (Hfold (get_address_history s addr) s) as [Hh Hf]. rewrite Hh, Hf.
  split; reflexivity.
Qed.

(** When [receive_history_callback] returns, the history of the address is
    the one the server sent, so that [is_used] holds exactly when that
    history is not empty; the histories of the other addresses are as
    before, and the fees the server sent have been merged into [tx_fees]: a
    reported fee replaces the one on record, the others stay. *)
Theorem receive_history_callback_stores :
  forall (fuel : nat) (addr : Address) (hist : list (Txid * Z)) (fees : dict Txid Z) s s',
    wf fees ->
    receive_history_callback fuel addr hist fees s = Ret tt s' ->
    dget addr (history s') = Some hist
    /\ is_used s' addr = negb (Nat.eqb (length hist) 0)
    /\ (forall a, a <> addr -> dget a (history s') = dget a (history s))
    /\ (forall t, dget t (tx_fees s')
                  = match dget t fees with Some f => Some f | None => dget t (tx_fees s) end).
Proof.
  intros fuel addr hist fees s s' Hwf Hret. unfold receive_history_callback in Hret.
  destruct (history_forget_retracted addr hist s) as [Hh0 Hf0].
  match type of Hret with bind (for_each ?body _ _) _ = _ =>
    assert (Hinv : outcome_inv
                     (fun s1 => history s1 = dset addr hist (history s)
                                /\ tx_fees s1 = tx_fees s)
                     (for_each body hist (forget_retracted addr hist s)))
  end.
  { apply outcome_inv_for_each; [|split; assumption].
    intros e s0 [Hh Hf].
    assert (Hunv : history (add_unverified_tx (fst e) (snd e) s0) = history s0
                   /\ tx_fees (add_unverified_tx (fst e) (snd e) s0) = tx_fees s0).
    { unfold add_unverified_tx, remove_spv_proof_for_tx.
      destruct (dmem (fst e) (verified_tx s0)); [|split; reflexivity].
      destruct (_ || _); [|split; reflexivity].
      cbn [verifier with_verified_tx]. destruct (verifier s0); split; reflexivity. }
    destruct Hunv as [Hh1 Hf1].
    destruct (dget (fst e) (transactions (add_unverified_tx (fst e) (snd e) s0))) as [tx|].
    - pose proof (framed_add_transaction_any fuel (fst e) tx true
                    (add_unverified_tx (fst e) (snd e) s0)) as Hframe.
      destruct (add_transaction fuel (fst e) tx true _) as [b s3|e3 s3|]; cbn [bind];
        simpl in Hframe; simpl; trivial;
        destruct Hframe as (Hh3 & _ & _ & Hf3 & _); split; congruence.
    - simpl. split; congruence. }
  match type of Hret with bind ?m _ = _ => destruct m as [u s2|e s2|] eqn:Hloop end;
    cbn [bind] in Hret; [|discriminate|discriminate].
  injection Hret as <-. simpl in Hinv.
  assert (Hs2 : history s2 = dset addr hist (history s) /\ tx_fees s2 = tx_fees s)
    by exact Hinv.
  destruct Hs2 as [Hh2 Hf2]. unfold is_used. cbn [history tx_fees with_tx_fees].
  split; [|split; [|split]].
  - rewrite Hh2. apply dget_dset_same.
  - rewrite Hh2, dget_dset_same. reflexivity.
  - intros a Ha. rewrite Hh2. apply dget_dset_other. exact Ha.
  - intros t. rewrite (fees_update fees _ t Hwf), Hf2. reflexivity.
Qed.

(** ** Loading a wallet *)

(** [load_unverified_transactions] *)
Definition load_unverified_transactions s : AddressSynchronizer :=
  fold_left
    (fun s1 (item : Address * list (Txid * Z)) =>
       fold_left (fun s2 (e : Txid * Z) => add_unverified_tx (fst e) (snd e) s2) (snd item) s1)
    (history s) s.

Lemma load_unverified_fold t l : forall s,
  dget t (verified_tx s) = None ->
  let s' := fold_left (fun s2 (e : Txid * Z) => add_unverified_tx (fst e) (snd e) s2) l s in
  dget t (verified_tx s') = None
  /\ ((exists h, dget t (unverified_tx s') = Some h /\ In (t, h) l)
      \/ (dget t (unverified_tx s') = dget t (unverified_tx s) /\ forall h, ~ In (t, h) l)).
Proof.
  induction l as [|e l IH]; intros s Hv; simpl.
  - split; [exact Hv|]. right. split; [reflexivity|]. intros h [].
  - assert (Hstep : dget t (verified_tx (add_unverified_tx (fst e) (snd e) s)) = None
                    /\ dget t (unverified_tx (add_unverified_tx (fst e) (snd e) s))
                       = if eq_dec t (fst e) then Some (snd e) else dget t (unverified_tx s)).
    { unfold add_unverified_tx, remove_spv_proof_for_tx, dmem.
      destruct (eq_dec t (fst e)) as [->|Hne].
      - rewrite Hv. cbn [verified_tx unverified_tx with_unverified_tx].
        split; [exact Hv|apply dget_dset_same].
      - destruct (dget (fst e) (verified_tx s)).
        + destruct (_ || _); [|split; [exact Hv|reflexivity]].
          cbn [verifier with_verified_tx].
          destruct (verifier s); cbn [verified_tx unverified_tx with_verified_tx with_verifier];
            (split; [rewrite dget_dpop_other by exact Hne; exact Hv|reflexivity]).
        + cbn [verified_tx unverified_tx with_unverified_tx].
          split; [exact Hv|apply dget_dset_other; exact Hne]. }
    destruct Hstep as [Hv1 Hu1].
    destruct (IH _ Hv1) as [Hv' Hu']. split; [exact Hv'|].
    destruct Hu' as [[h [Hget Hin]]|[Hsame Hnot]].
    + left. exists h. split; [exact Hget|right; exact Hin].
    + rewrite Hsame, Hu1. destruct (eq_dec t (fst e)) as [->|Hne].
      * left. exists (snd e). split; [reflexivity|left; destruct e; reflexivity].
      * right. split; [reflexivity|]. intros h [Heq|Hin]; [|exact (Hnot h Hin)].
        apply Hne. rewrite Heq. reflexivity.
Qed.

(** After [load_unverified_transactions], a transaction that is not verified
    and that some server history lists is unverified at a height that a
    server history lists for it; a transaction that is not verified and that
    no history lists keeps its entry, or stays without one; and no
    transaction becomes verified. *)
Theorem load_unverified_transactions_covers :
  forall s (t : Txid),
    dget t (verified_tx s) = None ->
    dget t (verified_tx (load_unverified_transactions s)) = None
    /\ ((exists addr hist h, In (addr, hist) (history s) /\ In (t, h) hist) ->
        exists addr hist h,
          In (addr, hist) (history s) /\ In (t, h) hist
          /\ dget t (unverified_tx (load_unverified_transactions s)) = Some h)
    /\ ((forall addr hist h, In (addr, hist) (history s) -> ~ In (t, h) hist) ->
        dget t (unverified_tx (load_unverified_transactions s)) = dget t (unverified_tx s)).
Proof.
  intros s t Hv. unfold load_unverified_transactions.
  assert (Hgen : forall items s0,
            dget t (verified_tx s0) = None ->
            let s' := fold_left
                        (fun s1 (item : Address * list (Txid * Z)) =>
                           fold_left (fun s2 (e : Txid * Z) =>
                                        add_unverified_tx (fst e) (snd e) s2) (snd item) s1)
                        items s0 in
            dget t (verified_tx s') = None
            /\ ((exists addr hist h, In (addr, hist) items /\ In (t, h) hist
                                     /\ dget t (unverified_tx s') = Some h)
                \/ (dget t (unverified_tx s') = dget t (unverified_tx s0)
                    /\ forall addr hist h, In (addr, hist) items -> ~ In (t, h) hist))).
  { induction items as [|[addr hist] items IH]; intros s0 Hv0; simpl.
    - split; [exact Hv0|]. right. split; [reflexivity|]. intros a hi h [].
    - destruct (load_unverified_fold t hist s0 Hv0) as [Hv1 Hu1]. cbv zeta in Hv1, Hu1.
      destruct (IH _ Hv1) as [Hv' Hu']. cbv zeta in Hv', Hu'. split; [exact Hv'|].
      destruct Hu' as [[a [hi [h [Hin [Hh Hget]]]]]|[Hsame Hnot]].
      + left. exists a, hi, h. split; [right; exact Hin|]. split; assumption.
      + rewrite Hsame. destruct Hu1 as [[h [Hget Hin]]|[Hsame1 Hnot1]].
        * left. exists addr, hist, h. split; [left; reflexivity|]. split; assumption.
        * right. split; [exact Hsame1|].
          intros a hi h [[= <- <-]|Hin]; [apply Hnot1|apply (Hnot a hi h Hin)]. }
  destruct (Hgen (history s) s Hv) as [Hv' Hu']. cbv zeta in Hv', Hu'.
  split; [exact Hv'|]. split.
  - intros [addr [hist [h [Hin Hh]]]].
    destruct Hu' as [[a [hi [h' [Hin' [Hh' Hget]]]]]|[_ Hnot]].
    + exists a, hi, h'. repeat split; assumption.
    + exfalso. exact (Hnot addr hist h Hin Hh).
  - intros Hnot. destruct Hu' as [[a [hi [h' [Hin' [Hh' Hget]]]]]|[Hsame _]].
    + exfalso. exact (Hnot a hi h' Hin' Hh').
    + exact Hsame.
Qed.

(** [remove_local_transactions_we_dont_have] *)
Definition remove_local_transactions_we_dont_have s : outcome unit :=
  for_each
    (fun (txid0 : Txid) s1 =>
       let tx_height := height (get_tx_height s1 txid0) in
       if Z.eqb tx_height TX_HEIGHT_LOCAL && negb (dmem txid0 (transactions s1))
       then remove_transaction txid0 s1
       else Ret tt s1)
    (sunion (dkeys (txi s)) (dkeys (txo s))) s.

(** The transaction is local and the engine does not hold it. *)
Definition local_and_missing s (t : Txid) : bool :=
  Z.eqb (height (get_tx_height s t)) TX_HEIGHT_LOCAL && negb (dmem t (transactions s)).

(** Every spender that an entry of [spent_outpoints] names is held. *)
Definition recorded_spenders_held s : Prop :=
  forall h d n t, In (h, d) (spent_outpoints s) -> In (n, t) d ->
                  dmem t (transactions s) = true.

Lemma In_so_drop_if_empty t so h d :
  In (h, d) (so_drop_if_empty t so) -> In (h, d) so \/ d = [].
Proof.
  unfold so_drop_if_empty.
  assert (Htouch : In (h, d) (so_touch t so) -> In (h, d) so \/ d = []).
  { unfold so_touch. destruct (dmem t so); [tauto|].
    intros Hin. apply in_app_or in Hin. destruct Hin as [Hin|[[= <- <-]|[]]]; tauto. }
  destruct (so_sub t (so_touch t so)); [|exact Htouch].
  intros Hin. unfold dpop in Hin. apply filter_In in Hin. apply Htouch. tauto.
Qed.

Lemma remove_missing_transaction t s :
  recorded_spenders_held s ->
  dmem t (transactions s) = false ->
  exists s2,
    remove_transaction t s = Ret tt s2
    /\ transactions s2 = transactions s
    /\ same_primary s s2
    /\ recorded_spenders_held s2
    /\ txi s2 = dpop t (txi s)
    /\ txo s2 = dpop t (txo s).
Proof.
  intros Hheld Hmiss. apply dmem_false in Hmiss.
  pose proof (framed_remove_transaction t s) as Hframe.
  unfold remove_transaction in *. rewrite Hmiss in *.
  cbn [spent_outpoints with_transactions] in *.
  assert (Hfind : find_spend t (spent_outpoints s) = None).
  { apply find_spend_none. intros h d n Hin Hd.
    pose proof (Hheld h d n t Hin Hd) as Hk. apply dmem_true in Hk.
    destruct Hk as [tx Htx]. congruence. }
  rewrite Hfind in *. eexists. split; [reflexivity|].
  assert (Htxs : transactions
                   (remove_transaction_finish t
                      (with_transactions s (dpop t (transactions s))))
                 = transactions s).
  { rewrite transactions_remove_transaction_finish. cbn [transactions with_transactions].
    apply dpop_notin. exact Hmiss. }
  split; [exact Htxs|]. split; [exact Hframe|].
  unfold remove_transaction_finish in *. rewrite remove_tx_from_local_history_shape in *.
  cbn [txi txo spent_outpoints transactions with_txi with_txo with_history_local
       with_spent_outpoints with_transactions] in *.
  split; [|split; reflexivity].
  intros h d n x Hin Hd.
  cbn [txi txo spent_outpoints transactions with_txi with_txo with_history_local
       with_spent_outpoints with_transactions] in *.
  rewrite Htxs. apply In_so_drop_if_empty in Hin. destruct Hin as [Hin| ->]; [|destruct Hd].
  exact (Hheld h d n x Hin Hd).
Qed.

Lemma local_and_missing_same s s' t :
  same_primary s s' -> transactions s' = transactions s ->
  local_and_missing s' t = local_and_missing s t.
Proof.
  intros (_ & Hv & Hu & _) Htx. unfold local_and_missing, get_tx_height.
  rewrite Hv, Hu, Htx.
  destruct (dget t (verified_tx s)); [reflexivity|]. reflexivity.
Qed.

Lemma remove_local_loop l : forall s,
  recorded_spenders_held s ->
  exists s',
    for_each
      (fun (txid0 : Txid) s1 =>
         let tx_height := height (get_tx_height s1 txid0) in
         if Z.eqb tx_height TX_HEIGHT_LOCAL && negb (dmem txid0 (transactions s1))
         then remove_transaction txid0 s1
         else Ret tt s1) l s = Ret tt s'
    /\ transactions s' = transactions s
    /\ same_primary s s'
    /\ (forall t, In t l -> local_and_missing s t = true ->
          dget t (txi s') = None /\ dget t (txo s') = None)
    /\ (forall t, local_and_missing s t = false ->
          dget t (txi s') = dget t (txi s) /\ dget t (txo s') = dget t (txo s))
    /\ (forall t, (dget t (txi s') = None \/ dget t (txi s') = dget t (txi s))
                  /\ (dget t (txo s') = None \/ dget t (txo s') = dget t (txo s))).
Proof.
  induction l as [|t0 l IH]; intros s Hheld.
  - exists s. split; [reflexivity|]. split; [reflexivity|]. split; [apply same_primary_refl|].
    split; [intros t []|]. split; [intros t _; split; reflexivity|].
    intros t. split; right; reflexivity.
  - cbn [for_each]. cbv zeta. fold (local_and_missing s t0).
    destruct (local_and_missing s t0) eqn:Hbad.
    + assert (Hmiss : dmem t0 (transactions s) = false).
      { unfold local_and_missing in Hbad. apply andb_true_iff in Hbad.
        destruct Hbad as [_ Hn]. apply negb_true_iff in Hn. exact Hn. }
      destruct (remove_missing_transaction t0 s Hheld Hmiss)
        as [s2 [Hret [Htx2 [Hsp2 [Hheld2 [Htxi2 Htxo2]]]]]].
      rewrite Hret. cbn [bind].
      destruct (IH s2 Hheld2) as [s' [Hloop [Htx [Hsp [Hgone [Hkept Hmono]]]]]].
      exists s'. split; [exact Hloop|]. split; [congruence|].
      split; [eapply same_primary_trans; eassumption|].
      assert (Hsame : forall t, local_and_missing s2 t = local_and_missing s t).
      { intros t. apply local_and_missing_same; assumption. }
      split; [|split].
      * intros t [<-|Hin] Ht.
        -- destruct (Hmono t0) as [Hi Ho]. rewrite Htxi2, Htxo2, !dget_dpop_same in *.
           split; [destruct Hi|destruct Ho]; assumption.
        -- apply Hgone; [exact Hin|]. rewrite Hsame. exact Ht.
      * intros t Ht. destruct (Hkept t) as [Hi Ho]; [rewrite Hsame; exact Ht|].
        rewrite Hi, Ho, Htxi2, Htxo2.
        assert (Hne : t <> t0) by (intros ->; congruence).
        rewrite !dget_dpop_other by exact Hne. split; reflexivity.
      * intros t. destruct (Hmono t) as [Hi Ho]. rewrite Htxi2, Htxo2, !dget_dpop in *.
        destruct (eq_dec t t0); split; tauto.
    + cbn [bind].
      destruct (IH s Hheld) as [s' [Hloop [Htx [Hsp [Hgone [Hkept Hmono]]]]]].
      exists s'. split; [exact Hloop|]. split; [exact Htx|]. split; [exact Hsp|].
      split; [|split; assumption].
      intros t [<-|Hin] Ht; [congruence|]. apply Hgone; assumption.
Qed.

(** When every spender that [spent_outpoints] names is held (invariant P1,
    which [load_transactions] establishes), the sweep
    [remove_local_transactions_we_dont_have] ends without an exception;
    afterwards every transaction with an entry in [txi] or [txo] is held or
    is not local, the entries of such transactions are as before, and
    [transactions] is unchanged. *)
Theorem remove_local_transactions_we_dont_have_sweeps :
  forall s,
    recorded_spenders_held s ->
    exists s',
      remove_local_transactions_we_dont_have s = Ret tt s'
      /\ transactions s' = transactions s
      /\ (forall t, dmem t (txi s') = true \/ dmem t (txo s') = true ->
            height (get_tx_height s' t) <> TX_HEIGHT_LOCAL
            \/ dmem t (transactions s') = true)
      /\ (forall t, height (get_tx_height s t) <> TX_HEIGHT_LOCAL
                    \/ dmem t (transactions s) = true ->
            dget t (txi s') = dget t (txi s) /\ dget t (txo s') = dget t (txo s)).
Proof.
  intros s Hheld. unfold remove_local_transactions_we_dont_have.
  destruct (remove_local_loop (sunion (dkeys (txi s)) (dkeys (txo s))) s Hheld)
    as [s' [Hloop [Htx [Hsp [Hgone [Hkept Hmono]]]]]].
  exists s'. split; [exact Hloop|]. split; [exact Htx|]. split.
  - intros t Hidx.
    assert (Hok : local_and_missing s t = false).
    { destruct (local_and_missing s t) eqn:Hbad; [|reflexivity]. exfalso.
      assert (Hnone : dget t (txi s') = None /\ dget t (txo s') = None).
      { destruct (in_dec eq_dec t (sunion (dkeys (txi s)) (dkeys (txo s)))) as [Hin|Hnotin].
        - apply Hgone; assumption.
        - assert (Hi : dget t (txi s) = None).
          { apply dget_None_notin. intros Hk. apply Hnotin. apply sunion_In. left. exact Hk. }
          assert (Ho : dget t (txo s) = None).
          { apply dget_None_notin. intros Hk. apply Hnotin. apply sunion_In. right. exact Hk. }
          destruct (Hmono t) as [Hmi Hmo]. rewrite Hi in Hmi. rewrite Ho in Hmo.
          split; [destruct Hmi|destruct Hmo]; assumption. }
      destruct Hnone as [Hi Ho]. unfold dmem in Hidx. rewrite Hi, Ho in Hidx.
      destruct Hidx; discriminate. }
    rewrite <- (local_and_missing_same s s' t Hsp Htx) in Hok.
    unfold local_and_missing in Hok. apply andb_false_iff in Hok.
    destruct Hok as [Hh|Hk].
    + left. apply Z.eqb_neq. exact Hh.
    + right. apply negb_false_iff. exact Hk.
  - intros t Hok. apply Hkept. unfold local_and_missing. apply andb_false_iff.
    destruct Hok as [Hh|Hk].
    + left. apply Z.eqb_neq. exact Hh.
    + right. rewrite Hk. reflexivity.
Qed.

(** ** Receiving a transaction again *)

Lemma conflicting_loop_self t ins : forall acc s,
  (forall txin, In txin ins -> is_coinbase_input txin = false ->
     so_lookup (prevout_hash txin) (prevout_n txin) (spent_outpoints s) = Some t) ->
  dmem t (transactions s) = true ->
  acc = [] \/ acc = [t] ->
  exists C s', conflicting_loop ins acc s = Ret C s' /\ (C = [] \/ C = [t]).
Proof.
  induction ins as [|txin ins IH]; intros acc s Hall Hknown Hacc; simpl.
  - exists acc, s. split; [reflexivity|exact Hacc].
  - destruct (is_coinbase_input txin) eqn:Hcb.
    + apply IH; [|exact Hknown|exact Hacc].
      intros x Hx. apply Hall. right. exact Hx.
    + rewrite (Hall txin (or_introl eq_refl) Hcb).
      cbn [transactions with_spent_outpoints]. rewrite Hknown.
      apply IH.
      * intros x Hx Hxcb. cbn [spent_outpoints with_spent_outpoints].
        rewrite so_lookup_so_touch. apply Hall; [right; exact Hx|exact Hxcb].
      * exact Hknown.
      * right. destruct Hacc as [-> | ->]; unfold sadd; simpl; [reflexivity|].
        destruct (eq_dec t t); [reflexivity|congruence].
Qed.

(** A transaction that [add_transaction] has accepted can be handed to it
    again, as [receive_history_callback] does with the transactions the
    engine holds: the transaction is not a conflict of itself, the second
    call answers [True] too, and the transaction is still held. *)
Theorem add_transaction_again :
  forall (fuel : nat) tx_hash tx (allow_unrelated : bool) s s1,
    add_transaction fuel tx_hash tx allow_unrelated s = Ret true s1 ->
    exists s1' s2,
      get_conflicting_transactions tx_hash tx s1 = Ret [] s1'
      /\ add_transaction fuel tx_hash tx true s1 = Ret true s2
      /\ dget tx_hash (transactions s2) = Some tx.
Proof.
  intros fuel tx_hash tx allow_unrelated s s1 Hret.
  destruct (add_transaction_returns _ _ _ _ _ _ _ Hret) as [[_ [s3 Hs1]]|[[=] _]].
  assert (Hknown : dmem tx_hash (transactions s1) = true).
  { rewrite Hs1, transactions_index_transaction. unfold dmem. rewrite dget_dset_same.
    reflexivity. }
  assert (Hspends : forall txin, In txin (inputs tx) -> is_coinbase_input txin = false ->
            so_lookup (prevout_hash txin) (prevout_n txin) (spent_outpoints s1)
            = Some tx_hash).
  { intros txin Hin Hcb. rewrite Hs1. apply so_lookup_index_transaction; assumption. }
  destruct (conflicting_loop_self tx_hash (inputs tx) [] s1 Hspends Hknown (or_introl eq_refl))
    as [C [s1' [Hloop HC]]].
  assert (Hconf : get_conflicting_transactions tx_hash tx s1 = Ret [] s1').
  { unfold get_conflicting_transactions. rewrite Hloop. cbn [bind].
    destruct HC as [-> | ->]; [reflexivity|].
    unfold smem, sremove. simpl. destruct (eq_dec tx_hash tx_hash); [reflexivity|congruence]. }
  exists s1'. eexists. split; [exact Hconf|].
  unfold add_transaction in *.
  destruct (negb (truthy tx_hash)); [discriminate|].
  destruct (negb (is_complete tx)); [discriminate|].
  destruct (inputs tx) as [|txin0 ins] eqn:Hins; [discriminate|].
  cbn [negb andb]. unfold resolve_conflicts_and_index. rewrite Hconf. cbn [bind].
  split; [reflexivity|].
  rewrite transactions_index_transaction. apply dget_dset_same.
Qed.

(** [receive_tx_callback] takes a transaction whether or not it concerns the
    wallet: it never raises [UnrelatedTransactionException]; and for a
    transaction that is not verified the height the server gave is on record
    in [unverified_tx] afterwards, whether the call returned or raised. *)
Theorem receive_tx_callback_records_height :
  forall (fuel : nat) tx_hash tx (tx_height : Z) s,
    (forall s',
        receive_tx_callback fuel tx_hash tx tx_height s
        <> Raise UnrelatedTransactionException s')
    /\ (dmem tx_hash (verified_tx s) = false ->
        match receive_tx_callback fuel tx_hash tx tx_height s with
        | Ret _ s' => dget tx_hash (unverified_tx s') = Some tx_height
        | Raise e s' =>
            dget tx_hash (unverified_tx s') = Some tx_height
            /\ e <> UnrelatedTransactionException
        | OutOfFuel => True
        end).
Proof.
  intros fuel tx_hash tx tx_height s. unfold receive_tx_callback.
  pose proof (framed_add_transaction_related fuel tx_hash tx
                (add_unverified_tx tx_hash tx_height s)) as Hframe.
  split.
  - intros s'.
    destruct (add_transaction fuel tx_hash tx true (add_unverified_tx tx_hash tx_height s))
      as [b s1|e s1|]; cbn [bind]; simpl in Hframe; [discriminate| |discriminate].
    destruct Hframe as [_ He]. intros [= Heq _]. exact (He Heq).
  - intros Hv.
    assert (Hu : dget tx_hash (unverified_tx (add_unverified_tx tx_hash tx_height s))
                 = Some tx_height).
    { unfold add_unverified_tx. rewrite Hv. cbn [unverified_tx with_unverified_tx].
      apply dget_dset_same. }
    destruct (add_transaction fuel tx_hash tx true (add_unverified_tx tx_hash tx_height s))
      as [b s'|e s'|]; cbn [bind]; simpl in Hframe; [| |exact I].
    + destruct Hframe as (_ & _ & Hunv & _). rewrite Hunv. exact Hu.
    + destruct Hframe as [(_ & _ & Hunv & _) He]. split; [|exact He]. rewrite Hunv. exact Hu.
Qed.

End Engine.

(** * The theorems at concrete engines *)

(** Stand-ins for the collaborators: public keys and headers are their own
    hashes, and there is no token daemon. *)
Definition plain_p2pkh (pubkey : string) : string := pubkey.
Definition plain_hash_header (hdr : string) : string := hdr.
Definition no_decodeTransaction (rawtx : string) : option (Txid * Z * string * string * Z) := None.
Definition no_getProperty (property_id : Z) : option string := None.
Definition no_getBalance (addr : Address) : option Z := None.

(** After the reorganisation the block at height 700 hashes to [H']. *)
Definition forked_chain : Blockchain string :=
  fun h => if Z.eqb h 700 then Some "H'" else None.

Lemma undo_verifications_demotes_witness :
  dget "T7" (verified_tx (snd (undo_verifications string plain_hash_header forked_chain 700
                                 reorg_engine))) = None
  /\ dget "T7" (unverified_tx (snd (undo_verifications string plain_hash_header forked_chain 700
                                      reorg_engine))) = Some 700
  /\ height (get_tx_height (snd (undo_verifications string plain_hash_header forked_chain 700
                                    reorg_engine)) "T7") = 700
  /\ conf (get_tx_height (snd (undo_verifications string plain_hash_header forked_chain 700
                                  reorg_engine)) "T7") = Some 0.
Proof.
  apply (undo_verifications_demotes plain_p2pkh string plain_hash_header
           no_decodeTransaction no_getProperty no_getBalance forked_chain 700 reorg_engine "T7"
           (mkTxMinedInfo 700 None (Some 1500000000) (Some 3) (Some "H"))).
  - unfold wf. simpl. constructor; [intros []|constructor].
  - reflexivity.
  - simpl. lia.
  - right. exists "H'". split; [reflexivity|]. simpl. unfold plain_hash_header. discriminate.
Defined.

Lemma wallet_delta_fee_scenario_witness :
  get_wallet_delta delta_engine delta_tx = (true, true, -900, Some 100)
  /\ exists tx',
       get_tx_fee delta_engine (Some delta_tx) = (Some 100, Some tx')
       /\ _cached_fee tx' = Some 100
       /\ get_tx_fee delta_engine (Some tx') = (Some 100, Some tx').
Proof.
  apply (wallet_delta_fee_scenario delta_engine delta_tx [1000]).
  - reflexivity.
  - discriminate.
  - constructor; [|constructor]. exists "A". repeat split; reflexivity.
  - reflexivity.
  - reflexivity.
  - reflexivity.
  - reflexivity.
Defined.

(** The scenario of C5 at a concrete wallet: the inputs are the wallet's and
    total 1000, the outputs total 900 and return 100 to the wallet, and the
    value [get_wallet_delta] reports is -900, not -800. *)
Lemma wallet_delta_is_not_minus_800 :
  is_complete delta_tx = true
  /\ Forall2 (fun txin v => exists addr,
                get_txin_address delta_engine txin = Some addr
                /\ is_mine delta_engine (Some addr) = true
                /\ prev_output_value delta_engine txin addr = Some v)
       (inputs delta_tx) [1000]
  /\ Zsum (map value (outputs delta_tx)) = 900
  /\ Zsum (map value (filter (fun o => is_mine delta_engine (Some (address o)))
                        (outputs delta_tx))) = 100
  /\ get_wallet_delta delta_engine delta_tx = (true, true, -900, Some 100)
  /\ get_wallet_delta delta_engine delta_tx <> (true, true, -800, Some 100).
Proof.
  split; [reflexivity|]. split.
  { constructor; [|constructor]. exists "A". repeat split; reflexivity. }
  split; [reflexivity|]. split; [reflexivity|]. split; [reflexivity|].
  vm_compute. discriminate.
Qed.

Lemma verified_unverified_disjoint_witness :
  (forall tx_hash tx_height,
      verification_disjoint (add_unverified_tx tx_hash tx_height reorg_engine))
  /\ (forall tx_hash info, verification_disjoint (add_verified_tx tx_hash info reorg_engine))
  /\ (forall blockchain reorg_height,
        verification_disjoint
          (snd (undo_verifications string plain_hash_header blockchain reorg_height
                  reorg_engine)))
  /\ (forall fuel addr hist fees s',
        state_after (receive_history_callback plain_p2pkh no_decodeTransaction no_getProperty
                       fuel addr hist fees reorg_engine) = Some s' ->
        verification_disjoint s')
  /\ (forall fuel ops s',
        run plain_p2pkh string plain_hash_header no_decodeTransaction no_getProperty
          fuel ops reorg_engine = Some s' ->
        verification_disjoint s').
Proof.
  apply (verified_unverified_disjoint plain_p2pkh string plain_hash_header
           no_decodeTransaction no_getProperty no_getBalance reorg_engine).
  intros t Hv Hu. exact Hu.
Defined.

Lemma add_transaction_unrelated_witness :
  ((exists s', add_transaction plain_p2pkh no_decodeTransaction no_getProperty 8 "T1"
                 foreign_tx false watching_engine
               = Raise UnrelatedTransactionException s')
   <-> ((forall txin, In txin (inputs foreign_tx) ->
           is_mine watching_engine (get_txin_address watching_engine txin) = false)
        /\ (forall o, In o (outputs foreign_tx) ->
              is_mine watching_engine (get_txout_address plain_p2pkh o) = false)))
  /\ (forall s', add_transaction plain_p2pkh no_decodeTransaction no_getProperty 8 "T1"
                   foreign_tx false watching_engine
                 = Raise UnrelatedTransactionException s' -> s' = watching_engine).
Proof.
  apply (add_transaction_unrelated plain_p2pkh no_decodeTransaction no_getProperty no_getBalance).
  - reflexivity.
  - reflexivity.
  - discriminate.
Defined.

(** Scenario 1 of the specification: the foreign transaction is refused and
    the wallet is as before. *)
Example foreign_tx_refused :
  add_transaction plain_p2pkh no_decodeTransaction no_getProperty 8 "T1" foreign_tx false
    watching_engine
  = Raise UnrelatedTransactionException watching_engine.
Proof. reflexivity. Qed.

(** Scenario 6 of the specification. *)
Example history_scenario :
  match get_history no_getBalance history_engine (Some ["A"]) with
  | inr rows => Some (map (fun r => (row_txid r, row_balance r)) rows)
  | inl _ => None
  end
  = Some [("Tc", Some 100); ("Tb", Some 120); ("Ta", Some 90)].
Proof. reflexivity. Qed.

(** The server takes back [T9], which it had reported for [A]; the wallet
    never received the transaction, so [T9] is not in the old history that
    the callback compares, and it stays in [unverified_tx]. *)
Lemma retracted_but_still_unverified :
  dget "A" (history awaiting_engine) = Some [("T9", 5)]
  /\ ~ In ("T9", 5) (@nil (Txid * Z))
  /\ get_address_history awaiting_engine "A" = []
  /\ dget "T9" (unverified_tx (forget_retracted "A" [] awaiting_engine)) = Some 5
  /\ verifier (forget_retracted "A" [] awaiting_engine) = Some []
  /\ exists s2,
       receive_history_callback plain_p2pkh no_decodeTransaction no_getProperty 8 "A" [] []
         awaiting_engine = Ret tt s2
       /\ dget "T9" (unverified_tx s2) = Some 5.
Proof.
  split; [reflexivity|]. split; [intros []|]. split; [reflexivity|].
  split; [reflexivity|]. split; [reflexivity|].
  eexists. split; reflexivity.
Qed.

(** The wallet has [T8]; the server takes it back, and it is forgotten. *)
Example retracted_and_forgotten :
  dget "T8" (unverified_tx (forget_retracted "A" [] synced_engine)) = None
  /\ verifier (forget_retracted "A" [] synced_engine) = Some ["T8"].
Proof. split; reflexivity. Qed.

(** [clear_history] empties [txi] and [txo] and leaves [_history_local] as it
    was: the local history of [A] still lists [P]. *)
Lemma clear_history_keeps_local_history :
  local_history_consistent delta_engine
  /\ txi (clear_history delta_engine) = []
  /\ txo (clear_history delta_engine) = []
  /\ dget "A" (_history_local (clear_history delta_engine)) = Some ["P"]
  /\ ~ local_history_consistent (clear_history delta_engine).
Proof.
  split.
  { intros a t. unfold delta_engine, txi_of, txo_of. simpl.
    destruct (eq_dec a "A") as [->|Ha].
    - destruct (eq_dec t "P") as [->|Ht]; simpl.
      + split; [intros _; right; left; reflexivity|intros _; left; reflexivity].
      + split; [intros [Heq|[]]; congruence|intros [[]|[]]].
    - destruct (eq_dec t "P") as [->|Ht]; simpl.
      + split; [intros []|intros [[]|[Heq|[]]]; congruence].
      + split; [intros []|intros [[]|[]]]. }
  split; [reflexivity|]. split; [reflexivity|]. split; [reflexivity|].
  intros Hcons. specialize (Hcons "A" "P"). simpl in Hcons.
  destruct Hcons as [Hdir _]. destruct (Hdir (or_introl eq_refl)) as [[]|[]].
Qed.

(** Scenario 4 of the specification: [T6] at height 300 evicts the mempool
    transaction [T5] and its child. *)
Lemma add_transaction_conflict_resolution_witness :
  exists s4,
    add_transaction plain_p2pkh no_decodeTransaction no_getProperty 8 "T6" mined_tx false
      conflict_engine = Ret true s4
    /\ dget "T6" (transactions s4) = Some mined_tx
    /\ dget "T5" (transactions s4) = None
    /\ dget "T5c" (transactions s4) = None.
Proof.
  destruct (add_transaction_conflict_resolution plain_p2pkh no_decodeTransaction
              no_getProperty no_getBalance 8 conflict_rank "T6" mined_tx false
              conflict_engine ["T5"] conflict_engine)
    as [_ [_ Hevict]].
  - reflexivity.
  - reflexivity.
  - right. right. exists (mkTxOutput TYPE_ADDRESS "A" 60). split; [left; reflexivity|reflexivity].
  - reflexivity.
  - discriminate.
  - intros h x Hin. unfold children, so_sub in Hin. simpl in Hin.
    destruct (eq_dec h "X"); [destruct Hin as [<-|[]]; reflexivity|].
    destruct (eq_dec h "T5"); [destruct Hin as [<-|[]]; reflexivity|].
    destruct (eq_dec h "T5c"); destruct Hin.
  - intros h x Hin. unfold children, so_sub in Hin. simpl in Hin.
    destruct (eq_dec h "X") as [->|]; [destruct Hin as [<-|[]]; vm_compute; lia|].
    destruct (eq_dec h "T5") as [->|]; [destruct Hin as [<-|[]]; vm_compute; lia|].
    destruct (eq_dec h "T5c"); destruct Hin.
  - intros c [<-|[]]. vm_compute. lia.
  - destruct Hevict as (R & s2 & s3 & s4 & _ & HR & _ & _ & _ & Hadd & Hget & Hgone).
    + intros [_ Hle]. vm_compute in Hle. apply Hle. reflexivity.
    + intros [_ [_ Hlocal]]. discriminate Hlocal.
    + exists s4. split; [exact Hadd|]. split; [exact Hget|]. split.
      * apply Hgone; [|discriminate]. apply HR. left. left. reflexivity.
      * apply Hgone; [|discriminate]. apply HR. right. exists "T5".
        split; [left; reflexivity|]. apply depends_child. left. reflexivity.
Defined.

(** Scenario 3 of the specification: the mempool transaction [T4] conflicts
    with the confirmed [T3] and is dropped. *)
Example confirmed_wins :
  add_transaction plain_p2pkh no_decodeTransaction no_getProperty 8 "T4" double_spend_tx false
    receiving_engine = Ret false dusty_engine.
Proof. reflexivity. Qed.

Lemma add_then_remove_restores_witness :
  exists s1 s2,
    add_transaction plain_p2pkh no_decodeTransaction no_getProperty 8 "T9" lone_tx false
      receiving_engine = Ret true s1
    /\ remove_transaction "T9" s1 = Ret tt s2
    /\ engine_blobs (serialized s2) = engine_blobs (serialized receiving_engine).
Proof.
  apply (add_then_remove_restores plain_p2pkh no_decodeTransaction no_getProperty
           no_getBalance 8 "T9" lone_tx false receiving_engine).
  - reflexivity.
  - reflexivity.
  - discriminate.
  - right. right. exists (mkTxOutput TYPE_ADDRESS "A" 10). split; [left; reflexivity|reflexivity].
  - unfold wf. simpl. constructor; [intros [H|[]]; discriminate H|].
    constructor; [intros []|constructor].
  - split; [|split; [|split; [|split]]]; try reflexivity.
    intros txin [<-|[]] _. reflexivity.
  - split; [discriminate|]. intros txin [<-|[]] _. discriminate.
Defined.

(** [dusty_engine] after [T9] was added, and after it was removed again. *)
Definition lone_added : AddressSynchronizer :=
  Eval vm_compute in
    match add_transaction plain_p2pkh no_decodeTransaction no_getProperty 8 "T9" lone_tx false
            dusty_engine with
    | Ret _ s1 => s1
    | Raise _ s1 => s1
    | OutOfFuel => dusty_engine
    end.

Definition lone_removed : AddressSynchronizer :=
  Eval vm_compute in
    match remove_transaction "T9" lone_added with
    | Ret _ s2 => s2
    | Raise _ s2 => s2
    | OutOfFuel => lone_added
    end.

(** The wallet reaches [dusty_engine] by adding [T3] and being offered [T4].
    There [T9] is isolated, it is added and removed again, and
    [spent_outpoints] has lost the empty dictionary it held under [Y]: the
    persisted state is not what it was. *)
Lemma add_then_remove_drops_empty_submap :
  run plain_p2pkh string plain_hash_header no_decodeTransaction no_getProperty 8
    [Op_add_transaction string "T3" confirmed_tx false;
     Op_add_transaction string "T4" double_spend_tx false]
    expecting_engine = Some dusty_engine
  /\ isolated "T9" lone_tx dusty_engine
  /\ add_transaction plain_p2pkh no_decodeTransaction no_getProperty 8 "T9" lone_tx false
       dusty_engine = Ret true lone_added
  /\ remove_transaction "T9" lone_added = Ret tt lone_removed
  /\ st_spent_outpoints (serialized dusty_engine)
     = [("X", [(0, "T3")]); ("T3", []); ("Y", [])]
  /\ st_spent_outpoints (serialized lone_removed) = [("X", [(0, "T3")]); ("T3", [])]
  /\ engine_blobs (serialized lone_removed) <> engine_blobs (serialized dusty_engine).
Proof.
  split; [vm_compute; reflexivity|]. split.
  { split; [|split; [|split; [|split]]]; try (vm_compute; reflexivity).
    intros txin [<-|[]] _. vm_compute. reflexivity. }
  split; [vm_compute; reflexivity|]. split; [vm_compute; reflexivity|].
  split; [vm_compute; reflexivity|]. split; [vm_compute; reflexivity|].
  vm_compute. discriminate.
Qed.

(** * The further properties at concrete engines *)

(** The wallet of scenario 6 once [Tb], which it does not hold, is removed. *)
Definition history_without_Tb : AddressSynchronizer :=
  Eval vm_compute in
    match remove_transaction "Tb" history_engine with
    | Ret _ s => s | Raise _ s => s | OutOfFuel => history_engine
    end.

Lemma remove_transaction_keeps_local_history_witness :
  remove_transaction "Tb" history_engine = Ret tt history_without_Tb
  /\ local_history_consistent history_without_Tb
  /\ local_history_sets history_without_Tb
  /\ (forall a, ~ In "Tb" (hl_get a (_history_local history_without_Tb))).
Proof.
  assert (Hrun : remove_transaction "Tb" history_engine = Ret tt history_without_Tb)
    by (vm_compute; reflexivity).
  split; [exact Hrun|].
  assert (Hload : load_local_history history_engine = history_engine)
    by (vm_compute; reflexivity).
  destruct (loaded_local_history plain_p2pkh no_decodeTransaction no_getBalance history_engine)
    as [Hc Hs].
  rewrite Hload in Hc, Hs.
  exact (remove_transaction_keeps_local_history plain_p2pkh no_decodeTransaction no_getBalance
           "Tb" history_engine history_without_Tb Hc Hs Hrun).
Defined.

(** The coins of [A] in scenario 6: the 70 of [Tc] and the 20 of [Tb]; the
    30 of [Tc] is spent by [Ta]. *)
Definition history_coins : dict string utxo :=
  [("Tc:0", mkUtxo "A" 70 0 "Tc" 500 false); ("Tb:0", mkUtxo "A" 20 0 "Tb" 0 false)].

Lemma get_addr_utxo_coins_witness :
  get_addr_utxo history_engine "A" = inr history_coins
  /\ (forall k x, In (k, x) history_coins ->
        utxo_address x = "A"
        /\ k = outpoint_ser (utxo_prevout_hash x) (utxo_prevout_n x)
        /\ dget k (snd (get_addr_io history_engine "A")) = None)
  /\ (exists x, In ("Tb:0", x) history_coins).
Proof.
  assert (Hrun : get_addr_utxo history_engine "A" = inr history_coins)
    by (vm_compute; reflexivity).
  split; [exact Hrun|].
  destruct (get_addr_utxo_coins plain_p2pkh no_decodeTransaction no_getBalance
              history_engine "A" history_coins Hrun) as [Hsound Hcomplete].
  split.
  - intros k x Hin. destruct (Hsound k x Hin) as (H1 & H2 & _ & _ & _ & H6).
    split; [exact H1|]. split; [exact H2|exact H6].
  - apply (Hcomplete "Tb:0" (0, 20, false)); vm_compute; reflexivity.
Defined.

Lemma get_addr_balance_is_utxo_value_witness :
  get_addr_utxo history_engine "A" = inr history_coins
  /\ get_addr_balance history_engine "A" = (100, -10, 0)
  /\ total3 (get_addr_balance history_engine "A")
     = Zsum (map (fun c => utxo_value (snd c)) history_coins).
Proof.
  assert (Hrun : get_addr_utxo history_engine "A" = inr history_coins)
    by (vm_compute; reflexivity).
  split; [exact Hrun|]. split; [vm_compute; reflexivity|].
  exact (proj1 (get_addr_balance_is_utxo_value plain_p2pkh no_decodeTransaction no_getBalance
                  history_engine "A" history_coins Hrun)).
Defined.

(** A wallet that indexed [Ta], which spends output 1 of [Tc], and neither
    holds [Ta] nor has [Tc] in its index. *)
Definition orphan_engine : AddressSynchronizer :=
  mkAddressSynchronizer
    [("A", [])] [] [] [] [("Ta", [("A", [("Tc:1", 30)])])] [("Ta", [])] [] []
    [("A", ["Ta"])] false "" [] None [] 600 empty_storage.

Lemma get_addr_utxo_key_error_witness :
  In "Tc:1" (dkeys (snd (get_addr_io orphan_engine "A")))
  /\ dget "Tc:1" (fst (get_addr_io orphan_engine "A")) = None
  /\ exists k', get_addr_utxo orphan_engine "A" = inl (KeyError k').
Proof.
  assert (Hsent : In "Tc:1" (dkeys (snd (get_addr_io orphan_engine "A"))))
    by (vm_compute; left; reflexivity).
  assert (Hnone : dget "Tc:1" (fst (get_addr_io orphan_engine "A")) = None)
    by (vm_compute; reflexivity).
  split; [exact Hsent|]. split; [exact Hnone|].
  exact (get_addr_utxo_key_error orphan_engine "A" "Tc:1" Hsent Hnone).
Defined.

Definition confirmed_coin : utxo := mkUtxo "A" 70 0 "Tc" 500 false.

Lemma get_utxos_filters_witness :
  get_utxos history_engine (Some ["A"]) [] false true false = inr [confirmed_coin]
  /\ In (utxo_address confirmed_coin) ["A"]
  /\ ~ In (utxo_address confirmed_coin) []
  /\ (true = true -> 0 < utxo_height confirmed_coin)
  /\ (false = true -> utxo_height confirmed_coin <> TX_HEIGHT_LOCAL)
  /\ (false = true -> utxo_coinbase confirmed_coin = true ->
      utxo_height confirmed_coin + COINBASE_MATURITY <= get_local_height history_engine).
Proof.
  assert (Hrun : get_utxos history_engine (Some ["A"]) [] false true false = inr [confirmed_coin])
    by (vm_compute; reflexivity).
  split; [exact Hrun|].
  exact (get_utxos_filters plain_p2pkh no_decodeTransaction no_getBalance history_engine
           (Some ["A"]) [] false true false [confirmed_coin] confirmed_coin Hrun
           (or_introl eq_refl)).
Defined.

Lemma add_unverified_tx_of_verified_witness :
  get_tx_height (add_unverified_tx "T7" 0 reorg_engine) "T7"
  = mkTxMinedInfo TX_HEIGHT_LOCAL (Some 0) None None None
  /\ verifier (add_unverified_tx "T7" 0 reorg_engine) = Some ["T7"]
  /\ add_unverified_tx "T7" 800 reorg_engine = reorg_engine.
Proof.
  destruct (add_unverified_tx_of_verified "T7" 0 reorg_engine
              (mkTxMinedInfo 700 None (Some 1500000000) (Some 3) (Some "H"))
              eq_refl eq_refl) as [_ [Hmempool _]].
  destruct (add_unverified_tx_of_verified "T7" 800 reorg_engine
              (mkTxMinedInfo 700 None (Some 1500000000) (Some 3) (Some "H"))
              eq_refl eq_refl) as [_ [_ Hother]].
  destruct (Hmempool (or_introl eq_refl)) as [_ [Hlocal Hreleased]].
  split; [exact Hlocal|]. split; [exact Hreleased|].
  apply Hother; discriminate.
Defined.

Lemma remove_unverified_tx_compares_witness :
  dget "T1" (unverified_tx (remove_unverified_tx "T1" 5
                              (add_unverified_tx "T1" 5 watching_engine))) = None
  /\ dget "T1" (unverified_tx (remove_unverified_tx "T1" 6
                                 (add_unverified_tx "T1" 5 watching_engine))) = Some 5.
Proof.
  split.
  - exact (proj1 (remove_unverified_tx_compares "T1" 5 5 watching_engine eq_refl)).
  - exact (proj1 (remove_unverified_tx_compares "T1" 5 6 watching_engine eq_refl)).
Defined.

Lemma undo_verifications_returns_demoted_witness :
  wf (verified_tx reorg_engine)
  /\ In "T7" (fst (undo_verifications string plain_hash_header forked_chain 700 reorg_engine))
  /\ dget "T9" (verified_tx (snd (undo_verifications string plain_hash_header forked_chain 700
                                    reorg_engine))) = None.
Proof.
  assert (Hwf : wf (verified_tx reorg_engine)).
  { unfold wf. simpl. constructor; [intros []|constructor]. }
  split; [exact Hwf|].
  destruct (undo_verifications_returns_demoted plain_p2pkh string plain_hash_header
              no_decodeTransaction no_getProperty no_getBalance forked_chain 700 reorg_engine
              Hwf) as [Hset [_ Hrest]].
  split.
  - apply Hset. exists (mkTxMinedInfo 700 None (Some 1500000000) (Some 3) (Some "H")).
    split; [reflexivity|]. split; [simpl; lia|reflexivity].
  - apply (Hrest "T9"). reflexivity.
Defined.

Lemma get_txpos_confirmed_first_witness :
  key_lt (get_txpos history_engine "Tc") (get_txpos history_engine "Tb") = Some true
  /\ key_lt (get_txpos history_engine "Tb") (get_txpos history_engine "Tc") = Some false.
Proof.
  destruct (get_txpos_confirmed_first history_engine "Tc" "Tb") as [_ [H1 H2]].
  - simpl. lia.
  - reflexivity.
  - simpl. lia.
  - split; [exact H1|exact H2].
Defined.

Lemma remove_transaction_not_held_witness :
  dget "Ta" (transactions history_engine) = None
  /\ exists h n s',
       remove_transaction "Ta" history_engine = Raise RuntimeError s'
       /\ spent_outpoints s' = so_pop_outpoint h n (spent_outpoints history_engine).
Proof.
  split; [reflexivity|].
  destruct (remove_transaction_not_held "Ta" history_engine eq_refl) as [Hraise _].
  destruct Hraise as (h & n & s' & Hr & Hso & _).
  - exists "Tc", 1. vm_compute. reflexivity.
  - exists h, n, s'. split; [exact Hr|exact Hso].
Defined.

(** The wallet of scenario 4 after [get_conflicting_transactions] has read
    its index. *)
Definition conflict_read : AddressSynchronizer :=
  Eval vm_compute in
    match get_conflicting_transactions "T6" mined_tx conflict_engine with
    | Ret _ s => s | Raise _ s => s | OutOfFuel => conflict_engine
    end.

Lemma get_conflicting_transactions_result_witness :
  get_conflicting_transactions "T6" mined_tx conflict_engine = Ret ["T5"] conflict_read
  /\ NoDup ["T5"]
  /\ (forall c, In c ["T5"] -> dmem c (transactions conflict_engine) = true).
Proof.
  assert (Hrun : get_conflicting_transactions "T6" mined_tx conflict_engine
                 = Ret ["T5"] conflict_read) by (vm_compute; reflexivity).
  split; [exact Hrun|].
  destruct (get_conflicting_transactions_result plain_p2pkh no_decodeTransaction no_getBalance
              "T6" mined_tx conflict_engine ["T5"] conflict_read Hrun)
    as (Hnd & _ & Hknown & _).
  split; [exact Hnd|exact Hknown].
Defined.

Lemma get_depending_transactions_descendants_witness :
  exists r s',
    get_depending_transactions 8 "X" conflict_engine = Ret r s'
    /\ NoDup r
    /\ ~ In "X" r.
Proof.
  destruct (get_depending_transactions_descendants conflict_rank 8 "X" conflict_engine)
    as (r & s' & Hr & Hnd & _ & Hself & _).
  - intros h x Hin. unfold children, so_sub in Hin. simpl in Hin.
    destruct (eq_dec h "X") as [->|]; [destruct Hin as [<-|[]]; vm_compute; lia|].
    destruct (eq_dec h "T5") as [->|]; [destruct Hin as [<-|[]]; vm_compute; lia|].
    destruct (eq_dec h "T5c"); destruct Hin.
  - vm_compute. lia.
  - exists r, s'. split; [exact Hr|]. split; [exact Hnd|exact Hself].
Defined.

Lemma get_wallet_delta_incoming_witness :
  get_wallet_delta watching_engine mined_tx = (true, false, 60, None)
  /\ fst (get_tx_fee watching_engine (Some mined_tx)) = None.
Proof.
  destruct (get_wallet_delta_incoming watching_engine mined_tx) as [Hdelta Hfee].
  - intros txin [<-|[]]. reflexivity.
  - split; [exact Hdelta|exact (Hfee eq_refl)].
Defined.

(** The watching wallet once it has taken [T6]. *)
Definition watching_added : AddressSynchronizer :=
  Eval vm_compute in
    match add_transaction plain_p2pkh no_decodeTransaction no_getProperty 8 "T6" mined_tx false
            watching_engine with
    | Ret _ s => s | Raise _ s => s | OutOfFuel => watching_engine
    end.

Lemma add_transaction_records_witness :
  add_transaction plain_p2pkh no_decodeTransaction no_getProperty 8 "T6" mined_tx false
    watching_engine = Ret true watching_added
  /\ dget "T6" (transactions watching_added) = Some mined_tx
  /\ so_lookup "X" 0 (spent_outpoints watching_added) = Some "T6".
Proof.
  assert (Hrun : add_transaction plain_p2pkh no_decodeTransaction no_getProperty 8 "T6"
                   mined_tx false watching_engine = Ret true watching_added)
    by (vm_compute; reflexivity).
  split; [exact Hrun|].
  destruct (add_transaction_records plain_p2pkh no_decodeTransaction no_getProperty
              no_getBalance 8 "T6" mined_tx false watching_engine true watching_added Hrun)
    as [Htrue _].
  destruct (Htrue eq_refl) as [Hheld Hspends].
  split; [exact Hheld|].
  apply (Hspends (mkTxInput "p2pkh" "X" 0 None)); [left; reflexivity|reflexivity].
Defined.

Lemma add_transaction_again_witness :
  exists s1' s2,
    get_conflicting_transactions "T6" mined_tx watching_added = Ret [] s1'
    /\ add_transaction plain_p2pkh no_decodeTransaction no_getProperty 8 "T6" mined_tx true
         watching_added = Ret true s2
    /\ dget "T6" (transactions s2) = Some mined_tx.
Proof.
  apply (add_transaction_again plain_p2pkh no_decodeTransaction no_getProperty no_getBalance
           8 "T6" mined_tx false watching_engine watching_added).
  vm_compute. reflexivity.
Defined.

Lemma receive_tx_callback_records_height_witness :
  dmem "T1" (verified_tx watching_engine) = false
  /\ (forall txin, In txin (inputs foreign_tx) ->
        is_mine watching_engine (get_txin_address watching_engine txin) = false)
  /\ (forall o, In o (outputs foreign_tx) ->
        is_mine watching_engine (get_txout_address plain_p2pkh o) = false)
  /\ (forall s',
        receive_tx_callback plain_p2pkh no_decodeTransaction no_getProperty 8 "T1" foreign_tx
          0 watching_engine
        <> Raise UnrelatedTransactionException s')
  /\ match receive_tx_callback plain_p2pkh no_decodeTransaction no_getProperty 8 "T1"
             foreign_tx 0 watching_engine with
     | Ret _ s' => dget "T1" (unverified_tx s') = Some 0
     | Raise e s' =>
         dget "T1" (unverified_tx s') = Some 0 /\ e <> UnrelatedTransactionException
     | OutOfFuel => True
     end.
Proof.
  split; [reflexivity|].
  split; [intros txin [<-|[]]; reflexivity|].
  split; [intros o [<-|[]]; reflexivity|].
  destruct (receive_tx_callback_records_height plain_p2pkh no_decodeTransaction
              no_getProperty 8 "T1" foreign_tx 0 watching_engine) as [Hnever Hheight].
  split; [exact Hnever|]. apply Hheight. reflexivity.
Defined.

(** The transaction that [add_transaction] refuses for a caller that does not
    allow unrelated transactions is taken when it comes from the server. *)
Example foreign_tx_received :
  exists s',
    receive_tx_callback plain_p2pkh no_decodeTransaction no_getProperty 8 "T1" foreign_tx 0
      watching_engine = Ret tt s'
    /\ dget "T1" (transactions s') = Some foreign_tx
    /\ dget "T1" (unverified_tx s') = Some 0.
Proof. eexists. split; [reflexivity|]. split; reflexivity. Qed.

(** The watching wallet once the server has reported [T6] at height 300 for
    [A], with a fee of 10. *)
Definition watching_synced : AddressSynchronizer :=
  Eval vm_compute in
    match receive_history_callback plain_p2pkh no_decodeTransaction no_getProperty 8 "A"
            [("T6", 300)] [("T6", 10)] watching_engine with
    | Ret _ s => s | Raise _ s => s | OutOfFuel => watching_engine
    end.

Lemma receive_history_callback_stores_witness :
  receive_history_callback plain_p2pkh no_decodeTransaction no_getProperty 8 "A"
    [("T6", 300)] [("T6", 10)] watching_engine = Ret tt watching_synced
  /\ dget "A" (history watching_synced) = Some [("T6", 300)]
  /\ dget "T6" (tx_fees watching_synced) = Some 10.
Proof.
  assert (Hrun : receive_history_callback plain_p2pkh no_decodeTransaction no_getProperty 8 "A"
                   [("T6", 300)] [("T6", 10)] watching_engine = Ret tt watching_synced)
    by (vm_compute; reflexivity).
  split; [exact Hrun|].
  assert (Hwf : wf [("T6", 10)]).
  { unfold wf. simpl. constructor; [intros []|constructor]. }
  destruct (receive_history_callback_stores plain_p2pkh no_decodeTransaction no_getProperty
              8 "A" [("T6", 300)] [("T6", 10)] watching_engine watching_synced Hwf Hrun)
    as (Hhist & _ & _ & Hfees).
  split; [exact Hhist|exact (Hfees "T6")].
Defined.

(** A wallet restored from its file: the server history of [A] lists [T8] at
    height 5, and no transaction is verified or unverified yet. *)
Definition restored_engine : AddressSynchronizer :=
  mkAddressSynchronizer [("A", [("T8", 5)])] [] [] [] [] [] [] [] [] false "" [] None [] 0
    empty_storage.

Lemma load_unverified_transactions_covers_witness :
  dget "T8" (verified_tx restored_engine) = None
  /\ exists addr hist h,
       In (addr, hist) (history restored_engine) /\ In ("T8", h) hist
       /\ dget "T8" (unverified_tx (load_unverified_transactions restored_engine)) = Some h.
Proof.
  split; [reflexivity|].
  apply (proj1 (proj2 (load_unverified_transactions_covers restored_engine "T8" eq_refl))).
  exists "A", [("T8", 5)], 5. split; left; reflexivity.
Defined.

Lemma remove_local_transactions_we_dont_have_sweeps_witness :
  recorded_spenders_held orphan_engine
  /\ exists s',
       remove_local_transactions_we_dont_have orphan_engine = Ret tt s'
       /\ transactions s' = transactions orphan_engine.
Proof.
  assert (Hheld : recorded_spenders_held orphan_engine) by (intros h d n t []).
  split; [exact Hheld|].
  destruct (remove_local_transactions_we_dont_have_sweeps plain_p2pkh no_decodeTransaction
              no_getBalance orphan_engine Hheld) as (s' & Hrun & Htxs & _).
  exists s'. split; [exact Hrun|exact Htxs].
Defined.

(** ** The history and its final balance *)

(** Two verified transactions of [A] in the block at height 500; the position
    of [T2] in the block is not known. *)
Definition tied_engine : AddressSynchronizer :=
  mkAddressSynchronizer
    [("A", [("T1", 500); ("T2", 500)])]
    [("T1", mkTxMinedInfo 500 None None (Some 1) None);
     ("T2", mkTxMinedInfo 500 None None None None)]
    [] []
    [("T1", []); ("T2", [])]
    [("T1", [("A", [(0, 10, false)])]); ("T2", [("A", [(0, 5, false)])])]
    [] [] [("A", ["T1"; "T2"])]
    false "" [] None [] 600 empty_storage.

(** The sort cannot order [T1] and [T2]. *)
Example tied_positions_raise :
  key_lt (get_txpos tied_engine "T1") (get_txpos tied_engine "T2") = None
  /\ get_history no_getBalance tied_engine (Some ["A"]) = inl TypeError.
Proof. split; reflexivity. Qed.

Definition orphan_rows : list history_row :=
  Eval vm_compute in
    match history_walk no_getBalance orphan_engine (Some ["A"]) with
    | inr (h2, _) => h2
    | inl _ => []
    end.

Definition scenario_rows : list history_row :=
  Eval vm_compute in
    match history_walk no_getBalance history_engine (Some ["A"]) with
    | inr (h2, _) => h2
    | inl _ => []
    end.

(** The tie of [tied_engine] raises; the walk over [orphan_engine], whose
    one transaction spends a coin the wallet never received, ends on 30 and
    the history is empty; the walk of scenario 6 ends on 0 and the history is
    its three rows, oldest first. *)
Lemma get_history_final_balance_witness :
  tied tied_engine (Some ["A"])
  /\ get_history no_getBalance tied_engine (Some ["A"]) = inl TypeError
  /\ (history_walk no_getBalance orphan_engine (Some ["A"]) = inr (orphan_rows, Some 30)
      /\ Some 30
         = Some (total3 (get_balance orphan_engine
                           (set_of_list (history_domain orphan_engine (Some ["A"]))))
                 - domain_delta orphan_engine (Some ["A"]))
      /\ get_history no_getBalance orphan_engine (Some ["A"]) = inr [])
  /\ (history_walk no_getBalance history_engine (Some ["A"]) = inr (scenario_rows, Some 0)
      /\ get_history no_getBalance history_engine (Some ["A"]) = inr (rev scenario_rows)
      /\ chronological history_engine (rev scenario_rows)
      /\ map row_txid (rev scenario_rows) = ["Tc"; "Tb"; "Ta"]).
Proof.
  assert (Htied : tied tied_engine (Some ["A"])).
  { exists "T1", "T2".
    split; [exists "A"; split; [left; reflexivity|left; reflexivity]|].
    split; [exists "A"; split; [left; reflexivity|right; left; reflexivity]|].
    reflexivity. }
  split; [exact Htied|]. split; [|split].
  - destruct (get_history_final_balance plain_p2pkh no_decodeTransaction no_getBalance
                tied_engine (Some ["A"])) as [[_ Hraise] _].
    exact (Hraise Htied).
  - assert (Hw : history_walk no_getBalance orphan_engine (Some ["A"])
                 = inr (orphan_rows, Some 30)) by (vm_compute; reflexivity).
    destruct (get_history_final_balance plain_p2pkh no_decodeTransaction no_getBalance
                orphan_engine (Some ["A"])) as [_ [_ [Hwalk _]]].
    destruct (Hwalk orphan_rows (Some 30) Hw) as [Hfinal [Hbad _]].
    split; [exact Hw|]. split; [exact Hfinal|]. apply Hbad. split; discriminate.
  - assert (Hw : history_walk no_getBalance history_engine (Some ["A"])
                 = inr (scenario_rows, Some 0)) by (vm_compute; reflexivity).
    destruct (get_history_final_balance plain_p2pkh no_decodeTransaction no_getBalance
                history_engine (Some ["A"])) as [_ [_ [Hwalk _]]].
    destruct (Hwalk scenario_rows (Some 0) Hw) as [_ [_ [Hgood [Hchrono _]]]].
    split; [exact Hw|]. split; [apply Hgood; right; reflexivity|].
    split; [exact Hchrono|reflexivity].
Defined.

(** ** A history taken back by the server *)

(** The wallet holds [T8], reported at height 5 for [A]; the server now
    reports no transaction for [A]. *)
Lemma receive_history_callback_retracts_witness :
  In ("T8", 5) (get_address_history synced_engine "A")
  /\ ~ In ("T8", 5) (@nil (Txid * Z))
  /\ exists s2,
       receive_history_callback plain_p2pkh no_decodeTransaction no_getProperty 8 "A" [] []
         synced_engine = Ret tt s2
       /\ dget "A" (history s2) = Some []
       /\ dget "T8" (verified_tx s2) = None
       /\ dget "T8" (unverified_tx s2) = None
       /\ exists more, verifier s2 = Some ([] ++ more) /\ In "T8" more.
Proof.
  assert (Hold : In ("T8", 5) (get_address_history synced_engine "A"))
    by (left; reflexivity).
  split; [exact Hold|]. split; [intros []|].
  destruct (receive_history_callback_retracts plain_p2pkh no_decodeTransaction no_getProperty
              no_getBalance 8 "A" [] [] synced_engine) as [_ [_ [Hend Hreturns]]].
  destruct Hreturns as [s2 Hret]; [intros t h []|].
  exists s2. split; [exact Hret|].
  destruct (Hend s2) as [Hhist Hretracted]; [rewrite Hret; reflexivity|].
  destruct (Hretracted "T8" 5 Hold (fun H : In ("T8", 5) [] => H))
    as [Hv [_ [Hrel [_ Hu]]]].
  split; [exact Hhist|]. split; [exact Hv|].
  split; [apply Hu; intros h' []|]. apply Hrel. reflexivity.
Defined.

(** The server now reports [T8] at height 6: the record at height 5 is
    dropped, the verifier releases its proof, and the second loop records
    the new height. *)
Example retracted_and_listed_again :
  exists s2,
    receive_history_callback plain_p2pkh no_decodeTransaction no_getProperty 8 "A"
      [("T8", 6)] [] synced_engine = Ret tt s2
    /\ dget "T8" (unverified_tx s2) = Some 6
    /\ verifier s2 = Some ["T8"].
Proof. eexists. split; [vm_compute; reflexivity|]. split; reflexivity. Qed.
